(** * LinkedIn profile scraper: extension orchestrator, extractor and REST backend

    A shallow embedding of the parts of the repository that carry its
    behaviour:

    - [JS]: the JavaScript string primitives the extractor relies on,
      over UTF-16 code units;
    - [Extractor]: [extractLinkedInProfileAdvanced] of
      chrome-extension/background.js, as a function of the loaded page;
    - [Background]: the service worker of chrome-extension/background.js
      (state, tab controller, batch loop, message handlers, listeners),
      first with one batch at a time ([Worker]), then with the activities
      that start messages begin taking turns at the suspension points
      ([Resumable]);
    - [Popup]: the click handler, the queue ([addUrl], [removeUrl]) and
      the button state of chrome-extension/popup.js;
    - [Backend]: the Profile model, the validation middleware with its
      rate limiter, and the handlers of [ProfileController] that create,
      read, page, count, delete and create in batches.

    The model comes first, then the predicates and the sample inputs the
    statements use, then the properties. Strings are sequences of UTF-16
    code units, numbers that count are exact naturals, and every call to
    the browser, to the page or to the backend is a call that may throw. *)

From Stdlib Require Import ZArith NArith List Bool Ascii String DecimalString DecimalPos
  DecimalN Sorted Lia.
From stdpp Require Import base decidable option list gmap sets.

Set Default Proof Using "Type".
#[local] Set Warnings "-register-all,-clear-no-such-hyp".
Local Open Scope N_scope.

(* ===================================================================== *)
(** ** JavaScript strings *)
(* ===================================================================== *)

Module JS.

(** A JavaScript string is a sequence of UTF-16 code units; [length] counts
    code units, as [String.prototype.length] does. *)
Definition jsstring := list N.

(** ASCII literals of the source. *)
Definition lit (s : string) : jsstring :=
  map (fun a => N_of_ascii a) (list_ascii_of_string s).

Arguments lit s : simpl never.

(** The bullet separator U+2022 tested by the headline and location filters. *)
Definition bullet : jsstring := [8226].

Definition jseqb (a b : jsstring) : bool := bool_decide (a = b).

(** Truthiness of a string: the empty string is falsy. *)
Definition truthy (s : jsstring) : bool :=
  match s with [] => false | _ :: _ => true end.

(** WhiteSpace and LineTerminator code points, the set removed by [trim]
    and matched by the regular expression class [\s]. *)
Definition isSpace (c : N) : bool :=
  ((9 <=? c) && (c <=? 13)) || (c =? 32) || (c =? 160) || (c =? 5760)
  || ((8192 <=? c) && (c <=? 8202)) || (c =? 8232) || (c =? 8233)
  || (c =? 8239) || (c =? 8287) || (c =? 12288) || (c =? 65279).

(** The class [\d]: ASCII digits only. *)
Definition isDigit (c : N) : bool := (48 <=? c) && (c <=? 57).

Fixpoint trimStart (s : jsstring) : jsstring :=
  match s with
  | c :: s' => if isSpace c then trimStart s' else s
  | [] => []
  end.

Definition trimEnd (s : jsstring) : jsstring := rev (trimStart (rev s)).

Definition trim (s : jsstring) : jsstring := trimEnd (trimStart s).

Fixpoint startsWith (p s : jsstring) : bool :=
  match p, s with
  | [], _ => true
  | _ :: _, [] => false
  | a :: p', b :: s' => (a =? b) && startsWith p' s'
  end.

(** [s.includes(sub)] *)
Fixpoint includes (s sub : jsstring) : bool :=
  startsWith sub s ||
  match s with
  | [] => false
  | _ :: s' => includes s' sub
  end.

(** [toLowerCase] on the letters A-Z. The only use of the result is the
    search for lower-case ASCII keywords and digits, which no other
    case mapping of Unicode produces as a contiguous run. *)
Definition lowerUnit (c : N) : N :=
  if (65 <=? c) && (c <=? 90) then c + 32 else c.

Definition toLowerCase (s : jsstring) : jsstring := map lowerUnit s.

(** [s.match(/\d+/)] as a condition. *)
Definition hasDigit (s : jsstring) : bool := existsb isDigit s.

(** The number pattern of the source is one or more digits followed by any
    number of groups made of a comma and one or more digits. [numberTail]
    reads the rest of such a number once its first digit is read: digits,
    and a comma only when a digit follows it. *)
Fixpoint numberTail (s : jsstring) : jsstring :=
  match s with
  | c :: s' =>
      if isDigit c then c :: numberTail s'
      else if c =? 44 then
        match s' with
        | d :: _ => if isDigit d then c :: numberTail s' else []
        | [] => []
        end
      else []
  | [] => []
  end.

(** [s.match] on the number pattern: group 1 of the leftmost match. *)
Fixpoint matchNumber (s : jsstring) : option jsstring :=
  match s with
  | c :: s' => if isDigit c then Some (c :: numberTail s') else matchNumber s'
  | [] => None
  end.

(** A match, anchored at the head of [s], of the number pattern followed
    by an optional plus sign, any white space and the keyword [kw].
    Every quantifier is followed by something it cannot itself match, so
    the greedy reading is the only one that can succeed. *)
Definition matchCountAt (kw s : jsstring) : option jsstring :=
  match s with
  | c :: s' =>
      if isDigit c then
        let g := c :: numberTail s' in
        let r := drop (length g) s in
        let r := match r with
                 | p :: r' => if p =? 43 then r' else r
                 | [] => r
                 end in
        if startsWith kw (trimStart r) then Some g else None
      else None
  | [] => None
  end.

(** [s.match] on that pattern, case-insensitive, for an already lower-cased
    [s]: group 1 of the leftmost match. *)
Fixpoint matchCount (kw s : jsstring) : option jsstring :=
  match matchCountAt kw s with
  | Some g => Some g
  | None =>
      match s with
      | _ :: s' => matchCount kw s'
      | [] => None
      end
  end.

(** [s.replace(/,/g, '')] *)
Definition stripCommas (s : jsstring) : jsstring :=
  filter (fun c => c ≠ 44) s.

(** [parseInt] of a string of decimal digits. *)
Definition parseInt (s : jsstring) : N :=
  fold_left (fun acc c => 10 * acc + (c - 48)) s 0.

(** [parseInt(m[1].replace(/,/g, ''))] *)
Definition countOf (group : jsstring) : N := parseInt (stripCommas group).

(** [[...new Set(xs)]]: first occurrences, in order. *)
Fixpoint dedupe (seen xs : list jsstring) : list jsstring :=
  match xs with
  | [] => []
  | x :: xs' =>
      if bool_decide (x ∈ seen) then dedupe seen xs'
      else x :: dedupe (x :: seen) xs'
  end.

End JS.

Import JS.

(* ===================================================================== *)
(** ** Exceptions *)
(* ===================================================================== *)

(** A computation that returns or throws an [Error] with a message. *)
Inductive Res (A : Type) : Type :=
  | Ok (a : A)
  | Throw (message : jsstring).
Arguments Ok {A} a.
Arguments Throw {A} message.

#[global] Instance res_ret : MRet Res := @Ok.
#[global] Instance res_bind : MBind Res := fun A B f m =>
  match m with
  | Ok a => f a
  | Throw e => Throw e
  end.

(* ===================================================================== *)
(** ** The extractor (chrome-extension/background.js, lines 385-743) *)
(* ===================================================================== *)

Module Extractor.

(** *** The page *)

(** A DOM element, as far as the extractor looks at it: its text, its [src]
    property ([None] when undefined) and [querySelector] below it. *)
Inductive Element : Type := mkElement {
  textContent : jsstring;
  src : option jsstring;
  elementQuerySelector : jsstring -> option Element
}.

(** The document the function is injected into. The calls on [document]
    are host calls and may throw; [isoNow] is [new Date().toISOString()]. *)
Record Document : Type := mkDocument {
  querySelector : jsstring -> Res (option Element);
  querySelectorAll : jsstring -> Res (list Element);
  isoNow : jsstring
}.

(** *** The record *)

Record ExperienceEntry : Type := mkExperience {
  title : jsstring;
  company : jsstring;
  order : nat
}.

(** [profileData] as returned at the end of the [try] block. [education]
    is never filled and stays the empty array. *)
Record ProfileData : Type := mkProfileData {
  name : jsstring;
  about : jsstring;
  bio : jsstring;
  location : jsstring;
  followerCount : N;
  connectionCount : N;
  bioLine : jsstring;
  headline : jsstring;
  industry : jsstring;
  profilePicture : jsstring;
  experience : list ExperienceEntry;
  skills : list jsstring;
  extractionStatus : jsstring;
  extractedAt : jsstring
}.

(** The object literal returned by the [catch] block; it has no other
    property. *)
Record FailureRecord : Type := mkFailureRecord {
  failureName : jsstring;
  failureBioLine : jsstring;
  failureStatus : jsstring;
  extractionError : jsstring;
  failureExtractedAt : jsstring
}.

Inductive Extraction : Type :=
  | Extracted (p : ProfileData)
  | Failed (f : FailureRecord).

(** Property reads on the returned object; [None] is [undefined]. *)
Definition nameOf (r : Extraction) : jsstring :=
  match r with Extracted p => name p | Failed f => failureName f end.
Definition bioLineOf (r : Extraction) : jsstring :=
  match r with Extracted p => bioLine p | Failed f => failureBioLine f end.
Definition locationOf (r : Extraction) : option jsstring :=
  match r with Extracted p => Some (location p) | Failed _ => None end.
Definition statusOf (r : Extraction) : jsstring :=
  match r with Extracted p => extractionStatus p | Failed f => failureStatus f end.

(** Truthiness of a property that may be [undefined]. *)
Definition truthyProp (v : option jsstring) : bool :=
  match v with Some s => truthy s | None => false end.

(** *** Selector tables

    Selectors are opaque keys of the page; the double quotes around
    attribute values in the source are written as single quotes. *)

Definition nameSelectors : list jsstring :=
  [ lit "h1.text-heading-xlarge.inline.t-24.v-align-middle.break-words";
    lit "h1.text-heading-xlarge";
    lit ".pv-text-details__left-panel h1";
    lit ".ph5 h1";
    lit "h1[aria-label]" ].

Definition headlineSelectors : list jsstring :=
  [ lit ".text-body-medium.break-words";
    lit ".pv-text-details__left-panel .text-body-medium";
    lit ".ph5 .text-body-medium" ].

Definition locationSelectors : list jsstring :=
  [ lit ".text-body-small.inline.t-black--light.break-words";
    lit ".pv-text-details__left-panel .text-body-small" ].

Definition locationKeywords : list jsstring :=
  [ lit "connection"; lit "follower"; lit "view"; lit "profile";
    lit "contact"; lit "mutual" ].

Definition connectionSelectors : list jsstring :=
  [ lit "a[href*='/search/results/people/?network=%5B%22F%22%5D'] .t-black--light .t-bold";
    lit "a[href*='search/results/people'] .t-black--light";
    lit ".pv-top-card--list-bullet li:first-child .t-black--light";
    lit ".pv-top-card__connections .t-black--light";
    lit ".pv-top-card--list .pv-top-card--list-bullet li .t-black--light" ].

Definition followerSelectors : list jsstring :=
  [ lit "a[href*='/followers/'] .t-black--light .t-bold";
    lit "a[href*='followers'] .t-black--light";
    lit ".pv-top-card--list-bullet li:last-child .t-black--light";
    lit ".pv-top-card__followers .t-black--light" ].

Definition fallbackSelector : jsstring :=
  lit ".t-black--light, .t-normal, .pv-top-card--list-bullet li".

Definition connectionLinkSelector : jsstring :=
  lit "a[href*='search/results/people'], a[href*='network']".

Definition followerLinkSelector : jsstring := lit "a[href*='followers']".

Definition profileImgSelectors : list jsstring :=
  [ lit ".pv-top-card__photo img";
    lit ".profile-photo-edit__preview img";
    lit ".pv-top-card-profile-picture img" ].

Definition aboutSelectors : list jsstring :=
  [ lit "#about ~ * .inline-show-more-text";
    lit ".pv-about-section .pv-shared-text-with-see-more";
    lit ".pv-about__summary-text .inline-show-more-text" ].

Definition experienceSelector : jsstring :=
  lit "#experience ~ * .pvs-list__item, [data-section='experience'] .pvs-list__item".

Definition titleSelectors : list jsstring :=
  [ lit ".t-bold"; lit ".mr1.t-bold"; lit ".pvs-entity__caption-wrapper .t-bold" ].

Definition companySelectors : list jsstring :=
  [ lit ".t-14.t-normal"; lit ".pvs-entity__caption-wrapper .t-14" ].

Definition skillSelector : jsstring :=
  lit "#skills ~ * .pvs-list__item .t-bold, [data-section='skills'] .t-bold".

(** *** Name, headline, location *)

Fixpoint extractName (doc : Document) (selectors : list jsstring) : Res jsstring :=
  match selectors with
  | [] => Ok []
  | selector :: rest =>
      element ← querySelector doc selector;
      match element with
      | Some e =>
          if truthy (trim (textContent e)) then Ok (trim (textContent e))
          else extractName doc rest
      | None => extractName doc rest
      end
  end.

Fixpoint extractHeadline (doc : Document) (selectors : list jsstring) : Res jsstring :=
  match selectors with
  | [] => Ok []
  | selector :: rest =>
      element ← querySelector doc selector;
      match element with
      | Some e =>
          if truthy (trim (textContent e)) && negb (includes (textContent e) bullet)
          then Ok (trim (textContent e))
          else extractHeadline doc rest
      | None => extractHeadline doc rest
      end
  end.

Definition isLocation (text : jsstring) : bool :=
  truthy text
  && negb (includes text bullet)
  && negb (hasDigit text)
  && (2 <? length text)%nat
  && (length text <? 100)%nat
  && negb (existsb (fun keyword => includes (toLowerCase text) keyword) locationKeywords).

(** The inner loop over the elements of one selector. *)
Fixpoint firstLocation (elements : list Element) : jsstring :=
  match elements with
  | [] => []
  | element :: rest =>
      let text := trim (textContent element) in
      if isLocation text then text else firstLocation rest
  end.

Fixpoint extractLocation (doc : Document) (selectors : list jsstring) : Res jsstring :=
  match selectors with
  | [] => Ok []
  | selector :: rest =>
      elements ← querySelectorAll doc selector;
      let found := firstLocation elements in
      if truthy found then Ok found else extractLocation doc rest
  end.

(** *** Follower and connection counts *)

(** Method 1, one loop per count. Each iteration is wrapped in its own
    [try]/[catch], which only warns: a throwing selector is skipped. *)
Fixpoint countBySelector (keyword : jsstring) (doc : Document)
    (selectors : list jsstring) : N :=
  match selectors with
  | [] => 0
  | selector :: rest =>
      match querySelector doc selector with
      | Ok (Some element) =>
          let text := trim (textContent element) in
          if includes (toLowerCase text) keyword then
            match matchNumber text with
            | Some group => countOf group
            | None => countBySelector keyword doc rest
            end
          else countBySelector keyword doc rest
      | Ok None => countBySelector keyword doc rest
      | Throw _ => countBySelector keyword doc rest
      end
  end.

(** Method 2, the body of the loop over all candidate elements; the pair
    is (connectionCount, followerCount). *)
Definition scanElement (counts : N * N) (element : Element) : N * N :=
  let text := toLowerCase (trim (textContent element)) in
  let connections :=
    if includes text (lit "connection") && negb (includes text (lit "mutual"))
       && negb (includes text (lit "view"))
    then match matchCount (lit "connection") text with
         | Some group => if counts.1 =? 0 then countOf group else counts.1
         | None => counts.1
         end
    else counts.1 in
  let followers :=
    if includes text (lit "follower") && negb (includes text (lit "following"))
    then match matchCount (lit "follower") text with
         | Some group => if counts.2 =? 0 then countOf group else counts.2
         | None => counts.2
         end
    else counts.2 in
  (connections, followers).

Definition fallbackCounts (doc : Document) (counts : N * N) : Res (N * N) :=
  if (counts.1 =? 0) && (counts.2 =? 0) then
    allElements ← querySelectorAll doc fallbackSelector;
    Ok (fold_left scanElement allElements counts)
  else Ok counts.

(** Method 3, the loop over the links; entered only when the count is
    still 0, and leaving it at 0 when no link passes the limit. *)
Fixpoint countByLink (keyword : jsstring) (limit : N) (links : list Element) : N :=
  match links with
  | [] => 0
  | link :: rest =>
      let text := toLowerCase (trim (textContent link)) in
      if includes text keyword then
        match matchNumber text with
        | Some group =>
            let count := countOf group in
            if count <? limit then count else countByLink keyword limit rest
        | None => countByLink keyword limit rest
        end
      else countByLink keyword limit rest
  end.

Definition linkCount (doc : Document) (selector keyword : jsstring)
    (limit : N) (current : N) : Res N :=
  if current =? 0 then
    links ← querySelectorAll doc selector;
    Ok (countByLink keyword limit links)
  else Ok current.

(** Methods 1 to 3 in sequence: the counts as parsed, before the sanity
    check. *)
Definition parseCounts (doc : Document) : Res (N * N) :=
  let connections := countBySelector (lit "connection") doc connectionSelectors in
  let followers := countBySelector (lit "follower") doc followerSelectors in
  counts ← fallbackCounts doc (connections, followers);
  connections ← linkCount doc connectionLinkSelector (lit "connection") 100000 counts.1;
  followers ← linkCount doc followerLinkSelector (lit "follower") 10000000 counts.2;
  Ok (connections, followers).

(** "Sanity check and validation" (lines 610-619). *)
Definition sanityCheck (counts : N * N) : N * N :=
  let connections := if 100000 <? counts.1 then 0 else counts.1 in
  let followers := if 50000000 <? counts.2 then 0 else counts.2 in
  (connections, followers).

(** *** Picture, about, experience, skills *)

Fixpoint extractPicture (doc : Document) (selectors : list jsstring) : Res jsstring :=
  match selectors with
  | [] => Ok []
  | selector :: rest =>
      img ← querySelector doc selector;
      match img with
      | Some (mkElement _ (Some source) _) =>
          if truthy source && negb (includes source (lit "data:"))
             && includes source (lit "http")
          then Ok source
          else extractPicture doc rest
      | _ => extractPicture doc rest
      end
  end.

Fixpoint extractAbout (doc : Document) (bioLine : jsstring)
    (selectors : list jsstring) : Res jsstring :=
  match selectors with
  | [] => Ok []
  | selector :: rest =>
      element ← querySelector doc selector;
      match element with
      | Some e =>
          if (length bioLine <? length (trim (textContent e)))%nat
          then Ok (trim (textContent e))
          else extractAbout doc bioLine rest
      | None => extractAbout doc bioLine rest
      end
  end.

Fixpoint findTitle (elem : Element) (selectors : list jsstring) : jsstring :=
  match selectors with
  | [] => []
  | selector :: rest =>
      match elementQuerySelector elem selector with
      | Some titleElem => trim (textContent titleElem)
      | None => findTitle elem rest
      end
  end.

Fixpoint findCompany (elem : Element) (title : jsstring)
    (selectors : list jsstring) : jsstring :=
  match selectors with
  | [] => []
  | selector :: rest =>
      match elementQuerySelector elem selector with
      | Some companyElem =>
          if negb (includes (textContent companyElem) title)
          then trim (textContent companyElem)
          else findCompany elem title rest
      | None => findCompany elem title rest
      end
  end.

(** The [forEach] callback over the experience items, from [index] on. *)
Fixpoint experienceFrom (index : nat) (elements : list Element) : list ExperienceEntry :=
  match elements with
  | [] => []
  | elem :: rest =>
      if (index <? 5)%nat then
        let title := findTitle elem titleSelectors in
        let company := findCompany elem title companySelectors in
        if truthy title || truthy company
        then mkExperience title company index :: experienceFrom (S index) rest
        else experienceFrom (S index) rest
      else experienceFrom (S index) rest
  end.

(** The [forEach] callback over the skill elements, from [index] on. *)
Fixpoint skillsFrom (index : nat) (elements : list Element) : list jsstring :=
  match elements with
  | [] => []
  | elem :: rest =>
      let skillText := trim (textContent elem) in
      if (index <? 15)%nat && truthy skillText
         && (length skillText <? 50)%nat && (1 <? length skillText)%nat
      then skillText :: skillsFrom (S index) rest
      else skillsFrom (S index) rest
  end.

(** *** Status and result *)

(** "Determine extraction status" (lines 712-717); the initial value of
    the property is ['success']. *)
Definition determineStatus (name bioLine location : jsstring) : jsstring :=
  if negb (truthy name) then lit "failed"
  else if negb (truthy bioLine) && negb (truthy location) then lit "partial"
  else lit "success".

(** The [try] block. *)
Definition extractBody (doc : Document) : Res ProfileData :=
  let extractedAt := isoNow doc in
  name ← extractName doc nameSelectors;
  text ← extractHeadline doc headlineSelectors;
  location ← extractLocation doc locationSelectors;
  counts ← parseCounts doc;
  let counts := sanityCheck counts in
  profilePicture ← extractPicture doc profileImgSelectors;
  about ← extractAbout doc text aboutSelectors;
  experienceElements ← querySelectorAll doc experienceSelector;
  let experience := experienceFrom 0 experienceElements in
  skillElements ← querySelectorAll doc skillSelector;
  let skills := dedupe [] (skillsFrom 0 skillElements) in
  Ok {| name := name; about := about; bio := text; location := location;
        followerCount := counts.2; connectionCount := counts.1;
        bioLine := text; headline := text; industry := [];
        profilePicture := profilePicture; experience := experience;
        skills := skills;
        extractionStatus := determineStatus name text location;
        extractedAt := extractedAt |}.

(** The record built by the [catch] block from the caught error. *)
Definition failureRecord (doc : Document) (message : jsstring) : FailureRecord :=
  {| failureName := lit "Extraction Failed";
     failureBioLine := lit "Could not extract profile data";
     failureStatus := lit "failed";
     extractionError := message;
     failureExtractedAt := isoNow doc |}.

Definition extractLinkedInProfileAdvanced (doc : Document) : Extraction :=
  match extractBody doc with
  | Ok profileData => Extracted profileData
  | Throw message => Failed (failureRecord doc message)
  end.

End Extractor.

(* ===================================================================== *)
(** ** The service worker (chrome-extension/background.js, lines 1-1055) *)
(* ===================================================================== *)

Module Background.

Definition TabId := nat.

(** *** Configuration *)

Definition TAB_TIMEOUT : N := 45000.
Definition PROCESSING_DELAY : N := 3000.
Definition MAX_CONCURRENT_TABS : nat := 1.
Definition MAX_RETRIES : nat := 2.

(** Decimal rendering of a number inside a template literal. *)
Definition decimal (n : N) : jsstring := lit (NilZero.string_of_uint (N.to_uint n)).

Arguments decimal n : simpl never.

(** *** State management *)

Record ExtensionState : Type := mkExtensionState {
  isProcessing : bool;
  currentBatch : list jsstring;
  processedCount : nat;
  successCount : nat;
  errorCount : nat;
  activeTabs : gset TabId;
  processingStartTime : option N
}.

(** The value of [extensionState] when the script is loaded. *)
Definition initialState : ExtensionState :=
  {| isProcessing := false; currentBatch := []; processedCount := 0;
     successCount := 0; errorCount := 0; activeTabs := ∅;
     processingStartTime := None |}.

Definition resetState (st : ExtensionState) : ExtensionState :=
  {| isProcessing := false; currentBatch := []; processedCount := 0;
     successCount := 0; errorCount := 0; activeTabs := ∅;
     processingStartTime := None |}.

Definition withActiveTabs (st : ExtensionState) (tabs : gset TabId) : ExtensionState :=
  {| isProcessing := isProcessing st; currentBatch := currentBatch st;
     processedCount := processedCount st; successCount := successCount st;
     errorCount := errorCount st; activeTabs := tabs;
     processingStartTime := processingStartTime st |}.

Definition withIsProcessing (st : ExtensionState) (b : bool) : ExtensionState :=
  {| isProcessing := b; currentBatch := currentBatch st;
     processedCount := processedCount st; successCount := successCount st;
     errorCount := errorCount st; activeTabs := activeTabs st;
     processingStartTime := processingStartTime st |}.

Definition withProcessedCount (st : ExtensionState) (n : nat) : ExtensionState :=
  {| isProcessing := isProcessing st; currentBatch := currentBatch st;
     processedCount := n; successCount := successCount st;
     errorCount := errorCount st; activeTabs := activeTabs st;
     processingStartTime := processingStartTime st |}.

Definition incrSuccessCount (st : ExtensionState) : ExtensionState :=
  {| isProcessing := isProcessing st; currentBatch := currentBatch st;
     processedCount := processedCount st; successCount := S (successCount st);
     errorCount := errorCount st; activeTabs := activeTabs st;
     processingStartTime := processingStartTime st |}.

Definition incrErrorCount (st : ExtensionState) : ExtensionState :=
  {| isProcessing := isProcessing st; currentBatch := currentBatch st;
     processedCount := processedCount st; successCount := successCount st;
     errorCount := S (errorCount st); activeTabs := activeTabs st;
     processingStartTime := processingStartTime st |}.

(** "Initialize processing state" of [handleStartBatchProcessing]; the
    tracked tabs are not touched. *)
Definition startState (st : ExtensionState) (urls : list jsstring) (now : N)
    : ExtensionState :=
  {| isProcessing := true; currentBatch := urls; processedCount := 0;
     successCount := 0; errorCount := 0; activeTabs := activeTabs st;
     processingStartTime := Some now |}.

(** *** Data exchanged with the backend and the popup *)

(** The body of the POST: the extractor's object with [url] set. *)
Record PostedProfile : Type := mkPostedProfile {
  postedUrl : jsstring;
  postedData : Extractor.Extraction
}.

(** What [saveProfileToBackend] reads of the reply: [response.ok],
    [response.status], [result.success], [result.message] (empty when
    absent) and [result.data.profile.id], whose read throws a TypeError
    when [data] or [profile] is missing. *)
Record HttpReply : Type := mkHttpReply {
  ok : bool;
  status : N;
  success : bool;
  message : jsstring;
  profileId : Res nat
}.

Inductive SaveResult : Type :=
  | Saved (profileId : nat)
  | NotSaved (error : jsstring).

(** The three object shapes [processSingleUrl] returns; a missing
    [isDuplicate] is falsy. *)
Inductive UrlResult : Type :=
  | UrlSuccess (profile : PostedProfile) (profileId : nat)
  | UrlFailure (isDuplicate : bool) (error : jsstring).

(** [results.summary]; [successes] is its property [success]. *)
Record Summary : Type := mkSummary {
  total : nat;
  successes : nat;
  errors : nat;
  duplicates : nat;
  startTime : N;
  endTime : option N
}.

Record BatchResults : Type := mkBatchResults {
  successful : list (jsstring * PostedProfile * nat);
  failed : list (jsstring * jsstring);
  skipped : list (jsstring * jsstring);
  summary : Summary
}.

(** The argument of [sendResponse] in [handleStartBatchProcessing]. *)
Inductive StartResponse : Type :=
  | StartRejected (error : jsstring)
  | StartCompleted (results : BatchResults) (processingTime : N).

(** *** The world around the worker *)

(** Events that reach the worker while it is suspended at an [await] and
    are dealt with at once. A start message is not among them: it begins
    an activity of its own, which goes on beside the one that is
    suspended; it is received by [Resumable.receive] below. [Worker] is
    the worker with one such activity. *)
Inductive Interrupt : Type :=
  | TabRemoved (tab : TabId)        (* chrome.tabs.onRemoved *)
  | StopRequested                   (* message 'stopBatchProcessing' *)
  | ErrorEvent (message : jsstring) (* 'error' on self *)
  | UnhandledRejection (reason : jsstring).

(** The browser, the backend and the user. Every answer is indexed by the
    number of suspension points passed so far, so that an answer may change
    from attempt to attempt. [timeoutFirst] tells whether the timer of
    [waitForTabComplete] fires before the answer of a status poll. *)
Record Host : Type := mkHost {
  tabsCreate : nat -> jsstring -> Res TabId;
  tabsGet : nat -> TabId -> Res bool;
  timeoutFirst : nat -> bool;
  tabsRemove : nat -> TabId -> Res unit;
  injectContentScript : nat -> TabId -> Res unit;
  executeExtractor : nat -> TabId -> Res (option Extractor.Document);
  postProfile : nat -> PostedProfile -> Res HttpReply;
  dateNow : nat -> N;
  interrupts : nat -> list Interrupt
}.

(** What an observer sees of a run. [Tracked] records the value of
    [extensionState.activeTabs] after every update of the state. *)
Inductive Event : Type :=
  | Tracked (tabs : gset TabId)
  | CreateCalled (url : jsstring)
  | RemoveCalled (tab : TabId)
  | Posted (body : PostedProfile)
  | Progress (processed total : nat) (currentUrl : jsstring)
  | Waited (ms : N)
  | AttemptFailed (attempt : nat) (url message : jsstring)
  | ErrorLogged (message : jsstring).

Record World : Type := mkWorld {
  ext : ExtensionState;
  tick : nat;
  events : list Event
}.

(** State and exception monad of the worker. *)
Definition M (A : Type) : Type := World -> Res A * World.

#[global] Instance M_ret : MRet M := fun A a w => (Ok a, w).
#[global] Instance M_bind : MBind M := fun A B f m w =>
  match m w with
  | (Ok a, w') => f a w'
  | (Throw e, w') => (Throw e, w')
  end.

(** [try { m } catch (error) { ... }]: the outcome as a value. *)
Definition try {A} (m : M A) : M (Res A) := fun w =>
  let '(r, w') := m w in (Ok r, w').

Definition throw {A} (message : jsstring) : M A := fun w => (Throw message, w).

Definition getState : M ExtensionState := fun w => (Ok (ext w), w).

Definition getTick : M nat := fun w => (Ok (tick w), w).

Definition emit (e : Event) : M unit := fun w =>
  (Ok tt, {| ext := ext w; tick := tick w; events := events w ++ [e] |}).

(** An update of [extensionState]. *)
Definition update (f : ExtensionState -> ExtensionState) : M unit := fun w =>
  (Ok tt, {| ext := f (ext w); tick := tick w;
             events := events w ++ [Tracked (activeTabs (f (ext w)))] |}).

(** [handleStopBatchProcessing]: [closeTab] is started for every tracked
    tab, which calls [chrome.tabs.remove] at once, and the state is
    reset. What is left of each [closeTab] deletes from the tracked set
    an identifier that the reset has removed already. *)
Definition handleStopBatchProcessing (w : World) : World :=
  let st := withIsProcessing (ext w) false in
  {| ext := resetState st; tick := tick w;
     events := events w ++ map RemoveCalled (elements (activeTabs st))
                        ++ [Tracked ∅] |}.

(** The [chrome.runtime.onStartup] listener calls [resetState]. *)
Definition onStartup (w : World) : World :=
  {| ext := resetState (ext w); tick := tick w; events := events w ++ [Tracked ∅] |}.

(** The two listeners on [self] (lines 1046-1052) only call
    [console.error]. *)
Definition onError (message : jsstring) (w : World) : World :=
  {| ext := ext w; tick := tick w; events := events w ++ [ErrorLogged message] |}.

Definition onUnhandledRejection (reason : jsstring) (w : World) : World :=
  {| ext := ext w; tick := tick w; events := events w ++ [ErrorLogged reason] |}.

(** The [chrome.tabs.onRemoved] listener. *)
Definition onTabRemoved (tab : TabId) (w : World) : World :=
  if bool_decide (tab ∈ activeTabs (ext w)) then
    {| ext := withActiveTabs (ext w) (activeTabs (ext w) ∖ {[tab]});
       tick := tick w;
       events := events w ++ [Tracked (activeTabs (ext w) ∖ {[tab]})] |}
  else w.

Definition deliver (w : World) (i : Interrupt) : World :=
  match i with
  | TabRemoved tab => onTabRemoved tab w
  | StopRequested => handleStopBatchProcessing w
  | ErrorEvent message => onError message w
  | UnhandledRejection reason => onUnhandledRejection reason w
  end.

Section Worker.

Variable host : Host.

(** [await call]: the call is issued, the worker is suspended, the events
    of this suspension point are delivered, and the answer comes back. *)
Definition await {A} (call : nat -> Res A) : M A := fun w =>
  let w' := fold_left deliver (interrupts host (tick w)) w in
  (call (tick w), {| ext := ext w'; tick := S (tick w'); events := events w' |}).

Definition wait (ms : N) : M unit :=
  emit (Waited ms);; await (fun _ => Ok tt).

(** *** Tab controller *)

(** The polling of [waitForTabComplete], with [remaining] checks left
    before [checkCount] reaches [maxChecks]. *)
Fixpoint checkTabStatus (remaining : nat) (tabId : TabId) : M unit :=
  match remaining with
  | O => throw (lit "Tab loading timeout - max checks reached")
  | S remaining' =>
      now ← getTick;
      answer ← try (await (fun t => tabsGet host t tabId));
      if timeoutFirst host now then throw (lit "Tab loading timeout")
      else match answer with
           | Throw lastError => throw (lit "Tab not found: " ++ lastError)
           | Ok true => mret tt
           | Ok false =>
               match remaining' with
               | O => throw (lit "Tab loading timeout - max checks reached")
               | S _ => await (fun _ => Ok tt);; checkTabStatus remaining' tabId
               end
           end
  end.

(** The number of polls after which [checkCount >= timeout / 500] holds;
    the first poll is always made. *)
Definition maxChecks (timeout : N) : nat :=
  N.to_nat (N.max 1 ((timeout + 499) / 500)).

Definition waitForTabComplete (tabId : TabId) (timeout : N) : M unit :=
  checkTabStatus (maxChecks timeout) tabId.

Definition closeTab (tabId : TabId) : M unit :=
  emit (RemoveCalled tabId);;
  _ ← try (await (fun t => tabsRemove host t tabId));
  update (fun st => withActiveTabs st (activeTabs st ∖ {[tabId]})).

Definition extractProfileFromTab (tabId : TabId) : M Extractor.Extraction :=
  _ ← try (await (fun t => injectContentScript host t tabId));
  wait 2000;;
  results ← await (fun t => executeExtractor host t tabId);
  match results with
  | Some document => mret (Extractor.extractLinkedInProfileAdvanced document)
  | None => throw (lit "No data returned from extraction script")
  end.

(** *** API client *)

(** The result object built from the answer of [fetch] and
    [response.json()]. *)
Definition readReply (answer : Res HttpReply) : SaveResult :=
  match answer with
  | Ok reply =>
      if ok reply && success reply then
        match profileId reply with
        | Ok id => Saved id
        | Throw typeError => NotSaved typeError
        end
      else NotSaved (if truthy (message reply) then message reply
                     else lit "HTTP " ++ decimal (status reply))
  | Throw error => NotSaved error
  end.

Definition saveProfileToBackend (profileData : PostedProfile) : M SaveResult :=
  emit (Posted profileData);;
  answer ← try (await (fun t => postProfile host t profileData));
  mret (readReply answer).

(** *** One URL *)

(** The [try] block of [processSingleUrl] from the no-name guard on, once
    the tab [tab] has delivered [profileData]. *)
Definition submitProfile (url : jsstring) (tab : TabId)
    (profileData : Extractor.Extraction) : M UrlResult :=
  if negb (truthy (Extractor.nameOf profileData))
  then throw (lit "Failed to extract profile data - no name found")
  else
    let profileData := mkPostedProfile url profileData in
    saveResult ← saveProfileToBackend profileData;
    match saveResult with
    | NotSaved error =>
        let isDuplicate := truthy error && includes error (lit "already exists") in
        closeTab tab;;
        mret (UrlFailure isDuplicate error)
    | Saved id =>
        closeTab tab;;
        mret (UrlSuccess profileData id)
    end.

(** The [try] block after [chrome.tabs.create] has answered with [tab]. *)
Definition scrapeTab (url : jsstring) (tab : TabId) : M UrlResult :=
  update (fun st => withActiveTabs st (activeTabs st ∪ {[tab]}));;
  waitForTabComplete tab TAB_TIMEOUT;;
  wait 5000;;
  profileData ← extractProfileFromTab tab;
  submitProfile url tab profileData.

(** The [catch] block: [tab] is the variable of the function, still the
    tab of an earlier attempt when [chrome.tabs.create] has thrown;
    [remaining] is [MAX_RETRIES - retryCount] after the increment. *)
Definition attemptFailed (url : jsstring) (tab : option TabId)
    (remaining : nat) (message : jsstring) : M unit :=
  emit (AttemptFailed (MAX_RETRIES - remaining) url message);;
  st ← getState;
  match tab with
  | Some id => if bool_decide (id ∈ activeTabs st) then closeTab id else mret tt
  | None => mret tt
  end;;
  match remaining with
  | O => mret tt
  | S _ => wait 2000
  end.

Definition failedAfter : jsstring :=
  lit "Failed after " ++ decimal (N.of_nat MAX_RETRIES) ++ lit " attempts".

(** One pass through the [try] block. The variable [tab] of the function
    goes in and comes out: it keeps its value when [chrome.tabs.create]
    throws. The outcome is the value returned from inside the block, or
    the error that reaches the [catch]. *)
Definition tryBlock (url : jsstring) (tab : option TabId)
    : M (option TabId * Res UrlResult) :=
  emit (CreateCalled url);;
  created ← try (await (fun t => tabsCreate host t url));
  match created with
  | Throw error => mret (tab, Throw error)
  | Ok id =>
      outcome ← try (scrapeTab url id);
      mret (Some id, outcome)
  end.

(** The [while] loop, with [remaining = MAX_RETRIES - retryCount]. *)
Fixpoint attempts (remaining : nat) (url : jsstring) (tab : option TabId)
    : M UrlResult :=
  match remaining with
  | O => mret (UrlFailure false failedAfter)
  | S remaining' =>
      pass ← tryBlock url tab;
      match pass.2 with
      | Ok result => mret result
      | Throw error =>
          attemptFailed url pass.1 remaining' error;;
          attempts remaining' url pass.1
      end
  end.

Definition processSingleUrl (url : jsstring) : M UrlResult :=
  attempts MAX_RETRIES url None.

(** *** The batch *)

Definition emptyResults (urls : list jsstring) (now : N) : BatchResults :=
  {| successful := []; failed := []; skipped := [];
     summary := {| total := length urls; successes := 0; errors := 0;
                   duplicates := 0; startTime := now; endTime := None |} |}.

Definition recordSuccess (url : jsstring) (profile : PostedProfile) (id : nat)
    (r : BatchResults) : BatchResults :=
  {| successful := successful r ++ [(url, profile, id)];
     failed := failed r; skipped := skipped r;
     summary := {| total := total (summary r);
                   successes := S (successes (summary r));
                   errors := errors (summary r);
                   duplicates := duplicates (summary r);
                   startTime := startTime (summary r);
                   endTime := endTime (summary r) |} |}.

Definition recordDuplicate (url error : jsstring) (r : BatchResults) : BatchResults :=
  {| successful := successful r; failed := failed r;
     skipped := skipped r ++ [(url, error)];
     summary := {| total := total (summary r);
                   successes := successes (summary r);
                   errors := errors (summary r);
                   duplicates := S (duplicates (summary r));
                   startTime := startTime (summary r);
                   endTime := endTime (summary r) |} |}.

Definition recordFailure (url error : jsstring) (r : BatchResults) : BatchResults :=
  {| successful := successful r; failed := failed r ++ [(url, error)];
     skipped := skipped r;
     summary := {| total := total (summary r);
                   successes := successes (summary r);
                   errors := S (errors (summary r));
                   duplicates := duplicates (summary r);
                   startTime := startTime (summary r);
                   endTime := endTime (summary r) |} |}.

Definition finish (now : N) (r : BatchResults) : BatchResults :=
  {| successful := successful r; failed := failed r; skipped := skipped r;
     summary := {| total := total (summary r);
                   successes := successes (summary r);
                   errors := errors (summary r);
                   duplicates := duplicates (summary r);
                   startTime := startTime (summary r);
                   endTime := Some now |} |}.

(** The first two statements of the loop body: the processed count and
    the progress message to the popup. *)
Definition announce (i total : nat) (url : jsstring) : M unit :=
  update (fun st => withProcessedCount st (i + 1));;
  emit (Progress (i + 1) total url).

(** The [try]/[catch] inside the [for] loop, for the URL of index [i]. *)
Definition processUrl (i total : nat) (url : jsstring) (results : BatchResults)
    : M BatchResults :=
  outcome ← try (announce i total url;; processSingleUrl url);
  match outcome with
  | Ok (UrlSuccess profile id) =>
      update incrSuccessCount;;
      mret (recordSuccess url profile id results)
  | Ok (UrlFailure true error) =>
      mret (recordDuplicate url error results)
  | Ok (UrlFailure false error) =>
      update incrErrorCount;;
      mret (recordFailure url error results)
  | Throw error =>
      update incrErrorCount;;
      mret (recordFailure url error results)
  end.

(** The [for] loop from index [i] on, over the URLs not yet visited. *)
Fixpoint batchLoop (i total : nat) (urls : list jsstring) (results : BatchResults)
    : M BatchResults :=
  match urls with
  | [] => mret results
  | url :: rest =>
      results ← processUrl i total url results;
      (if (i <? total - 1)%nat then wait PROCESSING_DELAY else mret tt);;
      st ← getState;
      if negb (isProcessing st) then mret results
      else batchLoop (S i) total rest results
  end.

Definition processBatchUrls (urls : list jsstring) : M BatchResults :=
  now ← getTick;
  results ← batchLoop 0 (length urls) urls (emptyResults urls (dateNow host now));
  now ← getTick;
  mret (finish (dateNow host now) results).

(** [updateStatistics] reads and writes [chrome.storage.local] and catches
    every error; the statistics are not part of [extensionState]. *)
Definition updateStatistics (results : BatchResults) : M unit :=
  _ ← try (await (fun _ => Ok tt);; await (fun _ => Ok tt));
  mret tt.

(** [data.urls] of the message: [None] when it is missing or not an
    array. The response is the argument given to [sendResponse]. *)
Definition handleStartBatchProcessing (urls : option (list jsstring))
    : M StartResponse :=
  st ← getState;
  if isProcessing st then
    mret (StartRejected (lit "Batch processing already in progress"))
  else
    match urls with
    | None | Some [] => mret (StartRejected (lit "No URLs provided for processing"))
    | Some urls =>
        outcome ← try (
          now ← getTick;
          update (fun st => startState st urls (dateNow host now));;
          results ← processBatchUrls urls;
          updateStatistics results;;
          update resetState;;
          (* Date.now() - extensionState.processingStartTime, which the
             reset has just set to null *)
          now ← getTick;
          mret (StartCompleted results (dateNow host now - 0)));
        match outcome with
        | Ok response => mret response
        | Throw error =>
            update resetState;;
            mret (StartRejected error)
        end
    end.

End Worker.

(** *** The worker as a whole: activities that take turns

    An async function runs until its next [await]; the worker then turns
    to what comes next, a message of the popup or the answer to the
    pending call of any activity, so that a start message accepted while
    an earlier batch is suspended begins a second loop beside the first.
    [Prog] is the code of the worker with every suspension point kept as
    a node: an activity can be put aside there and resumed later. The
    functions below are those of [Worker], written with the operations of
    [Prog]. *)

Module Resumable.

Inductive Prog (A : Type) : Type :=
  | Return (a : A)
  | Raise (message : jsstring)
  | GetState (k : ExtensionState -> Prog A)
  | GetTick (k : nat -> Prog A)
  | Emit (e : Event) (k : Prog A)
  | Update (f : ExtensionState -> ExtensionState) (k : Prog A)
  | Await (B : Type) (call : nat -> Res B) (k : Res B -> Prog A).

Arguments Return {A} a.
Arguments Raise {A} message.
Arguments GetState {A} k.
Arguments GetTick {A} k.
Arguments Emit {A} e k.
Arguments Update {A} f k.
Arguments Await {A} B call k.

Fixpoint bind {A B} (f : A -> Prog B) (p : Prog A) : Prog B :=
  match p with
  | Return a => f a
  | Raise message => Raise message
  | GetState k => GetState (fun st => bind f (k st))
  | GetTick k => GetTick (fun now => bind f (k now))
  | Emit e k => Emit e (bind f k)
  | Update g k => Update g (bind f k)
  | Await B call k => Await B call (fun answer => bind f (k answer))
  end.

#[global] Instance Prog_ret : MRet Prog := @Return.
#[global] Instance Prog_bind : MBind Prog := @bind.

(** [try { p } catch (error) { ... }]: the outcome as a value. *)
Fixpoint try {A} (p : Prog A) : Prog (Res A) :=
  match p with
  | Return a => Return (Ok a)
  | Raise message => Return (Throw message)
  | GetState k => GetState (fun st => try (k st))
  | GetTick k => GetTick (fun now => try (k now))
  | Emit e k => Emit e (try k)
  | Update g k => Update g (try k)
  | Await B call k => Await B call (fun answer => try (k answer))
  end.

Definition throw {A} (message : jsstring) : Prog A := Raise message.

Definition getState : Prog ExtensionState := GetState Return.

Definition getTick : Prog nat := GetTick Return.

Definition emit (e : Event) : Prog unit := Emit e (Return tt).

Definition update (f : ExtensionState -> ExtensionState) : Prog unit :=
  Update f (Return tt).

(** [await call]: the activity is suspended until the call is answered;
    an answer that is an error is thrown. *)
Definition await {A} (call : nat -> Res A) : Prog A :=
  Await A call (fun answer =>
                  match answer with
                  | Ok a => Return a
                  | Throw error => Raise error
                  end).

Definition wait (ms : N) : Prog unit :=
  emit (Waited ms);; await (fun _ => Ok tt).

Section Activities.

Variable host : Host.

Fixpoint checkTabStatus (remaining : nat) (tabId : TabId) : Prog unit :=
  match remaining with
  | O => throw (lit "Tab loading timeout - max checks reached")
  | S remaining' =>
      now ← getTick;
      answer ← try (await (fun t => tabsGet host t tabId));
      if timeoutFirst host now then throw (lit "Tab loading timeout")
      else match answer with
           | Throw lastError => throw (lit "Tab not found: " ++ lastError)
           | Ok true => mret tt
           | Ok false =>
               match remaining' with
               | O => throw (lit "Tab loading timeout - max checks reached")
               | S _ => await (fun _ => Ok tt);; checkTabStatus remaining' tabId
               end
           end
  end.

Definition waitForTabComplete (tabId : TabId) (timeout : N) : Prog unit :=
  checkTabStatus (maxChecks timeout) tabId.

Definition closeTab (tabId : TabId) : Prog unit :=
  emit (RemoveCalled tabId);;
  _ ← try (await (fun t => tabsRemove host t tabId));
  update (fun st => withActiveTabs st (activeTabs st ∖ {[tabId]})).

Definition extractProfileFromTab (tabId : TabId) : Prog Extractor.Extraction :=
  _ ← try (await (fun t => injectContentScript host t tabId));
  wait 2000;;
  results ← await (fun t => executeExtractor host t tabId);
  match results with
  | Some document => mret (Extractor.extractLinkedInProfileAdvanced document)
  | None => throw (lit "No data returned from extraction script")
  end.

Definition saveProfileToBackend (profileData : PostedProfile) : Prog SaveResult :=
  emit (Posted profileData);;
  answer ← try (await (fun t => postProfile host t profileData));
  mret (readReply answer).

Definition submitProfile (url : jsstring) (tab : TabId)
    (profileData : Extractor.Extraction) : Prog UrlResult :=
  if negb (truthy (Extractor.nameOf profileData))
  then throw (lit "Failed to extract profile data - no name found")
  else
    let profileData := mkPostedProfile url profileData in
    saveResult ← saveProfileToBackend profileData;
    match saveResult with
    | NotSaved error =>
        let isDuplicate := truthy error && includes error (lit "already exists") in
        closeTab tab;;
        mret (UrlFailure isDuplicate error)
    | Saved id =>
        closeTab tab;;
        mret (UrlSuccess profileData id)
    end.

Definition scrapeTab (url : jsstring) (tab : TabId) : Prog UrlResult :=
  update (fun st => withActiveTabs st (activeTabs st ∪ {[tab]}));;
  waitForTabComplete tab TAB_TIMEOUT;;
  wait 5000;;
  profileData ← extractProfileFromTab tab;
  submitProfile url tab profileData.

Definition attemptFailed (url : jsstring) (tab : option TabId)
    (remaining : nat) (message : jsstring) : Prog unit :=
  emit (AttemptFailed (MAX_RETRIES - remaining) url message);;
  st ← getState;
  match tab with
  | Some id => if bool_decide (id ∈ activeTabs st) then closeTab id else mret tt
  | None => mret tt
  end;;
  match remaining with
  | O => mret tt
  | S _ => wait 2000
  end.

Definition tryBlock (url : jsstring) (tab : option TabId)
    : Prog (option TabId * Res UrlResult) :=
  emit (CreateCalled url);;
  created ← try (await (fun t => tabsCreate host t url));
  match created with
  | Throw error => mret (tab, Throw error)
  | Ok id =>
      outcome ← try (scrapeTab url id);
      mret (Some id, outcome)
  end.

Fixpoint attempts (remaining : nat) (url : jsstring) (tab : option TabId)
    : Prog UrlResult :=
  match remaining with
  | O => mret (UrlFailure false failedAfter)
  | S remaining' =>
      pass ← tryBlock url tab;
      match pass.2 with
      | Ok result => mret result
      | Throw error =>
          attemptFailed url pass.1 remaining' error;;
          attempts remaining' url pass.1
      end
  end.

Definition processSingleUrl (url : jsstring) : Prog UrlResult :=
  attempts MAX_RETRIES url None.

Definition announce (i total : nat) (url : jsstring) : Prog unit :=
  update (fun st => withProcessedCount st (i + 1));;
  emit (Progress (i + 1) total url).

Definition processUrl (i total : nat) (url : jsstring) (results : BatchResults)
    : Prog BatchResults :=
  outcome ← try (announce i total url;; processSingleUrl url);
  match outcome with
  | Ok (UrlSuccess profile id) =>
      update incrSuccessCount;;
      mret (recordSuccess url profile id results)
  | Ok (UrlFailure true error) =>
      mret (recordDuplicate url error results)
  | Ok (UrlFailure false error) =>
      update incrErrorCount;;
      mret (recordFailure url error results)
  | Throw error =>
      update incrErrorCount;;
      mret (recordFailure url error results)
  end.

Fixpoint batchLoop (i total : nat) (urls : list jsstring) (results : BatchResults)
    : Prog BatchResults :=
  match urls with
  | [] => mret results
  | url :: rest =>
      results ← processUrl i total url results;
      (if (i <? total - 1)%nat then wait PROCESSING_DELAY else mret tt);;
      st ← getState;
      if negb (isProcessing st) then mret results
      else batchLoop (S i) total rest results
  end.

Definition processBatchUrls (urls : list jsstring) : Prog BatchResults :=
  now ← getTick;
  results ← batchLoop 0 (length urls) urls (emptyResults urls (dateNow host now));
  now ← getTick;
  mret (finish (dateNow host now) results).

Definition updateStatistics (results : BatchResults) : Prog unit :=
  _ ← try (await (fun _ => Ok tt);; await (fun _ => Ok tt));
  mret tt.

Definition handleStartBatchProcessing (urls : option (list jsstring))
    : Prog StartResponse :=
  st ← getState;
  if isProcessing st then
    mret (StartRejected (lit "Batch processing already in progress"))
  else
    match urls with
    | None | Some [] => mret (StartRejected (lit "No URLs provided for processing"))
    | Some urls =>
        outcome ← try (
          now ← getTick;
          update (fun st => startState st urls (dateNow host now));;
          results ← processBatchUrls urls;
          updateStatistics results;;
          update resetState;;
          now ← getTick;
          mret (StartCompleted results (dateNow host now - 0)));
        match outcome with
        | Ok response => mret response
        | Throw error =>
            update resetState;;
            mret (StartRejected error)
        end
    end.

(** **** One activity alone

    [run p] is the activity [p] when nothing else is pending: every
    [await] is the one of [Worker]. *)
Fixpoint run {A} (p : Prog A) : M A :=
  match p with
  | Return a => mret a
  | Raise message => Background.throw message
  | GetState k => st ← Background.getState; run (k st)
  | GetTick k => now ← Background.getTick; run (k now)
  | Emit e k => Background.emit e;; run k
  | Update f k => Background.update f;; run k
  | Await B call k => answer ← Background.try (Background.await host call); run (k answer)
  end.

(** **** The activities of the worker

    The activities started so far, in the order of their start: each is
    suspended at an [await], or has ended, and is then the [Return] of
    what it gave to [sendResponse]. *)
Record Pool : Type := mkPool {
  shared : World;
  activities : list (Prog StartResponse)
}.

(** The activity runs on until it is suspended at an [await] or ends. *)
Fixpoint advance {A} (p : Prog A) (w : World) : Prog A * World :=
  match p with
  | GetState k => advance (k (ext w)) w
  | GetTick k => advance (k (tick w)) w
  | Emit e k => advance k (Background.emit e w).2
  | Update f k => advance k (Background.update f w).2
  | Return _ | Raise _ | Await _ _ _ => (p, w)
  end.

(** The listener receives a start message: [handleStartBatchProcessing]
    is called and runs up to its first [await], if it has one. *)
Definition receive (pool : Pool) (data : option (list jsstring)) : Pool :=
  let started := advance (handleStartBatchProcessing data) (shared pool) in
  {| shared := started.2; activities := activities pool ++ [started.1] |}.

(** One suspension point of the worker. The events of this point are
    delivered as for [Worker.await], then the start messages [starts]
    gives for it; then the pending call of one activity, the one [turn]
    names, is answered and the activity runs on to its next [await].
    Nothing runs on when [turn] names an activity that has ended. *)
Definition step (starts : nat -> list (option (list jsstring))) (turn : nat -> nat)
    (pool : Pool) : Pool :=
  let t := tick (shared pool) in
  let w := fold_left deliver (interrupts host t) (shared pool) in
  let pool := fold_left receive (starts t) {| shared := w; activities := activities pool |} in
  let w := {| ext := ext (shared pool); tick := S (tick (shared pool));
              events := events (shared pool) |} in
  let i := (turn t mod length (activities pool))%nat in
  match activities pool !! i with
  | Some (Await B call k) =>
      let resumed := advance (k (call t)) w in
      {| shared := resumed.2; activities := <[i := resumed.1]> (activities pool) |}
  | _ => {| shared := w; activities := activities pool |}
  end.

Fixpoint steps (starts : nat -> list (option (list jsstring))) (turn : nat -> nat)
    (n : nat) (pool : Pool) : Pool :=
  match n with
  | O => pool
  | S n' => steps starts turn n' (step starts turn pool)
  end.

End Activities.

(** The worker before any start message. *)
Definition idle (w : World) : Pool := {| shared := w; activities := [] |}.

(** What an activity gave to [sendResponse], once it has ended; an error
    that escapes it is kept as such. *)
Definition response {A} (p : Prog A) : option (Res A) :=
  match p with
  | Return a => Some (Ok a)
  | Raise error => Some (Throw error)
  | _ => None
  end.

Definition responses (pool : Pool) : list (Res StartResponse) :=
  omap response (activities pool).

(** The activities that are suspended. *)
Definition pending (pool : Pool) : list (Prog StartResponse) :=
  List.filter (fun p => negb (bool_decide (is_Some (response p)))) (activities pool).

End Resumable.

End Background.

(* ===================================================================== *)
(** ** The popup (chrome-extension/popup.js) *)
(* ===================================================================== *)

Module Popup.

Definition MIN_URLS_REQUIRED : nat := 3.

Record PopupState : Type := mkPopupState {
  linkedinUrls : list jsstring;
  isProcessing : bool
}.

(** What the click on the process button does next. *)
Inductive ClickAction : Type :=
  | ShowWarning (message : jsstring)
  | StopBatchProcessing
  | StartBatchProcessing (urls : list jsstring).

(** The click handler of [processBtn] (lines 99-112). *)
Definition processBtnClick (p : PopupState) : ClickAction :=
  if (length (linkedinUrls p) <? MIN_URLS_REQUIRED)%nat then
    ShowWarning ([9888; 65039] ++ lit " Please add at least "
                 ++ Background.decimal (N.of_nat MIN_URLS_REQUIRED)
                 ++ lit " LinkedIn URLs")
  else if isProcessing p then StopBatchProcessing
  else StartBatchProcessing (linkedinUrls p).

(** The click seen from the worker: the message it receives, if any, and
    the response it sends back. *)
Definition click (host : Background.Host) (p : PopupState)
    : Background.M (option Background.StartResponse) :=
  match processBtnClick p with
  | ShowWarning _ => mret None
  | StopBatchProcessing =>
      fun w => (Ok None, Background.handleStopBatchProcessing w)
  | StartBatchProcessing urls =>
      response ← Background.handleStartBatchProcessing host (Some urls);
      mret (Some response)
  end.

(** *** The process button as [updateUI] leaves it (lines 326-335) *)

Definition processBtnDisabled (p : PopupState) : bool :=
  let canProcess := (MIN_URLS_REQUIRED <=? length (linkedinUrls p))%nat
                    && negb (isProcessing p) in
  let canStop := isProcessing p in
  negb canProcess && negb canStop.

(** *** URL management (lines 43-90 and 286-313) *)

(** What the code reads of a parsed URL. *)
Record URL : Type := mkURL {
  hostname : jsstring;
  pathname : jsstring
}.

(** The argument pair of [showStatus]: the type and the message. *)
Definition Status : Type := jsstring * jsstring.

Section Queue.

(** [new URL(text)], the parser of the browser, which throws a TypeError
    on a text that is no URL. *)
Variable newURL : jsstring -> Res URL.

(** The first statement of both utility functions: the parameter [url]
    is reassigned when it has no scheme. *)
Definition withScheme (url : jsstring) : jsstring :=
  if negb (startsWith (lit "http://") url) && negb (startsWith (lit "https://") url)
  then lit "https://" ++ url
  else url.

Definition isValidLinkedInUrl (url : jsstring) : bool :=
  match newURL (withScheme url) with
  | Ok urlObj =>
      includes (hostname urlObj) (lit "linkedin.com")
      && includes (pathname urlObj) (lit "/in/")
  | Throw _ => false
  end.

(** [path.replace] of a slash at the end of the text by nothing. *)
Definition dropFinalSlash (path : jsstring) : jsstring :=
  match reverse path with
  | c :: rest => if c =? 47 then reverse rest else path
  | [] => path
  end.

Definition normalizeLinkedInUrl (url : jsstring) : jsstring :=
  match newURL (withScheme url) with
  | Ok urlObj => lit "https://www.linkedin.com" ++ dropFinalSlash (pathname urlObj)
  | Throw _ => withScheme url
  end.

(** [addUrl] on the text of the input field: the status shown and the
    state after it. *)
Definition addUrl (value : jsstring) (p : PopupState) : Status * PopupState :=
  let url := trim value in
  if negb (truthy url) then
    ((lit "warning", [9888; 65039] ++ lit " Please enter a LinkedIn URL"), p)
  else if negb (isValidLinkedInUrl url) then
    ((lit "error",
      [10060] ++ lit " Please enter a valid LinkedIn profile URL (linkedin.com/in/username)"),
     p)
  else
    let normalizedUrl := normalizeLinkedInUrl url in
    if bool_decide (normalizedUrl ∈ linkedinUrls p) then
      ((lit "warning", [9888; 65039] ++ lit " This URL is already in the queue"), p)
    else
      let urls := linkedinUrls p ++ [normalizedUrl] in
      ((lit "success",
        [9989] ++ lit " URL added! (" ++ Background.decimal (N.of_nat (length urls))
        ++ lit " total)"),
       {| linkedinUrls := urls; isProcessing := isProcessing p |}).

(** [removeUrl]: [splice(index, 1)] removes the item at [index] and does
    nothing when there is none. *)
Definition removeUrl (index : nat) (p : PopupState) : Status * PopupState :=
  ((lit "info", [8505; 65039] ++ lit " URL removed from queue"),
   {| linkedinUrls := delete index (linkedinUrls p); isProcessing := isProcessing p |}).

End Queue.

End Popup.

(* ===================================================================== *)
(** ** The backend: Profile model, validation middleware, controller *)
(* ===================================================================== *)

Module Backend.

(** The functions of the validator.js library used by express-validator
    and by Sequelize. They are parameters of the backend. *)
Record ValidatorJs : Type := mkValidatorJs {
  isURL : jsstring -> bool;
  isLength : jsstring -> nat -> nat -> bool;
  escape : jsstring -> jsstring
}.

(** *** The request body

    The JSON body of a request, with the property types the model
    declares; [None] is an absent property. The items of the JSON arrays
    are opaque to the backend. Nothing stops a client from sending the
    primary key, [id], with the other properties; it is a natural number,
    as the keys the table gives out are. *)
Module Request.
Record Body : Type := mkBody {
  id : option nat;
  name : option jsstring;
  url : option jsstring;
  about : option jsstring;
  bio : option jsstring;
  location : option jsstring;
  followerCount : option Z;
  connectionCount : option Z;
  bioLine : option jsstring;
  headline : option jsstring;
  industry : option jsstring;
  profilePicture : option jsstring;
  experience : option (list jsstring);
  education : option (list jsstring);
  skills : option (list jsstring);
  extractionStatus : option jsstring
}.
End Request.

(** *** The Profile model (the first file of src/unnamed/part_003) *)

(** An instance of the model; [createdAt] is set by the insertion, and so
    is [id] when the values do not carry it. *)
Record Profile : Type := mkProfile {
  id : option nat;
  name : option jsstring;
  url : option jsstring;
  about : option jsstring;
  bio : option jsstring;
  location : option jsstring;
  followerCount : Z;
  connectionCount : Z;
  bioLine : option jsstring;
  headline : option jsstring;
  industry : option jsstring;
  profilePicture : option jsstring;
  experience : list jsstring;
  education : list jsstring;
  skills : list jsstring;
  extractedAt : N;
  lastUpdated : N;
  extractionStatus : jsstring;
  createdAt : option N
}.

(** The table [profiles] and its AUTOINCREMENT counter. *)
Record Store : Type := mkStore {
  rows : list Profile;
  nextId : nat
}.

Definition statuses : list jsstring :=
  [ lit "pending"; lit "success"; lit "failed"; lit "partial" ].

Inductive DbError : Type :=
  | SequelizeValidationError (fields : list jsstring)
  | SequelizeUniqueConstraintError.

(** The values given to [Profile.create] by the two handlers: the body
    with [followerCount], [connectionCount], [extractionStatus],
    [extractedAt] and [lastUpdated] set. *)
Record Values : Type := mkValues {
  body : Request.Body;
  vFollowerCount : Z;
  vConnectionCount : Z;
  vExtractionStatus : jsstring;
  vExtractedAt : N;
  vLastUpdated : N
}.

(** [Profile.build]: attribute defaults for what is absent. The handlers
    that spread the body into the values pass its [id] on. *)
Definition build (v : Values) : Profile :=
  {| id := Request.id (body v);
     name := Request.name (body v);
     url := Request.url (body v);
     about := Request.about (body v);
     bio := Request.bio (body v);
     location := Request.location (body v);
     followerCount := vFollowerCount v;
     connectionCount := vConnectionCount v;
     bioLine := Request.bioLine (body v);
     headline := Request.headline (body v);
     industry := Request.industry (body v);
     profilePicture := Request.profilePicture (body v);
     experience := default [] (Request.experience (body v));
     education := default [] (Request.education (body v));
     skills := default [] (Request.skills (body v));
     extractedAt := vExtractedAt v;
     lastUpdated := vLastUpdated v;
     extractionStatus := vExtractionStatus v;
     createdAt := None |}.

Definition withUrl (p : Profile) (u : option jsstring) : Profile :=
  {| id := id p; name := name p; url := u; about := about p; bio := bio p;
     location := location p; followerCount := followerCount p;
     connectionCount := connectionCount p; bioLine := bioLine p;
     headline := headline p; industry := industry p;
     profilePicture := profilePicture p; experience := experience p;
     education := education p; skills := skills p;
     extractedAt := extractedAt p; lastUpdated := lastUpdated p;
     extractionStatus := extractionStatus p; createdAt := createdAt p |}.

(** Hook [beforeValidate]. *)
Definition beforeValidate (p : Profile) : Profile :=
  match url p with
  | Some u =>
      if truthy u && negb (startsWith (lit "http") u) then
        if includes u (lit "linkedin.com/in/")
        then withUrl p (Some (lit "https://" ++ u))
        else p
      else p
  | None => p
  end.

(** Hook [beforeCreate]. *)
Definition beforeCreate (now : N) (p : Profile) : Profile :=
  {| id := id p; name := name p; url := url p; about := about p; bio := bio p;
     location := location p; followerCount := followerCount p;
     connectionCount := connectionCount p; bioLine := bioLine p;
     headline := headline p; industry := industry p;
     profilePicture := profilePicture p; experience := experience p;
     education := education p; skills := skills p;
     extractedAt := now; lastUpdated := now;
     extractionStatus :=
       if truthy (extractionStatus p) then extractionStatus p else lit "pending";
     createdAt := createdAt p |}.

Section Server.

Variable validator : ValidatorJs.

(** Sequelize's [notEmpty]: some character is not white space. *)
Definition notEmpty (s : jsstring) : bool := existsb (fun c => negb (isSpace c)) s.

(** A nullable attribute is validated only when it has a value. *)
Definition whenPresent (v : option jsstring) (check : jsstring -> bool) : bool :=
  match v with Some s => check s | None => true end.

(** validator.js's [isInt] on a count. It reads the number as JavaScript
    writes it, and a number of 1e21 or more is written with an exponent,
    which is no integer numeral. *)
Definition isInt (n : Z) : bool := (Z.abs n <? 10 ^ 21)%Z.

(** The attribute validators of the model, as the list of the attributes
    that fail: each is named once, in the order of the declaration, where
    the error of Sequelize has one entry for every validator that
    fails. *)
Definition validate (p : Profile) : list jsstring :=
  (if match name p with
      | Some s => notEmpty s && isLength validator s 1 255
      | None => false
      end then [] else [lit "name"])
  ++ (if match url p with
         | Some s => notEmpty s && includes s (lit "linkedin.com/in/")
         | None => false
         end then [] else [lit "url"])
  ++ (if whenPresent (about p) (fun s => isLength validator s 0 5000)
      then [] else [lit "about"])
  ++ (if whenPresent (bio p) (fun s => isLength validator s 0 1000)
      then [] else [lit "bio"])
  ++ (if whenPresent (location p) (fun s => isLength validator s 0 255)
      then [] else [lit "location"])
  ++ (if (0 <=? followerCount p)%Z && isInt (followerCount p)
      then [] else [lit "followerCount"])
  ++ (if (0 <=? connectionCount p)%Z && isInt (connectionCount p)
      then [] else [lit "connectionCount"])
  ++ (if whenPresent (bioLine p) (fun s => isLength validator s 0 500)
      then [] else [lit "bioLine"])
  ++ (if whenPresent (headline p) (fun s => isLength validator s 0 500)
      then [] else [lit "headline"])
  ++ (if whenPresent (industry p) (fun s => isLength validator s 0 255)
      then [] else [lit "industry"])
  ++ (if whenPresent (profilePicture p) (isURL validator)
      then [] else [lit "profilePicture"])
  ++ (if bool_decide (extractionStatus p ∈ statuses)
      then [] else [lit "extractionStatus"]).

(** [Profile.findByUrl], that is [findOne({ where: { url } })]. *)
Definition findByUrl (u : jsstring) (s : Store) : option Profile :=
  find (fun p => bool_decide (url p = Some u)) (rows s).

(** The row as the INSERT writes it, under the primary key [key]. *)
Definition stored (key : nat) (now : N) (p : Profile) : Profile :=
  {| id := Some key; name := name p; url := url p;
     about := about p; bio := bio p; location := location p;
     followerCount := followerCount p;
     connectionCount := connectionCount p;
     bioLine := bioLine p; headline := headline p;
     industry := industry p;
     profilePicture := profilePicture p;
     experience := experience p; education := education p;
     skills := skills p; extractedAt := extractedAt p;
     lastUpdated := lastUpdated p;
     extractionStatus := extractionStatus p;
     createdAt := Some now |}.

(** [Profile.create]: build, [beforeValidate], validation, [beforeCreate],
    then the INSERT, which the unique index on [url] may refuse. The
    primary key is the [id] of the values when there is one, and the
    INSERT is refused when a row has it already; otherwise it is the value
    of the AUTOINCREMENT counter. The counter stays above every key that
    was ever used. *)
Definition create (now : N) (v : Values) (s : Store) : DbError + Profile * Store :=
  let p := beforeValidate (build v) in
  match validate p with
  | (_ :: _) as fields => inl (SequelizeValidationError fields)
  | [] =>
      let p := beforeCreate now p in
      if existsb (fun q => bool_decide (url q = url p)) (rows s)
      then inl SequelizeUniqueConstraintError
      else
        match id p with
        | Some key =>
            if existsb (fun q => bool_decide (id q = Some key)) (rows s)
            then inl SequelizeUniqueConstraintError
            else
              let p := stored key now p in
              inr (p, {| rows := rows s ++ [p];
                         nextId := Nat.max (nextId s) (S key) |})
        | None =>
            let p := stored (nextId s) now p in
            inr (p, {| rows := rows s ++ [p]; nextId := S (nextId s) |})
        end
  end.

(** *** Responses *)

Inductive Response : Type :=
  | Created (profile : Profile)
  | BadRequest (message : jsstring) (fields : list jsstring)
  | Conflict (existingId : option nat) (existingName existingUrl : option jsstring)
  | ServerError (message : jsstring).

Definition statusCode (r : Response) : nat :=
  match r with
  | Created _ => 201
  | BadRequest _ _ => 400
  | Conflict _ _ _ => 409
  | ServerError _ => 500
  end.

Definition truthyOpt (v : option jsstring) : bool :=
  match v with Some s => truthy s | None => false end.

(** [x || 0] on a count. *)
Definition orZero (v : option Z) : Z :=
  match v with Some n => n | None => 0%Z end.

(** [x || 'success'] on the status. *)
Definition orSuccess (v : option jsstring) : jsstring :=
  match v with
  | Some s => if truthy s then s else lit "success"
  | None => lit "success"
  end.

(** [x || null] on a string. *)
Definition orNull (v : option jsstring) : option jsstring :=
  match v with
  | Some s => if truthy s then Some s else None
  | None => None
  end.

(** The [catch] block shared by the two handlers. *)
Definition createFailed (e : DbError) : Response :=
  match e with
  | SequelizeValidationError fields => BadRequest (lit "Validation failed") fields
  | SequelizeUniqueConstraintError => ServerError (lit "Failed to create profile")
  end.

(** *** [ProfileController.createProfile] (src/unnamed/part_003, 528-616) *)

Definition createProfile (now : N) (profileData : Request.Body) (s : Store)
    : Response * Store :=
  if negb (truthyOpt (Request.name profileData))
     || negb (truthyOpt (Request.url profileData))
  then (BadRequest (lit "Missing required fields: name and url are required")
          [lit "name"; lit "url"], s)
  else
    match findByUrl (default [] (Request.url profileData)) s with
    | Some existingProfile =>
        (Conflict (id existingProfile) (name existingProfile) (url existingProfile), s)
    | None =>
        let profileDataWithDefaults :=
          {| body := profileData;
             vFollowerCount := orZero (Request.followerCount profileData);
             vConnectionCount := orZero (Request.connectionCount profileData);
             vExtractionStatus := orSuccess (Request.extractionStatus profileData);
             vExtractedAt := now;
             vLastUpdated := now |} in
        match create now profileDataWithDefaults s with
        | inr (newProfile, s') => (Created newProfile, s')
        | inl e => (createFailed e, s)
        end
    end.

(** *** [validateProfile] (src/backend/middleware/validation.js) *)

(** An optional chain is skipped when the property is absent. *)
Definition optionalLength (v : option jsstring) (max : nat) : bool :=
  whenPresent v (fun s => isLength validator s 0 max).

Definition validationErrors (b : Request.Body) : list jsstring :=
  (if truthyOpt (Request.name b) then [] else [lit "name"])
  ++ (if isLength validator (default [] (Request.name b)) 1 255 then [] else [lit "name"])
  ++ (if truthyOpt (Request.url b) then [] else [lit "url"])
  ++ (if isURL validator (default [] (Request.url b)) then [] else [lit "url"])
  ++ (if includes (default [] (Request.url b)) (lit "linkedin.com/in/")
      then [] else [lit "url"])
  ++ (if optionalLength (Request.about b) 5000 then [] else [lit "about"])
  ++ (if optionalLength (Request.bio b) 1000 then [] else [lit "bio"])
  ++ (if optionalLength (Request.location b) 255 then [] else [lit "location"])
  ++ (if optionalLength (Request.bioLine b) 500 then [] else [lit "bioLine"])
  ++ (if optionalLength (Request.headline b) 500 then [] else [lit "headline"])
  ++ (if optionalLength (Request.industry b) 255 then [] else [lit "industry"])
  ++ (if isInt (orZero (Request.followerCount b))
         && (0 <=? orZero (Request.followerCount b))%Z
      then [] else [lit "followerCount"])
  ++ (if isInt (orZero (Request.connectionCount b))
         && (0 <=? orZero (Request.connectionCount b))%Z
      then [] else [lit "connectionCount"])
  ++ (if whenPresent (Request.profilePicture b) (isURL validator)
      then [] else [lit "profilePicture"])
  ++ (if whenPresent (Request.extractionStatus b)
           (fun s => bool_decide (s ∈ statuses))
      then [] else [lit "extractionStatus"]).

(** The sanitizers of the chains: [trim] and [escape] on the name, [trim]
    on the optional texts. *)
Definition sanitize (b : Request.Body) : Request.Body :=
  {| Request.id := Request.id b;
     Request.name := option_map (fun s => escape validator (trim s)) (Request.name b);
     Request.url := Request.url b;
     Request.about := option_map trim (Request.about b);
     Request.bio := option_map trim (Request.bio b);
     Request.location := option_map trim (Request.location b);
     Request.followerCount := Request.followerCount b;
     Request.connectionCount := Request.connectionCount b;
     Request.bioLine := option_map trim (Request.bioLine b);
     Request.headline := option_map trim (Request.headline b);
     Request.industry := option_map trim (Request.industry b);
     Request.profilePicture := Request.profilePicture b;
     Request.experience := Request.experience b;
     Request.education := Request.education b;
     Request.skills := Request.skills b;
     Request.extractionStatus := Request.extractionStatus b |}.

(** [router.post('/', validateProfile, ProfileController.createProfile)]
    of src/backend/routes/profiles.js. *)
Definition postProfile (now : N) (b : Request.Body) (s : Store) : Response * Store :=
  match validationErrors b with
  | (_ :: _) as fields => (BadRequest (lit "Validation failed") fields, s)
  | [] => createProfile now (sanitize b) s
  end.

(** *** [app.post('/api/profiles', ...)] of the server file
    (src/unnamed/part_001, 125-239)

    The values given to [Profile.create] are listed one by one: an [id]
    in the body is not among them. *)

Definition postApiProfiles (now : N) (profileData : Request.Body) (s : Store)
    : Response * Store :=
  if negb (truthyOpt (Request.name profileData))
     || negb (truthyOpt (Request.url profileData))
  then (BadRequest (lit "Missing required fields: name and url are required")
          [lit "name"; lit "url"], s)
  else if negb (includes (default [] (Request.url profileData)) (lit "linkedin.com/in/"))
  then (BadRequest
          (lit "URL must be a valid LinkedIn profile URL (linkedin.com/in/username)")
          [lit "url"], s)
  else
    match findByUrl (default [] (Request.url profileData)) s with
    | Some existingProfile =>
        (Conflict (id existingProfile) (name existingProfile) (url existingProfile), s)
    | None =>
        let values :=
          {| body :=
               {| Request.id := None;
                  Request.name := Request.name profileData;
                  Request.url := Request.url profileData;
                  Request.about := orNull (Request.about profileData);
                  Request.bio := orNull (Request.bio profileData);
                  Request.location := orNull (Request.location profileData);
                  Request.followerCount := Request.followerCount profileData;
                  Request.connectionCount := Request.connectionCount profileData;
                  Request.bioLine := orNull (Request.bioLine profileData);
                  Request.headline := orNull (Request.headline profileData);
                  Request.industry := orNull (Request.industry profileData);
                  Request.profilePicture := orNull (Request.profilePicture profileData);
                  Request.experience := Request.experience profileData;
                  Request.education := Request.education profileData;
                  Request.skills := Request.skills profileData;
                  Request.extractionStatus := Request.extractionStatus profileData |};
             vFollowerCount := orZero (Request.followerCount profileData);
             vConnectionCount := orZero (Request.connectionCount profileData);
             vExtractionStatus := orSuccess (Request.extractionStatus profileData);
             vExtractedAt := now;
             vLastUpdated := now |} in
        match create now values s with
        | inr (newProfile, s') => (Created newProfile, s')
        | inl e => (createFailed e, s)
        end
    end.

(** *** Reading and deleting one record
    ([getProfileById], [deleteProfile]; src/unnamed/part_003, 482-526 and
    694-737) *)

(** [Profile.findByPk] on the identifier of the route, a decimal numeral. *)
Definition findByPk (key : nat) (s : Store) : option Profile :=
  find (fun p => bool_decide (id p = Some key)) (rows s).

(** [profile.destroy()]: the row of the instance is deleted. *)
Definition destroy (p : Profile) (s : Store) : Store :=
  {| rows := List.filter (fun q => negb (bool_decide (id q = id p))) (rows s);
     nextId := nextId s |}.

(** Instance method [isDataComplete]. *)
Definition isDataComplete (p : Profile) : bool :=
  truthyOpt (name p) && truthyOpt (url p)
  && (truthyOpt (bioLine p) || truthyOpt (headline p)).

Definition notFoundMessage (key : nat) : jsstring :=
  lit "Profile with ID " ++ Background.decimal (N.of_nat key) ++ lit " not found".

(** The answers 200 and 404 of [getProfileById]; of the metadata, which is
    computed from the record, [isComplete] is kept. *)
Inductive ReadResponse : Type :=
  | Retrieved (profile : Profile) (isComplete : bool)
  | NotFound (message : jsstring).

Definition getProfileById (key : nat) (s : Store) : ReadResponse :=
  match findByPk key s with
  | Some profile => Retrieved profile (isDataComplete profile)
  | None => NotFound (notFoundMessage key)
  end.

(** The answers 200, with [deletedProfile], and 404 of [deleteProfile]. *)
Inductive DeleteResponse : Type :=
  | Deleted (deletedId : option nat) (deletedName deletedUrl : option jsstring)
      (deletedCreatedAt : option N)
  | DeleteNotFound (message : jsstring).

Definition deleteProfile (key : nat) (s : Store) : DeleteResponse * Store :=
  match findByPk key s with
  | Some profile =>
      (Deleted (id profile) (name profile) (url profile) (createdAt profile),
       destroy profile s)
  | None => (DeleteNotFound (notFoundMessage key), s)
  end.

(** *** [createBatchProfiles] (src/unnamed/part_003, 809-925) *)

Record CreatedEntry : Type := mkCreatedEntry {
  createdIndex : nat;
  createdId : option nat;
  createdName : option jsstring;
  createdUrl : option jsstring
}.

Record SkippedEntry : Type := mkSkippedEntry {
  skippedIndex : nat;
  existingId : option nat;
  skippedUrl : option jsstring
}.

(** The [error] of an entry of [results.errors]: the fixed text about the
    required fields, or the message of the error [Profile.create] threw. *)
Inductive ItemError : Type :=
  | MissingFields
  | CreateError (e : DbError).

Record ErrorEntry : Type := mkErrorEntry {
  errorIndex : nat;
  itemError : ItemError
}.

Record BatchResults : Type := mkBatchResults {
  created : list CreatedEntry;
  skipped : list SkippedEntry;
  errors : list ErrorEntry
}.

Definition noResults : BatchResults :=
  {| created := []; skipped := []; errors := [] |}.

(** The body of the [for] loop, for the item of index [i]. *)
Definition batchItem (now : N) (i : nat) (profileData : Request.Body)
    (results : BatchResults) (s : Store) : BatchResults * Store :=
  if negb (truthyOpt (Request.name profileData))
     || negb (truthyOpt (Request.url profileData))
  then
    ({| created := created results; skipped := skipped results;
        errors := errors results ++ [mkErrorEntry i MissingFields] |}, s)
  else
    match findByUrl (default [] (Request.url profileData)) s with
    | Some existingProfile =>
        ({| created := created results;
            skipped := skipped results
                       ++ [mkSkippedEntry i (id existingProfile) (Request.url profileData)];
            errors := errors results |}, s)
    | None =>
        let values :=
          {| body := profileData;
             vFollowerCount := orZero (Request.followerCount profileData);
             vConnectionCount := orZero (Request.connectionCount profileData);
             vExtractionStatus := orSuccess (Request.extractionStatus profileData);
             vExtractedAt := now;
             vLastUpdated := now |} in
        match create now values s with
        | inr (newProfile, s') =>
            ({| created := created results
                           ++ [mkCreatedEntry i (id newProfile) (name newProfile)
                                 (url newProfile)];
                skipped := skipped results;
                errors := errors results |}, s')
        | inl e =>
            ({| created := created results; skipped := skipped results;
                errors := errors results ++ [mkErrorEntry i (CreateError e)] |}, s)
        end
    end.

(** The [for] loop from index [i] on; [clock i] is [new Date()] at item
    [i]. *)
Fixpoint batchItems (clock : nat -> N) (i : nat) (profiles : list Request.Body)
    (results : BatchResults) (s : Store) : BatchResults * Store :=
  match profiles with
  | [] => (results, s)
  | profileData :: rest =>
      let '(results, s) := batchItem (clock i) i profileData results s in
      batchItems clock (S i) rest results s
  end.

(** The early 400 answers, and the answer after the loop with its status
    code, its [success] flag and [data.results]. *)
Inductive BatchResponse : Type :=
  | BatchRejected (message : jsstring)
  | BatchCompleted (statusCode : nat) (success : bool) (results : BatchResults).

(** [req.body.profiles]: [None] when it is missing or not an array. *)
Definition createBatchProfiles (clock : nat -> N)
    (profiles : option (list Request.Body)) (s : Store) : BatchResponse * Store :=
  match profiles with
  | None =>
      (BatchRejected (lit "Request body must contain a " ++ [34] ++ lit "profiles"
                      ++ [34] ++ lit " array"), s)
  | Some [] => (BatchRejected (lit "Profiles array cannot be empty"), s)
  | Some profiles =>
      if (50 <? length profiles)%nat then
        (BatchRejected (lit "Maximum 50 profiles allowed per batch request"), s)
      else
        let '(results, s') := batchItems clock 0 profiles noResults s in
        let statusCode :=
          if (length (errors results) =? length profiles)%nat then 400%nat
          else if (length (created results) =? 0)%nat then 409%nat
          else 201%nat in
        (BatchCompleted statusCode (0 <? length (created results))%nat results, s')
  end.

(** *** Pagination of [getAllProfiles] (src/unnamed/part_003, 382-479)

    [selected] are the rows the where clause selects, in the order asked
    for; [page] and [limit] are the parsed query parameters, both at least
    1 (with [limit] 0 the division of the source gives Infinity or NaN). *)

Record Pagination : Type := mkPagination {
  currentPage : nat;
  totalPages : nat;
  totalCount : nat;
  pageLimit : nat;
  hasNextPage : bool;
  hasPrevPage : bool;
  nextPage : option nat;
  prevPage : option nat
}.

(** [Profile.findAndCountAll] with LIMIT and OFFSET: the count ignores
    both. *)
Definition findAndCountAll (limit offset : nat) (selected : list Profile)
    : nat * list Profile :=
  (length selected, take limit (drop offset selected)).

Definition getAllProfiles (page limit : nat) (selected : list Profile)
    : list Profile * Pagination :=
  let offset := ((page - 1) * limit)%nat in
  let '(count, profiles) := findAndCountAll limit offset selected in
  (* Math.ceil(count / limit) *)
  let totalPages := ((count + limit - 1) / limit)%nat in
  let hasNextPage := (page <? totalPages)%nat in
  let hasPrevPage := (1 <? page)%nat in
  (profiles,
   {| currentPage := page; totalPages := totalPages; totalCount := count;
      pageLimit := limit; hasNextPage := hasNextPage; hasPrevPage := hasPrevPage;
      nextPage := if hasNextPage then Some (page + 1)%nat else None;
      prevPage := if hasPrevPage then Some (page - 1)%nat else None |}).

(** *** [Profile.getStats] (src/unnamed/part_003, 328-358): the counts *)

(** [Profile.count({ where: { extractionStatus } })] *)
Definition countByStatus (st : jsstring) (s : Store) : nat :=
  length (List.filter (fun p => bool_decide (extractionStatus p = st)) (rows s)).

Record Stats : Type := mkStats {
  statsTotal : nat;
  statsSuccessful : nat;
  statsFailed : nat;
  statsPending : nat;
  statsPartial : nat
}.

Definition getStats (s : Store) : Stats :=
  {| statsTotal := length (rows s);
     statsSuccessful := countByStatus (lit "success") s;
     statsFailed := countByStatus (lit "failed") s;
     statsPending := countByStatus (lit "pending") s;
     statsPartial := countByStatus (lit "partial") s |}.

End Server.

(** *** The answer as the extension reads it

    What [fetch] and [response.json()] give [saveProfileToBackend] for an
    answer of a POST handler: [response.ok] holds for the status codes 200
    to 299, and [data.profile] is present in the 201 answer only, whose
    record carries the [id] set by the insertion. [createdMessage] is the
    message of the 201 answer, which differs between the controller and
    the server file. *)
Definition replyStatus (r : Response) : N :=
  match r with
  | Created _ => 201
  | BadRequest _ _ => 400
  | Conflict _ _ _ => 409
  | ServerError _ => 500
  end.

Definition replyMessage (createdMessage : jsstring) (r : Response) : jsstring :=
  match r with
  | Created _ => createdMessage
  | BadRequest message _ => message
  | Conflict _ _ _ => lit "Profile with this LinkedIn URL already exists"
  | ServerError message => message
  end.

Definition replyOf (createdMessage : jsstring) (r : Response) : Background.HttpReply :=
  {| Background.ok := (200 <=? replyStatus r) && (replyStatus r <=? 299);
     Background.status := replyStatus r;
     Background.success := match r with Created _ => true | _ => false end;
     Background.message := replyMessage createdMessage r;
     Background.profileId :=
       match r with
       | Created {| id := Some key |} => Ok key
       | _ => Throw (lit "Cannot read properties of undefined (reading 'id')")
       end |}.

(** *** [createRateLimit] (src/backend/middleware/validation.js, 172-205) *)

Module RateLimit.

(** The [Map] of the closure: its entries in insertion order, one per
    key. *)
Definition Requests : Type := list (jsstring * N).

(** [requests.set(key, value)] *)
Fixpoint set (key : jsstring) (value : N) (requests : Requests) : Requests :=
  match requests with
  | [] => [(key, value)]
  | (k, v) :: rest =>
      if bool_decide (k = key) then (k, value) :: rest
      else (k, v) :: set key value rest
  end.

(** The template literal with the address and the time. *)
Definition keyOf (ip : jsstring) (now : N) : jsstring :=
  ip ++ lit "-" ++ Background.decimal now.

Inductive Outcome : Type :=
  | Next
  | TooManyRequests (retryAfter : N).

(** The middleware returned by [createRateLimit(windowMs, max)], on a
    request from [ip] at the time [now]. *)
Definition rateLimit (windowMs : N) (max : nat) (ip : jsstring) (now : N)
    (requests : Requests) : Outcome * Requests :=
  let windowStart := (Z.of_N now - Z.of_N windowMs)%Z in
  let requests :=
    List.filter (fun entry => negb (Z.of_N entry.2 <? windowStart)%Z) requests in
  let userRequests :=
    length (List.filter (fun entry => startsWith ip entry.1) requests) in
  if (max <=? userRequests)%nat
  then (TooManyRequests ((windowMs + 999) / 1000), requests)
  else (Next, set (keyOf ip now) now requests).

End RateLimit.

End Backend.

(* ===================================================================== *)
(** * Specification-side definitions *)
(* ===================================================================== *)

(** ** The status rule of the specification *)

(** The status the specification gives a record, in its words: [failed]
    when the name could not be read (is empty), [partial] when the name
    was read but neither bioLine nor location was, [success] otherwise. *)
Definition specStatus (r : Extractor.Extraction) : jsstring :=
  if negb (truthy (Extractor.nameOf r)) then lit "failed"
  else if negb (truthy (Extractor.bioLineOf r)) && negb (Extractor.truthyProp (Extractor.locationOf r))
       then lit "partial"
       else lit "success".

(** ** Uniqueness of the stored URLs *)

(** No handler ever stores two records with one URL. *)
Definition uniqueUrls (s : Backend.Store) : Prop := NoDup (map Backend.url (Backend.rows s)).

(** ** The table of the backend *)

(** The three handlers that answer a POST of one profile. *)
Definition postHandlers (validator : Backend.ValidatorJs)
    : list (N -> Backend.Request.Body -> Backend.Store ->
            Backend.Response * Backend.Store) :=
  [ Backend.createProfile validator; Backend.postProfile validator;
    Backend.postApiProfiles validator ].

(** Every row has an identifier, below the counter, and no two rows share
    one. *)
Definition freshIds (s : Backend.Store) : Prop :=
  NoDup (map Backend.id (Backend.rows s))
  /\ forall p, p ∈ Backend.rows s ->
       exists key, Backend.id p = Some key /\ (key < Backend.nextId s)%nat.

(** Every row passes the attribute validators of the model. *)
Definition validRows (validator : Backend.ValidatorJs) (s : Backend.Store) : Prop :=
  forall p, p ∈ Backend.rows s -> Backend.validate validator p = [].

Definition storeOk (validator : Backend.ValidatorJs) (s : Backend.Store) : Prop :=
  uniqueUrls s /\ freshIds s /\ validRows validator s.

(** The indices of the items a batch answer accounts for. *)
Definition answered (results : Backend.BatchResults) : list nat :=
  map Backend.createdIndex (Backend.created results)
  ++ map Backend.skippedIndex (Backend.skipped results)
  ++ map Backend.errorIndex (Backend.errors results).

(** ** Requests under the rate limit *)

(** The requests, each an address and a time, that the limiter lets
    through when they arrive in this order, from the given map on. *)
Fixpoint admitted (windowMs : N) (max : nat) (arrivals : list (jsstring * N))
    (requests : Backend.RateLimit.Requests) : list (jsstring * N) :=
  match arrivals with
  | [] => []
  | (ip, now) :: rest =>
      match Backend.RateLimit.rateLimit windowMs max ip now requests with
      | (Backend.RateLimit.Next, requests) =>
          (ip, now) :: admitted windowMs max rest requests
      | (Backend.RateLimit.TooManyRequests _, requests) =>
          admitted windowMs max rest requests
      end
  end.

(** The request comes from [ip] and falls in the window of length
    [windowMs] that ends at [now]. *)
Definition inWindow (windowMs : N) (ip : jsstring) (now : N) (request : jsstring * N)
    : bool :=
  bool_decide (request.1 = ip)
  && (Z.of_N now - Z.of_N windowMs <=? Z.of_N request.2)%Z
  && (request.2 <=? now).

(** The arrival times strictly increase. *)
Definition increasing (arrivals : list (jsstring * N)) : Prop :=
  StronglySorted N.lt (map snd arrivals).

(** The map of the limiter agrees with the requests admitted so far, the
    latest arrival being at [last]: the admitted requests are not later
    than [last] and have different times, those of the window that ends
    at [last] have their entry in the map, every entry of the map is the
    one of an admitted request, and no window holds more than [max]
    admitted requests of one address. *)
Definition tracks (windowMs : N) (max : nat) (requests : Backend.RateLimit.Requests)
    (log : list (jsstring * N)) (last : N) : Prop :=
  (forall r, r ∈ log -> r.2 <= last)
  /\ NoDup (map snd log)
  /\ (forall r, r ∈ log -> (Z.of_N last - Z.of_N windowMs <= Z.of_N r.2)%Z ->
        (Backend.RateLimit.keyOf r.1 r.2, r.2) ∈ requests)
  /\ (forall e, e ∈ requests ->
        exists r, r ∈ log /\ e = (Backend.RateLimit.keyOf r.1 r.2, r.2))
  /\ (forall ip now, (length (List.filter (inWindow windowMs ip now) log) <= max)%nat).

(** ** The queue of the popup *)

(** No URL is queued twice, and every queued URL is on
    https://www.linkedin.com. *)
Definition queueOk (urls : list jsstring) : Prop :=
  NoDup urls
  /\ forall u, u ∈ urls -> startsWith (lit "https://www.linkedin.com") u = true.

(** ** The tracked tabs along a run of the worker *)

Section WorkerLogic.

Import Background.

Variable host : Host.

(** Every value the tracked set takes in a list of events has at most one
    element. *)
Definition bounded (es : list Event) : Prop :=
  forall s, Tracked s ∈ es -> (size s <= 1)%nat.

(** The tracked set after a list of events, from the set [base] before
    them. *)
Definition lastTracked (base : gset TabId) (es : list Event) : gset TabId :=
  fold_left (fun tabs e => match e with Tracked s => s | _ => tabs end) es base.

(** From [w] to [w'] events were only added; in them the tracked set is
    bounded, and they account for the tracked set of [w']. *)
Definition grows (w w' : World) : Prop :=
  exists new,
    events w' = events w ++ new
    /\ bounded new
    /\ activeTabs (ext w') = lastTracked (activeTabs (ext w)) new.

(** [triple P m Q]: from a world whose tracked set satisfies [P], the
    computation [m] only adds events, in which the tracked set is bounded,
    and ends, with the result [r], in a world whose tracked set satisfies
    [Q r]. *)
Definition triple {A} (P : gset TabId -> Prop) (m : M A)
    (Q : Res A -> gset TabId -> Prop) : Prop :=
  forall w, P (activeTabs (ext w)) ->
    grows w (m w).2 /\ Q (m w).1 (activeTabs (ext (m w).2)).

(** A condition on the tracked set that survives the removal of tabs and
    bounds its size. *)
Record stable (J : gset TabId -> Prop) : Prop := mkStable {
  stable_down : forall X Y, X ⊆ Y -> J Y -> J X;
  stable_small : forall X, J X -> (size X <= 1)%nat
}.

Definition keeps {A} (J : gset TabId -> Prop) (m : M A) : Prop :=
  triple J m (fun _ => J).

Definition returns {A} (J : gset TabId -> Prop) (m : M A) : Prop :=
  triple J m (fun r X => (exists a, r = Ok a) /\ J X).

Definition idle (X : gset TabId) : Prop := X = ∅.

Definition holding (tab : TabId) (X : gset TabId) : Prop := X ⊆ {[tab]}.

(** What an attempt leaves behind: nothing tracked when it returns, at
    most its own tab when it throws. *)
Definition afterAttempt {A} (tab : TabId) (r : Res A) (X : gset TabId) : Prop :=
  match r with
  | Ok _ => idle X
  | Throw _ => holding tab X
  end.

(** What the [catch] block finds: nothing tracked but, at most, the tab
    held by the variable [tab]. *)
Definition caught (tab : option TabId) (X : gset TabId) : Prop :=
  match tab with
  | Some id => holding id X
  | None => idle X
  end.

Definition afterPass (r : Res (option TabId * Res UrlResult)) (X : gset TabId) : Prop :=
  exists pass, r = Ok pass /\
    match pass.2 with
    | Ok _ => idle X
    | Throw _ => caught pass.1 X
    end.


End WorkerLogic.

(** ** What leaves the worker *)

(** The calls of a run that reach the browser or the backend: a tab asked
    for, a record posted. *)
Inductive Request : Type :=
  | Opened (url : jsstring)
  | Sent (body : Background.PostedProfile).

Definition requestOf (e : Background.Event) : option Request :=
  match e with
  | Background.CreateCalled url => Some (Opened url)
  | Background.Posted body => Some (Sent body)
  | _ => None
  end.

Definition requests (es : list Background.Event) : list Request := omap requestOf es.

Definition opened (rs : list Request) : nat :=
  length (List.filter (fun r => match r with Opened _ => true | Sent _ => false end) rs).

Definition sent (rs : list Request) : nat :=
  length (List.filter (fun r => match r with Sent _ => true | Opened _ => false end) rs).

(** No stop request ever reaches the worker. *)
Definition quiet (host : Background.Host) : Prop :=
  forall t, Background.StopRequested ∉ Background.interrupts host t.

(** A request a batch over [urls] may make: a tab for one of the URLs, or
    the POST of a record that has a name and carries one of the URLs. *)
Definition batchRequest (urls : list jsstring) (r : Request) : Prop :=
  match r with
  | Opened url => url ∈ urls
  | Sent body =>
      Background.postedUrl body ∈ urls
      /\ truthy (Extractor.nameOf (Background.postedData body)) = true
  end.

(** The URLs that have an outcome in the results. *)
Definition outcomeUrls (r : Background.BatchResults) : list jsstring :=
  map (fun entry => entry.1.1) (Background.successful r)
  ++ map fst (Background.failed r)
  ++ map fst (Background.skipped r).

(** The counters of the summary are the lengths of the three lists. *)
Definition counted (r : Background.BatchResults) : Prop :=
  Background.successes (Background.summary r) = length (Background.successful r)
  /\ Background.errors (Background.summary r) = length (Background.failed r)
  /\ Background.duplicates (Background.summary r) = length (Background.skipped r).

Section WorkerRequests.

Import Background.

Variable host : Host.

(** From [w] to [w'] the running flag is as it was unless a stop request
    has arrived, and once cleared it has stayed cleared. *)
Definition flagKept (w w' : World) : Prop :=
  (quiet host -> isProcessing (ext w') = isProcessing (ext w))
  /\ (isProcessing (ext w) = false -> isProcessing (ext w') = false).

(** [traces m T]: the computation [m] only adds events; the requests among
    them and the result satisfy [T]; and it sets the running flag in no
    case. *)
Definition traces {A} (m : M A) (T : Res A -> list Request -> Prop) : Prop :=
  forall w, exists new,
    events (m w).2 = events w ++ new
    /\ T (m w).1 (requests new)
    /\ flagKept w (m w).2.

(** A computation that makes no request. *)
Definition silent {A} (m : M A) : Prop := traces m (fun _ rs => rs = []).

(** A computation that makes no request and returns. *)
Definition calm {A} (m : M A) : Prop :=
  traces m (fun r rs => (exists a, r = Ok a) /\ rs = []).

(** A computation that makes no request and returns [a]. *)
Definition yields {A} (m : M A) (a : A) : Prop :=
  traces m (fun r rs => r = Ok a /\ rs = []).

(** The POST of the record extracted for [url], which has a name; a
    success returns the posted record. *)
Definition posted (url : jsstring) (result : UrlResult) (rs : list Request) : Prop :=
  exists data,
    truthy (Extractor.nameOf data) = true
    /\ rs = [Sent (mkPostedProfile url data)]
    /\ match result with
       | UrlSuccess profile _ => profile = mkPostedProfile url data
       | UrlFailure _ _ => True
       end.

(** An attempt that throws has posted nothing; one that returns has
    posted once. *)
Definition attemptTrace (url : jsstring) (r : Res UrlResult) (rs : list Request) : Prop :=
  match r with
  | Ok result => posted url result rs
  | Throw _ => rs = []
  end.

Definition passTrace (url : jsstring) (r : Res (option TabId * Res UrlResult))
    (rs : list Request) : Prop :=
  exists tab outcome rest,
    r = Ok (tab, outcome) /\ rs = Opened url :: rest /\ attemptTrace url outcome rest.

(** The requests of one URL with [remaining] attempts left: a tab for
    every attempt, and either all attempts fail, with the fixed error and
    no POST, or an attempt returns after its POST, the last request. *)
Definition urlTrace (remaining : nat) (url : jsstring) (r : Res UrlResult)
    (rs : list Request) : Prop :=
  exists result,
    r = Ok result
    /\ ((result = UrlFailure false (failedAfter) /\ rs = replicate remaining (Opened url))
        \/ exists failedBefore rest,
             (failedBefore < remaining)%nat
             /\ rs = replicate (S failedBefore) (Opened url) ++ rest
             /\ posted url result rest).

(** The results after the outcome of [url] has been recorded. *)
Definition recorded (url : jsstring) (results after : BatchResults) : Prop :=
  (exists profile id, after = recordSuccess url profile id results)
  \/ (exists error, after = recordDuplicate url error results)
  \/ (exists error, after = recordFailure url error results).

(** What the loop over [urls] returns and requests: the outcomes of the
    first [visited] URLs, at least one when there is one, and requests
    for these URLs only. *)
Definition loopTrace (urls : list jsstring) (results : BatchResults)
    (r : Res BatchResults) (rs : list Request) : Prop :=
  exists after visited,
    r = Ok after
    /\ (visited <= length urls)%nat
    /\ (urls <> [] -> 0 < visited)%nat
    /\ outcomeUrls after ≡ₚ outcomeUrls results ++ take visited urls
    /\ (counted results -> counted after)
    /\ total (summary after) = total (summary results)
    /\ endTime (summary after) = endTime (summary results)
    /\ Forall (batchRequest urls) rs
    /\ (opened rs <= MAX_RETRIES * visited)%nat
    /\ (sent rs <= visited)%nat.

End WorkerRequests.

(** ** One activity among others *)

(** [p] is the computation [m] of the worker when it runs alone. *)
Definition simulates (host : Background.Host) {A}
    (p : Background.Resumable.Prog A) (m : Background.M A) : Prop :=
  forall w, Background.Resumable.run host p w = m w.

(** The worker whose only activity is [p], taken up at [w]. *)
Definition alone (p : Background.Resumable.Prog Background.StartResponse)
    (w : Background.World) : Background.Resumable.Pool :=
  {| Background.Resumable.shared := (Background.Resumable.advance p w).2;
     Background.Resumable.activities := [(Background.Resumable.advance p w).1] |}.

(** The activity that has ended with the outcome [r]. *)
Definition ended {A} (r : Res A) : Background.Resumable.Prog A :=
  match r with
  | Ok a => Background.Resumable.Return a
  | Throw error => Background.Resumable.Raise error
  end.

(** No start message arrives from the suspension point [t] on. *)
Definition noStartFrom (starts : nat -> list (option (list jsstring))) (t : nat) : Prop :=
  forall t', (t <= t')%nat -> starts t' = [].

(** ** The first element found *)

(** [element] is what the first of [selectors] that finds anything on the
    page finds: no selector before it returns an element. *)
Definition firstFound (doc : Extractor.Document) (selectors : list jsstring)
    (element : Extractor.Element) : Prop :=
  exists before selector after,
    selectors = before ++ selector :: after
    /\ (forall s e, s ∈ before -> Extractor.querySelector doc s <> Ok (Some e))
    /\ Extractor.querySelector doc selector = Ok (Some element).

(** ** Trimmed texts *)

(** The text begins with something that is not white space, or is empty. *)
Definition headKept (s : jsstring) : Prop :=
  match s with
  | c :: _ => isSpace c = false
  | [] => True
  end.

(** ** Sample pages *)

Definition textElement (text : string) : Extractor.Element :=
  Extractor.mkElement (lit text) None (fun _ => None).

(** A page given by the elements each selector matches. *)
Definition pageOf (matches : list (jsstring * list Extractor.Element))
    : Extractor.Document :=
  let lookup selector :=
    match find (fun entry => bool_decide (entry.1 = selector)) matches with
    | Some entry => entry.2
    | None => []
    end in
  {| Extractor.querySelector := fun selector => Ok (head (lookup selector));
     Extractor.querySelectorAll := fun selector => Ok (lookup selector);
     Extractor.isoNow := lit "2024-01-01T00:00:00.000Z" |}.

(** A page on which the given selector makes the host call throw. *)
Definition throwingPage (selector message : jsstring)
    (matches : list (jsstring * list Extractor.Element)) : Extractor.Document :=
  {| Extractor.querySelector := fun s =>
       if bool_decide (s = selector) then Throw message
       else Extractor.querySelector (pageOf matches) s;
     Extractor.querySelectorAll := fun s =>
       if bool_decide (s = selector) then Throw message
       else Extractor.querySelectorAll (pageOf matches) s;
     Extractor.isoNow := lit "2024-01-01T00:00:00.000Z" |}.

Definition adaPage : Extractor.Document :=
  pageOf
    [ (lit "h1.text-heading-xlarge", [textElement "  Ada Lovelace "]);
      (lit ".text-body-medium.break-words", [textElement "Analyst at Engines"]);
      (lit ".text-body-small.inline.t-black--light.break-words",
        [textElement "500+ connections"; textElement "London, England"]);
      (lit ".pv-top-card__connections .t-black--light",
        [textElement "250,000 connections"]);
      (lit "a[href*='followers'] .t-black--light",
        [textElement "500,000 followers"]) ].

(** Only the name can be read. *)
Definition nameOnlyPage : Extractor.Document :=
  pageOf [ (lit ".ph5 h1", [textElement "Grace Hopper"]) ].

Definition emptyPage : Extractor.Document := pageOf [].

(** The query for the experience items throws. *)
Definition brokenPage : Extractor.Document :=
  throwingPage Extractor.experienceSelector (lit "SyntaxError")
    [ (lit "h1.text-heading-xlarge", [textElement "Ada Lovelace"]) ].

Definition blankProfile : Extractor.ProfileData :=
  Extractor.mkProfileData [] [] [] [] 0 0 [] [] [] [] [] [] [] [].

Definition adaProfile : Extractor.ProfileData :=
  match Extractor.extractLinkedInProfileAdvanced adaPage with
  | Extractor.Extracted p => p
  | Extractor.Failed _ => blankProfile
  end.

(** An experience item with a title and a company line. *)
Definition itemElement (title company : string) : Extractor.Element :=
  Extractor.mkElement (lit title ++ lit " " ++ lit company) None
    (fun selector =>
       if bool_decide (selector = lit ".t-bold") then Some (textElement title)
       else if bool_decide (selector = lit ".t-14.t-normal")
            then Some (textElement company)
            else None).

(** A page with a headline, an about text, seven experience items and a
    list of skills in which some are repeated, one is a single letter and
    more than fifteen are listed. *)
Definition resumePage : Extractor.Document :=
  pageOf
    [ (lit "h1.text-heading-xlarge", [textElement "Ada Lovelace"]);
      (lit ".text-body-medium.break-words", [textElement " Analyst at Engines "]);
      (lit ".text-body-small.inline.t-black--light.break-words",
        [textElement "London 1843"; textElement " London, England "]);
      (lit "#about ~ * .inline-show-more-text",
        [textElement " Notes on the analytical engine, with a program. "]);
      (Extractor.experienceSelector,
        [ itemElement "Analyst" "Engines Ltd"; itemElement "" "";
          itemElement "Translator" "Taylor"; itemElement "Author" "Notes";
          itemElement "Tutor" "Home"; itemElement "Sixth" "Late";
          itemElement "Seventh" "Later" ]);
      (Extractor.skillSelector,
        [ textElement "Mathematics"; textElement " Poetry ";
          textElement "Mathematics"; textElement "R"; textElement "Algebra";
          textElement "Poetry"; textElement "Logic"; textElement "Music";
          textElement "French"; textElement "Calculus"; textElement "Geometry";
          textElement "Astronomy"; textElement "Mechanics"; textElement "Writing";
          textElement "Looms"; textElement "Sixteenth"; textElement "Seventeenth" ]) ].

Definition resumeProfile : Extractor.ProfileData :=
  match Extractor.extractLinkedInProfileAdvanced resumePage with
  | Extractor.Extracted p => p
  | Extractor.Failed _ => blankProfile
  end.

(** A page whose first connection element reads "4321 connections". *)
Definition countedPage : Extractor.Document :=
  pageOf
    [ (lit "h1.text-heading-xlarge", [textElement "Ada Lovelace"]);
      (lit "a[href*='/search/results/people/?network=%5B%22F%22%5D'] .t-black--light .t-bold",
        [Extractor.mkElement (Background.decimal 4321 ++ lit " connections") None
           (fun _ => None)]) ].

Definition countedProfile : Extractor.ProfileData :=
  match Extractor.extractLinkedInProfileAdvanced countedPage with
  | Extractor.Extracted p => p
  | Extractor.Failed _ => blankProfile
  end.

(** ** Sample requests *)

(** A stand-in for validator.js in the examples. *)
Definition sampleValidator : Backend.ValidatorJs :=
  {| Backend.isURL := fun s => includes s (lit ".");
     Backend.isLength := fun s lo hi => (lo <=? length s)%nat && (length s <=? hi)%nat;
     Backend.escape := fun s => s |}.

Definition emptyStore : Backend.Store := Backend.mkStore [] 1.

Definition bodyOf (name url : string) (status : option jsstring) : Backend.Request.Body :=
  Backend.Request.mkBody None (Some (lit name)) (Some (lit url)) None None None None None
    None None None None None None None status.

Definition adaBody : Backend.Request.Body :=
  bodyOf "Ada Lovelace" "https://www.linkedin.com/in/ada" None.

(** The same profile with the URL written without its scheme. *)
Definition schemelessBody : Backend.Request.Body :=
  bodyOf "Ada Lovelace" "www.linkedin.com/in/ada" None.

(** A body that carries the primary key with the profile. *)
Definition numberedBody (key : nat) (name url : string) : Backend.Request.Body :=
  Backend.Request.mkBody (Some key) (Some (lit name)) (Some (lit url)) None None None
    None None None None None None None None None None.

Definition blankRow : Backend.Profile :=
  Backend.mkProfile None None None None None None 0 0 None None None None [] [] []
    0 0 [] None.

Definition createdRow (r : Backend.Response) : Backend.Profile :=
  match r with Backend.Created p => p | _ => blankRow end.

(** The table after Ada's profile, then Grace's, have been created. *)
Definition graceBody : Backend.Request.Body :=
  bodyOf "Grace Hopper" "https://www.linkedin.com/in/grace" (Some (lit "partial")).

Definition adaStore : Backend.Store :=
  (Backend.postProfile sampleValidator 7 adaBody emptyStore).2.

Definition twoStore : Backend.Store :=
  (Backend.postProfile sampleValidator 8 graceBody adaStore).2.

(** A batch of three items: Ada's profile twice and an item without
    name, at the times 1, 2 and 3. *)
Definition sampleBatch : list Backend.Request.Body :=
  [ adaBody; adaBody;
    Backend.Request.mkBody None None (Some (lit "https://www.linkedin.com/in/nobody"))
      None None None None None None None None None None None None None ].

Definition batchAnswer : Backend.BatchResponse * Backend.Store :=
  Backend.createBatchProfiles sampleValidator N.of_nat (Some sampleBatch) emptyStore.

Definition completedResults (answer : Backend.BatchResponse) : Backend.BatchResults :=
  match answer with
  | Backend.BatchCompleted _ _ results => results
  | Backend.BatchRejected _ => Backend.noResults
  end.

(** Four requests of one address: three within a second, one later. *)
Definition sampleArrivals : list (jsstring * N) :=
  [ (lit "10.0.0.1", 1000); (lit "10.0.0.1", 1200);
    (lit "10.0.0.1", 1400); (lit "10.0.0.1", 2100) ].


(** ** Sample URL parser *)

(** A stand-in for the URL parser of the browser on texts of the form
    scheme://host/path: the host is what stands between the scheme and
    the first slash after it, the path is the rest. *)
Fixpoint splitAtSlash (text : jsstring) : jsstring * jsstring :=
  match text with
  | [] => ([], [47])
  | c :: rest =>
      if c =? 47 then ([], text)
      else let '(host, path) := splitAtSlash rest in (c :: host, path)
  end.

Definition sampleURL (text : jsstring) : Res Popup.URL :=
  if startsWith (lit "https://") text then
    let '(host, path) := splitAtSlash (drop 8 text) in
    if truthy host then Ok (Popup.mkURL host path) else Throw (lit "Invalid URL")
  else if startsWith (lit "http://") text then
    let '(host, path) := splitAtSlash (drop 7 text) in
    if truthy host then Ok (Popup.mkURL host path) else Throw (lit "Invalid URL")
  else Throw (lit "Invalid URL").

(** A popup with one URL in its queue. *)
Definition oneQueued : Popup.PopupState :=
  (Popup.addUrl sampleURL (lit " linkedin.com/in/ada/ ") (Popup.mkPopupState [] false)).2.

(** ** Sample hosts and worlds *)

Definition profileUrl (user : string) : jsstring :=
  lit "https://www.linkedin.com/in/" ++ lit user.

(** A browser and a backend where everything works: the tab is complete
    at the first poll, the page is [adaPage] and the backend answers 201. *)
Definition sampleHost : Background.Host :=
  {| Background.tabsCreate := fun t _ => Ok (100 + t)%nat;
     Background.tabsGet := fun _ _ => Ok true;
     Background.timeoutFirst := fun _ => false;
     Background.tabsRemove := fun _ _ => Ok tt;
     Background.injectContentScript := fun _ _ => Ok tt;
     Background.executeExtractor := fun _ _ => Ok (Some adaPage);
     Background.postProfile := fun t _ =>
       Ok {| Background.ok := true; Background.status := 201;
             Background.success := true;
             Background.message := lit "Profile created successfully";
             Background.profileId := Ok t |};
     Background.dateNow := fun t => 1000 * N.of_nat t;
     Background.interrupts := fun _ => [] |}.

(** The same, with tabs whose status never becomes 'complete'. *)
Definition neverCompleteHost : Background.Host :=
  {| Background.tabsCreate := Background.tabsCreate sampleHost;
     Background.tabsGet := fun _ _ => Ok false;
     Background.timeoutFirst := Background.timeoutFirst sampleHost;
     Background.tabsRemove := Background.tabsRemove sampleHost;
     Background.injectContentScript := Background.injectContentScript sampleHost;
     Background.executeExtractor := Background.executeExtractor sampleHost;
     Background.postProfile := Background.postProfile sampleHost;
     Background.dateNow := Background.dateNow sampleHost;
     Background.interrupts := Background.interrupts sampleHost |}.

(** The same as [sampleHost], with the page on which the extractor throws. *)
Definition brokenPageHost : Background.Host :=
  {| Background.tabsCreate := Background.tabsCreate sampleHost;
     Background.tabsGet := Background.tabsGet sampleHost;
     Background.timeoutFirst := Background.timeoutFirst sampleHost;
     Background.tabsRemove := Background.tabsRemove sampleHost;
     Background.injectContentScript := Background.injectContentScript sampleHost;
     Background.executeExtractor := fun _ _ => Ok (Some brokenPage);
     Background.postProfile := Background.postProfile sampleHost;
     Background.dateNow := Background.dateNow sampleHost;
     Background.interrupts := Background.interrupts sampleHost |}.

(** The same as [sampleHost], with a backend that holds Ada's profile
    already and answers the POST through the route of the controller. *)
Definition conflictHost : Background.Host :=
  {| Background.tabsCreate := Background.tabsCreate sampleHost;
     Background.tabsGet := Background.tabsGet sampleHost;
     Background.timeoutFirst := Background.timeoutFirst sampleHost;
     Background.tabsRemove := Background.tabsRemove sampleHost;
     Background.injectContentScript := Background.injectContentScript sampleHost;
     Background.executeExtractor := Background.executeExtractor sampleHost;
     Background.postProfile := fun _ _ =>
       Ok (Backend.replyOf (lit "Profile created successfully")
             (Backend.postProfile sampleValidator 9 adaBody adaStore).1);
     Background.dateNow := Background.dateNow sampleHost;
     Background.interrupts := Background.interrupts sampleHost |}.

(** The same as [sampleHost], with a stop request that arrives at the
    first suspension point. *)
Definition stoppingHost : Background.Host :=
  {| Background.tabsCreate := Background.tabsCreate sampleHost;
     Background.tabsGet := Background.tabsGet sampleHost;
     Background.timeoutFirst := Background.timeoutFirst sampleHost;
     Background.tabsRemove := Background.tabsRemove sampleHost;
     Background.injectContentScript := Background.injectContentScript sampleHost;
     Background.executeExtractor := Background.executeExtractor sampleHost;
     Background.postProfile := Background.postProfile sampleHost;
     Background.dateNow := Background.dateNow sampleHost;
     Background.interrupts := fun t =>
       match t with O => [Background.StopRequested] | S _ => [] end |}.

(** The worker as loaded. *)
Definition initialWorld : Background.World :=
  {| Background.ext := Background.initialState; Background.tick := 0;
     Background.events := [] |}.

(** The browser of [sampleHost] for a batch that is stopped and started
    again. The stop request arrives at the second suspension point, while
    the first tab, 100, is loading; it removes that tab, so that the
    status poll for it fails afterwards. *)
Definition restartHost : Background.Host :=
  {| Background.tabsCreate := Background.tabsCreate sampleHost;
     Background.tabsGet := fun _ tab =>
       if bool_decide (tab = 100%nat) then Throw (lit "No tab with id: 100.")
       else Ok true;
     Background.timeoutFirst := Background.timeoutFirst sampleHost;
     Background.tabsRemove := Background.tabsRemove sampleHost;
     Background.injectContentScript := Background.injectContentScript sampleHost;
     Background.executeExtractor := Background.executeExtractor sampleHost;
     Background.postProfile := Background.postProfile sampleHost;
     Background.dateNow := Background.dateNow sampleHost;
     Background.interrupts := fun t =>
       match t with 1%nat => [Background.StopRequested] | _ => [] end |}.

(** The start message that follows the stop request at once, as when the
    button of the popup is clicked twice. *)
Definition restartStarts (t : nat) : list (option (list jsstring)) :=
  match t with
  | 1%nat => [Some [profileUrl "a"; profileUrl "b"; profileUrl "c"]]
  | _ => []
  end.

(** The pending calls of the two activities are answered in turn. *)
Definition restartTurn (t : nat) : nat := (t mod 2)%nat.

(** The worker [n] suspension points after the first start message. *)
Definition restarted (n : nat) : Background.Resumable.Pool :=
  Background.Resumable.steps restartHost restartStarts restartTurn n
    (Background.Resumable.receive restartHost (Background.Resumable.idle initialWorld)
       (Some [profileUrl "a"; profileUrl "b"; profileUrl "c"])).

(** The worker in the middle of a batch, with tab 7 open. *)
Definition busyWorld : Background.World :=
  {| Background.ext :=
       {| Background.isProcessing := true;
          Background.currentBatch := [profileUrl "a"; profileUrl "b"; profileUrl "c"];
          Background.processedCount := 1; Background.successCount := 0;
          Background.errorCount := 0; Background.activeTabs := {[ 7%nat ]};
          Background.processingStartTime := Some 1000 |};
     Background.tick := 5; Background.events := [] |}.

(** A popup with two URLs in its queue, one short of the minimum. *)
Definition shortQueue : Popup.PopupState :=
  Popup.mkPopupState [profileUrl "a"; profileUrl "b"] false.

(** A popup that shows a batch as running and has two URLs in its queue. *)
Definition runningShortQueue : Popup.PopupState :=
  Popup.mkPopupState [profileUrl "a"; profileUrl "b"] true.


(* ===================================================================== *)
(** * Properties *)
(* ===================================================================== *)

(** ** JavaScript strings *)

Example trim_name : trim (lit "  Ada Lovelace ") = lit "Ada Lovelace".
Proof. reflexivity. Qed.

Example count_with_commas :
  option_map countOf (matchNumber (lit "about 1,234 connections")) = Some 1234.
Proof. reflexivity. Qed.

Example count_fallback :
  option_map countOf (matchCount (lit "follower") (lit "12 posts, 1,500+ followers"))
  = Some 1500.
Proof. vm_compute. reflexivity. Qed.

Lemma truthy_nil (s : jsstring) : truthy s = false <-> s = [].
Proof. destruct s; simpl; split; congruence. Qed.

(** ** The extractor *)

Section ExtractorFacts.

Import Extractor.

(** Case analysis on the stages of the [try] block. *)
Ltac stages H :=
  repeat match type of H with
         | context [mbind _ ?m] =>
             let E := fresh "Stage" in
             destruct m eqn:E; simpl in H; [ | discriminate H ]
         end.

Lemma extractBody_fields (doc : Document) (p : ProfileData) :
  extractBody doc = Ok p ->
  extractionStatus p = determineStatus (name p) (bioLine p) (location p)
  /\ exists counts, parseCounts doc = Ok counts
       /\ (connectionCount p, followerCount p) = sanityCheck counts.
Proof.
  unfold extractBody. intros H. stages H.
  injection H as <-. simpl. split; [ reflexivity | ].
  eexists. split; [ reflexivity | ].
  unfold sanityCheck. reflexivity.
Qed.

Example ada_extracted :
  exists p, extractLinkedInProfileAdvanced adaPage = Extracted p
    /\ name p = lit "Ada Lovelace"
    /\ bioLine p = lit "Analyst at Engines"
    /\ location p = lit "London, England"
    /\ connectionCount p = 0
    /\ followerCount p = 500000
    /\ extractionStatus p = lit "success".
Proof. eexists. split; [ vm_compute; reflexivity | ]. vm_compute. repeat split. Qed.

Example status_success : statusOf (extractLinkedInProfileAdvanced adaPage) = lit "success".
Proof. vm_compute. reflexivity. Qed.

Example status_partial :
  statusOf (extractLinkedInProfileAdvanced nameOnlyPage) = lit "partial".
Proof. vm_compute. reflexivity. Qed.

Example status_failed : statusOf (extractLinkedInProfileAdvanced emptyPage) = lit "failed".
Proof. vm_compute. reflexivity. Qed.

(** C1, as stated, fails on the exception path: the record of the [catch]
    block has a name and a bioLine, so the rule gives [success], while its
    status is [failed]. *)
Lemma C1_exception_path_counterexample :
  ~ (forall doc : Document,
       statusOf (extractLinkedInProfileAdvanced doc)
       = specStatus (extractLinkedInProfileAdvanced doc)).
Proof.
  intros H. specialize (H brokenPage). vm_compute in H. discriminate H.
Qed.

(** C1, amended: a record returned by the [try] block has the status the
    rule gives it: [failed] for an empty name, [partial] for a name with
    neither bioLine nor location, [success] otherwise. The record returned
    by the [catch] block is the fixed one, with status [failed] and the
    name 'Extraction Failed'. In both cases a record with an empty name
    has status [failed]. *)
Theorem C1_status_by_path (doc : Document) :
  match extractBody doc with
  | Ok p =>
      extractLinkedInProfileAdvanced doc = Extracted p
      /\ extractionStatus p = specStatus (Extracted p)
  | Throw message =>
      extractLinkedInProfileAdvanced doc = Failed (failureRecord doc message)
      /\ statusOf (extractLinkedInProfileAdvanced doc) = lit "failed"
      /\ nameOf (extractLinkedInProfileAdvanced doc) = lit "Extraction Failed"
  end
  /\ (nameOf (extractLinkedInProfileAdvanced doc) = [] ->
      statusOf (extractLinkedInProfileAdvanced doc) = lit "failed").
Proof.
  unfold extractLinkedInProfileAdvanced.
  destruct (extractBody doc) as [p | message] eqn:Body.
  - apply extractBody_fields in Body as [Status _].
    assert (Rule : extractionStatus p = specStatus (Extracted p)).
    { rewrite Status. unfold determineStatus, specStatus. simpl. reflexivity. }
    split; [ split; [ reflexivity | exact Rule ] | ].
    simpl. intros Empty. rewrite Rule. unfold specStatus. simpl.
    rewrite Empty. reflexivity.
  - split; [ repeat split | ].
    simpl. intros Empty. discriminate Empty.
Qed.

Lemma C1_status_by_path_witness :
  nameOf (extractLinkedInProfileAdvanced emptyPage) = []
  /\ statusOf (extractLinkedInProfileAdvanced emptyPage) = lit "failed".
Proof.
  split.
  - vm_compute. reflexivity.
  - apply (proj2 (C1_status_by_path emptyPage)). vm_compute. reflexivity.
Defined.

(** C6: the counts of a returned record are the parsed counts after the
    sanity check: a connection count above 100,000 is reset to 0, a
    follower count of at most 50,000,000 is kept and one above is reset
    to 0. *)
Theorem C6_count_sanitization (doc : Document) (p : ProfileData) :
  extractLinkedInProfileAdvanced doc = Extracted p ->
  exists counts,
    parseCounts doc = Ok counts
    /\ (connectionCount p, followerCount p) = sanityCheck counts
    /\ (100000 < counts.1 -> connectionCount p = 0)
    /\ (counts.1 <= 100000 -> connectionCount p = counts.1)
    /\ (counts.2 <= 50000000 -> followerCount p = counts.2)
    /\ (50000000 < counts.2 -> followerCount p = 0).
Proof.
  unfold extractLinkedInProfileAdvanced.
  destruct (extractBody doc) as [q | message] eqn:Body; [ | discriminate ].
  intros [= <-].
  apply extractBody_fields in Body as (_ & counts & Parsed & Sane).
  exists counts. split; [ exact Parsed | ]. split; [ exact Sane | ].
  unfold sanityCheck in Sane. injection Sane as -> ->.
  repeat split; intros Bound.
  - apply N.ltb_lt in Bound. rewrite Bound. reflexivity.
  - apply N.ltb_ge in Bound. rewrite Bound. reflexivity.
  - apply N.ltb_ge in Bound. rewrite Bound. reflexivity.
  - apply N.ltb_lt in Bound. rewrite Bound. reflexivity.
Qed.

Lemma C6_count_sanitization_witness :
  parseCounts adaPage = Ok (250000, 500000)
  /\ connectionCount adaProfile = 0
  /\ followerCount adaProfile = 500000.
Proof.
  assert (Run : extractLinkedInProfileAdvanced adaPage = Extracted adaProfile)
    by (vm_compute; reflexivity).
  assert (Parsed : parseCounts adaPage = Ok (250000, 500000))
    by (vm_compute; reflexivity).
  destruct (C6_count_sanitization adaPage adaProfile Run)
    as (counts & Parsed' & _ & High & _ & Kept & _).
  rewrite Parsed in Parsed'. injection Parsed' as <-.
  split; [ exact Parsed | ]. split.
  - apply High. simpl. lia.
  - apply Kept. simpl. lia.
Defined.

Example sanity_250000 : (sanityCheck (250000, 0)).1 = 0.
Proof. reflexivity. Qed.

Example sanity_500000 : (sanityCheck (0, 500000)).2 = 500000.
Proof. reflexivity. Qed.

Example sanity_at_ceiling : sanityCheck (100000, 50000000) = (100000, 50000000).
Proof. reflexivity. Qed.

End ExtractorFacts.

(** ** The backend *)

Section BackendFacts.

Import Backend.

Variable validator : ValidatorJs.


Lemma beforeValidate_id (p : Profile) : id (beforeValidate p) = id p.
Proof.
  unfold beforeValidate. destruct (url p) as [u | ]; [ | reflexivity ].
  destruct (truthy u && negb (startsWith (lit "http") u)); [ | reflexivity ].
  destruct (includes u (lit "linkedin.com/in/")); reflexivity.
Qed.

(** What an accepted [Profile.create] returns and stores. *)
Lemma create_inr (now : N) (v : Values) (s : Store) (p : Profile) (s' : Store) :
  create validator now v s = inr (p, s') ->
  let q := beforeValidate (build v) in
  let key := default (nextId s) (Request.id (body v)) in
  id p = Some key
  /\ url p = url q
  /\ name p = name q
  /\ extractionStatus p
     = (if truthy (extractionStatus q) then extractionStatus q else lit "pending")
  /\ s' = {| rows := rows s ++ [p]; nextId := Nat.max (nextId s) (S key) |}
  /\ existsb (fun r => bool_decide (url r = url q)) (rows s) = false
  /\ (Request.id (body v) <> None ->
      existsb (fun r => bool_decide (id r = Some key)) (rows s) = false).
Proof.
  unfold create. intros H.
  destruct (validate validator (beforeValidate (build v))); [ | discriminate H ].
  simpl in H.
  destruct (existsb _ (rows s)) eqn:Unique; [ discriminate H | ].
  rewrite beforeValidate_id in H. change (id (build v)) with (Request.id (body v)) in H.
  destruct (Request.id (body v)) as [key | ]; cbn [default].
  - destruct (existsb _ (rows s)) eqn:Free in H; [ discriminate H | ].
    injection H as <- <-. simpl. repeat split. intros _. exact Free.
  - injection H as <- <-. simpl. rewrite Nat.max_r by lia. repeat split.
    intros Explicit. destruct (Explicit eq_refl).
Qed.



Lemma statuses_truthy (st : jsstring) : st ∈ statuses -> truthy st = true.
Proof.
  unfold statuses. rewrite !elem_of_cons, elem_of_nil.
  intros [-> | [-> | [-> | [-> | []]]]]; reflexivity.
Qed.






(** *** Resubmission of a URL *)

Lemma find_app_None {A} (f : A -> bool) (l1 l2 : list A) :
  find f l1 = None -> find f (l1 ++ l2) = find f l2.
Proof.
  induction l1 as [ | a l1 IH]; simpl; [ reflexivity | ].
  destruct (f a); [ discriminate | exact IH ].
Qed.

(** The hook leaves a URL that starts with "http" as it is. *)
Lemma beforeValidate_http (p : Profile) (u : jsstring) :
  url p = Some u -> startsWith (lit "http") u = true -> beforeValidate p = p.
Proof.
  unfold beforeValidate. intros -> ->. rewrite andb_false_r. reflexivity.
Qed.

(** When the URL starts with "http", a second submission of a created
    body is answered 409 with the identifier of the record created by the
    first, and changes nothing. *)
Lemma createProfile_resubmitted (now now' : N) (b : Request.Body) (s s1 : Store)
    (p : Profile) (u : jsstring) :
  Request.url b = Some u ->
  startsWith (lit "http") u = true ->
  createProfile validator now b s = (Created p, s1) ->
  createProfile validator now' b s1 = (Conflict (id p) (name p) (url p), s1)
  /\ id p = Some (default (nextId s) (Request.id b))
  /\ url p = Some u
  /\ rows s1 = rows s ++ [p].
Proof.
  intros Url Http. unfold createProfile. rewrite Url. simpl.
  destruct (negb _ || negb _) eqn:Required; [ discriminate | ].
  destruct (findByUrl u s) eqn:Found; [ discriminate | ].
  destruct (create _ _ _ s) as [e | [q s2]] eqn:Create; [ destruct e; discriminate | ].
  intros [= -> ->].
  apply create_inr in Create as (Id & U & _ & _ & -> & _).
  rewrite (beforeValidate_http _ u) in U by (simpl; assumption).
  simpl in U. rewrite Url in U.
  set (counter := Nat.max _ _).
  assert (Again : findByUrl u {| rows := rows s ++ [p]; nextId := counter |} = Some p).
  { unfold findByUrl in *. simpl. rewrite find_app_None by exact Found.
    simpl. rewrite U. rewrite bool_decide_eq_true_2 by reflexivity. reflexivity. }
  rewrite Again. repeat split; assumption.
Qed.

(** The validators do not look at the time stamps. *)
Lemma validate_beforeValidate_times (b : Request.Body) (f c : Z) (st : jsstring)
    (t1 t2 t3 t4 : N) :
  validate validator (beforeValidate (build (mkValues b f c st t1 t2)))
  = validate validator (beforeValidate (build (mkValues b f c st t3 t4))).
Proof.
  unfold beforeValidate. cbn. destruct (Request.url b) as [u | ]; [ | reflexivity ].
  destruct (truthy u && negb (startsWith (lit "http") u)); [ | reflexivity ].
  destruct (includes u (lit "linkedin.com/in/")); reflexivity.
Qed.

Lemma beforeValidate_url_times (b : Request.Body) (f c : Z) (st : jsstring)
    (t1 t2 t3 t4 : N) :
  url (beforeValidate (build (mkValues b f c st t1 t2)))
  = url (beforeValidate (build (mkValues b f c st t3 t4))).
Proof.
  unfold beforeValidate. cbn. destruct (Request.url b) as [u | ]; [ | reflexivity ].
  destruct (truthy u && negb (startsWith (lit "http") u)); [ | reflexivity ].
  destruct (includes u (lit "linkedin.com/in/")); reflexivity.
Qed.

(** A created record keeps the URL the hook gave it: the URL of the body,
    or that URL with "https://" in front when it does not start with
    "http". *)
Lemma create_url (now : N) (v : Values) (s : Store) (p : Profile) (s' : Store)
    (u : jsstring) :
  Request.url (body v) = Some u ->
  create validator now v s = inr (p, s') ->
  url p = Some (if startsWith (lit "http") u then u else lit "https://" ++ u).
Proof.
  intros Url Create.
  pose proof Create as Inserted.
  apply create_inr in Inserted as (_ & -> & _).
  unfold create in Create.
  destruct (validate validator (beforeValidate (build v))) eqn:Valid; [ | discriminate ].
  clear Create. revert Valid. unfold beforeValidate.
  change (url (build v)) with (Request.url (body v)). rewrite Url.
  destruct (startsWith (lit "http") u) eqn:Scheme.
  - rewrite andb_false_r. intros _. exact Url.
  - rewrite andb_true_r. destruct (truthy u) eqn:Truthy.
    + destruct (includes u (lit "linkedin.com/in/")) eqn:Profile; [ reflexivity | ].
      unfold validate. change (url (build v)) with (Request.url (body v)).
      rewrite Url, Profile, andb_false_r.
      intros Valid. apply (f_equal length) in Valid.
      rewrite !length_app in Valid. cbn in Valid. lia.
    + destruct u; [ | discriminate Truthy ].
      unfold validate. change (url (build v)) with (Request.url (body v)).
      rewrite Url. cbn.
      intros Valid. apply (f_equal length) in Valid.
      rewrite !length_app in Valid. cbn in Valid. lia.
Qed.

Lemma https_prefix_differs (u : jsstring) :
  startsWith (lit "http") u = false -> lit "https://" ++ u <> u.
Proof.
  intros NoScheme Eq. rewrite <- Eq in NoScheme. discriminate NoScheme.
Qed.

(** When the URL of a created body does not start with "http", a second
    submission of the body is not recognised as a duplicate: the look-up
    by URL finds nothing, the unique index refuses the insertion and the
    answer is 500. Nothing is stored. *)
Lemma createProfile_resubmitted_schemeless (now now' : N) (b : Request.Body)
    (s s1 : Store) (p : Profile) (u : jsstring) :
  Request.url b = Some u ->
  startsWith (lit "http") u = false ->
  createProfile validator now b s = (Created p, s1) ->
  createProfile validator now' b s1
  = (ServerError (lit "Failed to create profile"), s1)
  /\ url p = Some (lit "https://" ++ u).
Proof.
  intros Url NoScheme. unfold createProfile. rewrite Url. cbn.
  destruct (negb _ || negb _) eqn:Required; [ discriminate | ].
  destruct (findByUrl u s) eqn:Found; [ discriminate | ].
  destruct (create _ now _ s) as [e | [q s2]] eqn:Create; [ destruct e; discriminate | ].
  intros [= -> ->].
  pose proof (fun U => create_url _ _ _ _ _ u U Create) as Stored.
  specialize (Stored Url). rewrite NoScheme in Stored.
  pose proof Create as Inserted.
  apply create_inr in Inserted as (_ & Hooked & _ & _ & -> & _).
  split; [ | exact Stored ].
  set (counter := Nat.max _ _).
  assert (Again : findByUrl u {| rows := rows s ++ [p]; nextId := counter |} = None).
  { unfold findByUrl in *. cbn. rewrite find_app_None by exact Found. cbn.
    rewrite Stored. rewrite bool_decide_eq_false_2; [ reflexivity | ].
    intros [= Eq]. exact (https_prefix_differs u NoScheme Eq). }
  rewrite Again. unfold create in *.
  rewrite (validate_beforeValidate_times b _ _ _ now' now' now now).
  destruct (validate validator _); [ | discriminate Create ].
  cbn. rewrite existsb_app. cbn.
  rewrite (beforeValidate_url_times b _ _ _ now' now' now now), <- Hooked.
  rewrite bool_decide_eq_true_2 by reflexivity.
  rewrite orb_true_r. reflexivity.
Qed.

Lemma create_unique (now : N) (v : Values) (s : Store) (p : Profile) (s' : Store) :
  create validator now v s = inr (p, s') -> uniqueUrls s -> uniqueUrls s'.
Proof.
  intros H Unique. apply create_inr in H as (_ & U & _ & _ & -> & Fresh & _).
  unfold uniqueUrls in *. simpl. rewrite map_app. simpl.
  apply NoDup_app. split; [ exact Unique | ]. split; [ | apply NoDup_singleton ].
  intros x In ->%list_elem_of_singleton.
  apply list_elem_of_fmap in In as (r & Eq & In).
  assert (existsb (fun r => bool_decide (url r = url (beforeValidate (build v)))) (rows s) = true)
    as Clash.
  { apply existsb_exists. exists r. split; [ apply list_elem_of_In; exact In | ].
    apply bool_decide_eq_true_2. congruence. }
  congruence.
Qed.

Lemma createProfile_unique (now : N) (b : Request.Body) (s : Store) :
  uniqueUrls s -> uniqueUrls (createProfile validator now b s).2.
Proof.
  intros Unique. unfold createProfile.
  destruct (negb _ || negb _); [ exact Unique | ].
  destruct (findByUrl _ s); [ exact Unique | ].
  destruct (create _ _ _ s) as [e | [q s1]] eqn:Create; [ exact Unique | ].
  simpl. exact (create_unique _ _ _ _ _ Create Unique).
Qed.

Lemma postProfile_unique (now : N) (b : Request.Body) (s : Store) :
  uniqueUrls s -> uniqueUrls (postProfile validator now b s).2.
Proof.
  intros Unique. unfold postProfile.
  destruct (validationErrors validator b); [ | exact Unique ].
  apply createProfile_unique. exact Unique.
Qed.

Lemma postApiProfiles_unique (now : N) (b : Request.Body) (s : Store) :
  uniqueUrls s -> uniqueUrls (postApiProfiles validator now b s).2.
Proof.
  intros Unique. unfold postApiProfiles.
  destruct (negb _ || negb _); [ exact Unique | ].
  destruct (negb (includes _ _)); [ exact Unique | ].
  destruct (findByUrl _ s); [ exact Unique | ].
  destruct (create _ _ _ s) as [e | [q s1]] eqn:Create; [ exact Unique | ].
  simpl. exact (create_unique _ _ _ _ _ Create Unique).
Qed.

End BackendFacts.


Example resubmission_with_scheme :
  let first := Backend.postProfile sampleValidator 1 adaBody emptyStore in
  let second := Backend.postProfile sampleValidator 2 adaBody first.2 in
  Backend.statusCode first.1 = 201%nat
  /\ second.1 = Backend.Conflict (Some 1%nat) (Some (lit "Ada Lovelace"))
                  (Some (lit "https://www.linkedin.com/in/ada"))
  /\ second.2 = first.2.
Proof. vm_compute. repeat split. Qed.

(** C5 at a URL written without its scheme: the first submission is
    answered 201 and stored under the URL with "https://" put in front by
    the [beforeValidate] hook; the second submission of the same body is
    not found by [findByUrl], is refused by the unique index and is
    answered 500 instead of 409. The table keeps its single record. The
    same happens in each of the handlers. *)
Theorem C5_schemeless_resubmission :
  let observed (handler : N -> Backend.Request.Body -> Backend.Store ->
                          Backend.Response * Backend.Store) :=
    let first := handler 1 schemelessBody emptyStore in
    let second := handler 2 schemelessBody first.2 in
    Backend.statusCode first.1 = 201%nat
    /\ Backend.statusCode second.1 = 500%nat
    /\ map Backend.url (Backend.rows first.2)
       = [Some (lit "https://www.linkedin.com/in/ada")]
    /\ second.2 = first.2 in
  observed (Backend.postProfile sampleValidator)
  /\ observed (Backend.createProfile sampleValidator)
  /\ observed (Backend.postApiProfiles sampleValidator).
Proof. vm_compute. repeat split. Qed.

(** ** The service worker *)

Section WorkerFacts.

Import Background.

Variable host : Host.

(** *** The tracked tabs along a run *)

Lemma stable_idle : stable idle.
Proof.
  split; unfold idle.
  - intros X Y Sub ->. set_solver.
  - intros X ->. rewrite size_empty. lia.
Qed.

Lemma stable_holding (tab : TabId) : stable (holding tab).
Proof.
  split; unfold holding.
  - intros X Y Sub In. set_solver.
  - intros X Sub. apply subseteq_size in Sub. rewrite size_singleton in Sub. exact Sub.
Qed.

Lemma bounded_nil : bounded [].
Proof. intros s In. apply elem_of_nil in In. destruct In. Qed.

Lemma bounded_app (a b : list Event) : bounded a -> bounded b -> bounded (a ++ b).
Proof. intros Ha Hb s In. apply elem_of_app in In as [In | In]; auto. Qed.

Lemma bounded_one (e : Event) :
  (forall s, e = Tracked s -> (size s <= 1)%nat) -> bounded [e].
Proof. intros He s In. apply list_elem_of_singleton in In. auto. Qed.

Lemma bounded_removals (tabs : list TabId) : bounded (map RemoveCalled tabs).
Proof.
  intros s In. apply list_elem_of_fmap in In as (tab & Eq & _). discriminate Eq.
Qed.

Lemma grows_refl (w : World) : grows w w.
Proof.
  exists []. rewrite app_nil_r. split; [ reflexivity | ].
  split; [ apply bounded_nil | reflexivity ].
Qed.

Lemma grows_trans (w1 w2 w3 : World) : grows w1 w2 -> grows w2 w3 -> grows w1 w3.
Proof.
  intros (new1 & E1 & B1 & T1) (new2 & E2 & B2 & T2).
  exists (new1 ++ new2). rewrite E2, E1, app_assoc. split; [ reflexivity | ].
  split; [ apply bounded_app; assumption | ].
  unfold lastTracked in *. rewrite fold_left_app, <- T1. exact T2.
Qed.

(** An event that is not a value of the tracked set. *)
Lemma grows_event (w : World) (e : Event) (t : nat) :
  (forall s, e <> Tracked s) ->
  grows w {| ext := ext w; tick := t; events := events w ++ [e] |}.
Proof.
  intros Other. exists [e]. split; [ reflexivity | ]. split.
  - apply bounded_one. intros s Eq. destruct (Other s Eq).
  - simpl. destruct e; try reflexivity. destruct (Other tabs eq_refl).
Qed.

(** A new value of the tracked set. *)
Lemma grows_tracked (w : World) (st : ExtensionState) (t : nat) :
  (size (activeTabs st) <= 1)%nat ->
  grows w {| ext := st; tick := t; events := events w ++ [Tracked (activeTabs st)] |}.
Proof.
  intros Small. exists [Tracked (activeTabs st)]. split; [ reflexivity | ]. split.
  - apply bounded_one. intros s [= <-]. exact Small.
  - reflexivity.
Qed.

Lemma grows_tick (w w' : World) (t : nat) :
  grows w w' -> grows w {| ext := ext w'; tick := t; events := events w' |}.
Proof. intros G. exact G. Qed.

(** *** Rules *)

Lemma triple_bind {A B} (P : gset TabId -> Prop) (Q : Res A -> gset TabId -> Prop)
    (R : Res B -> gset TabId -> Prop) (m : M A) (f : A -> M B) :
  triple P m Q ->
  (forall a, triple (Q (Ok a)) (f a) R) ->
  (forall e X, Q (Throw e) X -> R (Throw e) X) ->
  triple P (m ≫= f) R.
Proof.
  intros Hm Hf Hthrow w Pw. unfold mbind, M_bind.
  destruct (Hm w Pw) as [G1 Q1].
  destruct (m w) as [[a | e] w1]; simpl in *.
  - destruct (Hf a w1 Q1) as [G2 R2].
    split; [ exact (grows_trans _ _ _ G1 G2) | exact R2 ].
  - split; [ exact G1 | apply Hthrow; exact Q1 ].
Qed.

Lemma keeps_bind {A B} (J : gset TabId -> Prop) (m : M A) (f : A -> M B) :
  keeps J m -> (forall a, keeps J (f a)) -> keeps J (m ≫= f).
Proof. intros Hm Hf. apply (triple_bind J (fun _ => J)); auto. Qed.

Lemma triple_weaken {A} (P P' : gset TabId -> Prop)
    (Q Q' : Res A -> gset TabId -> Prop) (m : M A) :
  triple P m Q ->
  (forall X, P' X -> P X) ->
  (forall r X, Q r X -> Q' r X) ->
  triple P' m Q'.
Proof.
  intros Hm HP HQ w Pw. destruct (Hm w (HP _ Pw)) as [G Qw]. split; auto.
Qed.

Lemma triple_try {A} (P : gset TabId -> Prop) (Q : Res A -> gset TabId -> Prop)
    (m : M A) :
  triple P m Q ->
  triple P (try m) (fun r X => exists r', r = Ok r' /\ Q r' X).
Proof.
  intros Hm w Pw. unfold try. destruct (Hm w Pw) as [G Qw].
  destruct (m w) as [r w1]. simpl in *. split; [ exact G | eauto ].
Qed.

Lemma keeps_try {A} (J : gset TabId -> Prop) (m : M A) : keeps J m -> keeps J (try m).
Proof.
  intros Hm. eapply triple_weaken; [ apply triple_try, Hm | auto | ].
  intros r X (r' & _ & JX). exact JX.
Qed.

Lemma keeps_mret {A} (J : gset TabId -> Prop) (a : A) : keeps J (mret a).
Proof. intros w Jw. split; [ apply grows_refl | exact Jw ]. Qed.

Lemma keeps_throw {A} (J : gset TabId -> Prop) (e : jsstring) : keeps J (@throw A e).
Proof. intros w Jw. split; [ apply grows_refl | exact Jw ]. Qed.

Lemma keeps_getState (J : gset TabId -> Prop) : keeps J getState.
Proof. intros w Jw. split; [ apply grows_refl | exact Jw ]. Qed.

Lemma keeps_getTick (J : gset TabId -> Prop) : keeps J getTick.
Proof. intros w Jw. split; [ apply grows_refl | exact Jw ]. Qed.

Lemma keeps_emit (J : gset TabId -> Prop) (e : Event) :
  (forall s, e <> Tracked s) -> keeps J (emit e).
Proof.
  intros Other w Jw. split; [ | exact Jw ]. apply grows_event. exact Other.
Qed.

Lemma triple_update (P : gset TabId -> Prop) (Q : Res unit -> gset TabId -> Prop)
    (f : ExtensionState -> ExtensionState) :
  (forall st, P (activeTabs st) ->
     Q (Ok tt) (activeTabs (f st)) /\ (size (activeTabs (f st)) <= 1)%nat) ->
  triple P (update f) Q.
Proof.
  intros Hf w Pw. destruct (Hf _ Pw) as [Qw Small]. split; [ | exact Qw ].
  apply grows_tracked. exact Small.
Qed.

Lemma keeps_update (J : gset TabId -> Prop) (f : ExtensionState -> ExtensionState) :
  stable J ->
  (forall st, activeTabs (f st) ⊆ activeTabs st) ->
  keeps J (update f).
Proof.
  intros St Sub. apply triple_update. intros st Jst.
  assert (J (activeTabs (f st))) by (eapply (stable_down J St); eauto).
  split; [ assumption | apply (stable_small J St); assumption ].
Qed.

(** *** Events delivered at a suspension point *)

Lemma deliver_keeps (J : gset TabId -> Prop) (w : World) (i : Interrupt) :
  stable J -> J (activeTabs (ext w)) ->
  grows w (deliver w i) /\ J (activeTabs (ext (deliver w i))).
Proof.
  intros St Jw. destruct i as [tab | | message | reason]; simpl.
  - unfold onTabRemoved. case_bool_decide; [ | split; [ apply grows_refl | exact Jw ] ].
    assert (J (activeTabs (ext w) ∖ {[tab]}))
      by (eapply (stable_down J St); [ | exact Jw ]; set_solver).
    split; [ | assumption ].
    refine (grows_tracked w (withActiveTabs (ext w) (activeTabs (ext w) ∖ {[tab]}))
              (tick w) _).
    apply (stable_small J St). assumption.
  - assert (J ∅) by (eapply (stable_down J St); [ | exact Jw ]; set_solver).
    split; [ | assumption ].
    eexists. split; [ reflexivity | ]. split.
    + apply bounded_app; [ apply bounded_removals | ].
      apply bounded_one. intros s [= <-]. rewrite size_empty. lia.
    + unfold lastTracked. rewrite fold_left_app. reflexivity.
  - split; [ | exact Jw ]. apply grows_event. discriminate.
  - split; [ | exact Jw ]. apply grows_event. discriminate.
Qed.

Lemma deliver_all_keeps (J : gset TabId -> Prop) (pending : list Interrupt) (w : World) :
  stable J -> J (activeTabs (ext w)) ->
  grows w (fold_left deliver pending w)
  /\ J (activeTabs (ext (fold_left deliver pending w))).
Proof.
  intros St. revert w. induction pending as [ | i pending IH]; intros w Jw; simpl.
  - split; [ apply grows_refl | exact Jw ].
  - destruct (deliver_keeps J w i St Jw) as [G1 J1].
    destruct (IH _ J1) as [G2 J2].
    split; [ exact (grows_trans _ _ _ G1 G2) | exact J2 ].
Qed.

Lemma keeps_await {A} (J : gset TabId -> Prop) (call : nat -> Res A) :
  stable J -> keeps J (await host call).
Proof.
  intros St w Jw. unfold await. simpl.
  exact (deliver_all_keeps J _ w St Jw).
Qed.

(** *** Computations that return *)

Lemma returns_keeps {A} (J : gset TabId -> Prop) (m : M A) : returns J m -> keeps J m.
Proof.
  intros Hm. eapply triple_weaken; [ exact Hm | auto | ]. intros r X [_ JX]. exact JX.
Qed.

Lemma triple_seq {A B} (P Q : gset TabId -> Prop) (R : Res B -> gset TabId -> Prop)
    (m : M A) (f : A -> M B) :
  triple P m (fun r X => (exists a, r = Ok a) /\ Q X) ->
  (forall a, triple Q (f a) R) ->
  triple P (m ≫= f) R.
Proof.
  intros Hm Hf. eapply triple_bind; [ exact Hm | | ].
  - intros a. eapply triple_weaken; [ apply Hf | | auto ]. intros X [_ QX]. exact QX.
  - intros e X [[a Eq] _]. discriminate Eq.
Qed.

Lemma returns_bind {A B} (J : gset TabId -> Prop) (m : M A) (f : A -> M B) :
  returns J m -> (forall a, returns J (f a)) -> returns J (m ≫= f).
Proof. intros Hm Hf. eapply triple_seq; [ exact Hm | exact Hf ]. Qed.

Lemma returns_mret {A} (J : gset TabId -> Prop) (a : A) : returns J (mret a).
Proof. intros w Jw. split; [ apply grows_refl | split; [ eexists; reflexivity | exact Jw ] ]. Qed.

Lemma returns_getState (J : gset TabId -> Prop) : returns J getState.
Proof. intros w Jw. split; [ apply grows_refl | split; [ eexists; reflexivity | exact Jw ] ]. Qed.

Lemma returns_getTick (J : gset TabId -> Prop) : returns J getTick.
Proof. intros w Jw. split; [ apply grows_refl | split; [ eexists; reflexivity | exact Jw ] ]. Qed.

Lemma returns_emit (J : gset TabId -> Prop) (e : Event) :
  (forall s, e <> Tracked s) -> returns J (emit e).
Proof.
  intros Other w Jw.
  destruct (keeps_emit J e Other w Jw) as [G JX].
  split; [ exact G | split; [ eexists; reflexivity | exact JX ] ].
Qed.

Lemma returns_update (J : gset TabId -> Prop) (f : ExtensionState -> ExtensionState) :
  stable J ->
  (forall st, activeTabs (f st) ⊆ activeTabs st) ->
  returns J (update f).
Proof.
  intros St Sub w Jw.
  destruct (keeps_update J f St Sub w Jw) as [G JX].
  split; [ exact G | split; [ eexists; reflexivity | exact JX ] ].
Qed.

Lemma returns_try {A} (J : gset TabId -> Prop) (m : M A) : keeps J m -> returns J (try m).
Proof.
  intros Hm. eapply triple_weaken; [ apply triple_try, Hm | auto | ].
  intros r X (r' & -> & JX). split; [ eexists; reflexivity | exact JX ].
Qed.

Lemma returns_wait (J : gset TabId -> Prop) (ms : N) : stable J -> returns J (wait host ms).
Proof.
  intros St. unfold wait. apply returns_bind; [ apply returns_emit; discriminate | ].
  intros _ w Jw. destruct (keeps_await J (fun _ => Ok tt) St w Jw) as [G JX].
  split; [ exact G | split; [ eexists; reflexivity | exact JX ] ].
Qed.

(** The state read by [getState] is the current one. *)
Lemma triple_getState (P : gset TabId -> Prop) :
  triple P getState (fun r X => exists st, r = Ok st /\ activeTabs st = X /\ P X).
Proof. intros w Pw. split; [ apply grows_refl | ]. exists (ext w). auto. Qed.

(** *** Tab controller *)

Ltac keep :=
  repeat first
    [ assumption
    | apply keeps_mret | apply keeps_throw | apply keeps_getState
    | apply keeps_getTick | apply keeps_try
    | apply keeps_emit; discriminate
    | apply keeps_await; assumption
    | apply returns_keeps, returns_wait; assumption
    | apply keeps_bind; [ | intros ? ]
    | match goal with
      | |- keeps _ (match ?x with _ => _ end) => destruct x
      end ].

Lemma keeps_checkTabStatus (J : gset TabId -> Prop) (remaining : nat) (tab : TabId) :
  stable J -> keeps J (checkTabStatus host remaining tab).
Proof.
  intros St. induction remaining as [ | remaining IH]; cbn [checkTabStatus]; [ keep | ].
  destruct remaining; keep.
Qed.

Lemma keeps_waitForTabComplete (J : gset TabId -> Prop) (tab : TabId) (timeout : N) :
  stable J -> keeps J (waitForTabComplete host tab timeout).
Proof. intros St. apply keeps_checkTabStatus. exact St. Qed.

Lemma keeps_extractProfileFromTab (J : gset TabId -> Prop) (tab : TabId) :
  stable J -> keeps J (extractProfileFromTab host tab).
Proof. intros St. unfold extractProfileFromTab. keep. Qed.

Lemma returns_saveProfileToBackend (J : gset TabId -> Prop) (body : PostedProfile) :
  stable J -> returns J (saveProfileToBackend host body).
Proof.
  intros St. unfold saveProfileToBackend.
  apply returns_bind; [ apply returns_emit; discriminate | intros _ ].
  apply returns_bind; [ apply returns_try, keeps_await, St | intros answer ].
  apply returns_mret.
Qed.

(** [closeTab] returns and leaves the tab untracked. *)
Lemma closeTab_spec (J : gset TabId -> Prop) (tab : TabId) :
  stable J ->
  triple J (closeTab host tab) (fun r X => r = Ok tt /\ J X /\ tab ∉ X).
Proof.
  intros St. unfold closeTab.
  eapply triple_seq; [ apply returns_emit; discriminate | intros _ ].
  eapply triple_seq; [ apply returns_try, keeps_await, St | intros _ ].
  apply triple_update. intros st Jst. simpl.
  assert (J (activeTabs st ∖ {[tab]}))
    by (eapply (stable_down J St); [ | exact Jst ]; set_solver).
  split; [ | apply (stable_small J St); assumption ].
  split; [ reflexivity | ]. split; [ assumption | set_solver ].
Qed.

Lemma holding_without (tab : TabId) (X : gset TabId) : holding tab X -> tab ∉ X -> idle X.
Proof. unfold holding, idle. set_solver. Qed.

(** *** One URL *)

Lemma closeTab_then_return {A} (tab : TabId) (result : A) :
  triple (holding tab) (closeTab host tab;; mret result) (afterAttempt tab).
Proof.
  eapply triple_bind; [ apply closeTab_spec, stable_holding | | ].
  - intros [] w (_ & Hold & Out). split; [ apply grows_refl | ].
    simpl. apply (holding_without tab); assumption.
  - intros e X (Eq & _). discriminate Eq.
Qed.

Lemma submitProfile_spec (url : jsstring) (tab : TabId) (data : Extractor.Extraction) :
  triple (holding tab) (submitProfile host url tab data) (afterAttempt tab).
Proof.
  unfold submitProfile.
  destruct (negb (truthy (Extractor.nameOf data))).
  - apply keeps_throw.
  - eapply triple_seq;
      [ apply returns_saveProfileToBackend, stable_holding | intros saveResult ].
    destruct saveResult; apply closeTab_then_return.
Qed.

Lemma scrapeTab_spec (url : jsstring) (tab : TabId) :
  triple idle (scrapeTab host url tab) (afterAttempt tab).
Proof.
  pose proof (stable_holding tab) as St.
  unfold scrapeTab.
  eapply (triple_seq idle (holding tab)).
  { apply triple_update. intros st Idle. unfold idle in Idle. simpl. rewrite Idle.
    split; [ split; [ eexists; reflexivity | unfold holding; set_solver ] | ].
    rewrite union_empty_l_L, size_singleton. lia. }
  intros _.
  eapply (triple_bind _ (fun _ => holding tab));
    [ apply keeps_waitForTabComplete, St | intros _ | auto ].
  eapply (triple_bind _ (fun _ => holding tab));
    [ apply returns_keeps, returns_wait, St | intros _ | auto ].
  eapply (triple_bind _ (fun _ => holding tab));
    [ apply keeps_extractProfileFromTab, St | intros data | auto ].
  apply submitProfile_spec.
Qed.

Lemma idle_caught (tab : option TabId) (X : gset TabId) : idle X -> caught tab X.
Proof. unfold idle. intros ->. destruct tab; simpl; unfold holding, idle; set_solver. Qed.

Lemma tryBlock_spec (url : jsstring) (tab : option TabId) :
  triple idle (tryBlock host url tab) afterPass.
Proof.
  unfold tryBlock.
  eapply triple_seq; [ apply returns_emit; discriminate | intros _ ].
  eapply triple_seq; [ apply returns_try, keeps_await, stable_idle | intros created ].
  destruct created as [id | error].
  - eapply triple_bind; [ apply triple_try, scrapeTab_spec | | ].
    + intros outcome w (r' & [= <-] & After). split; [ apply grows_refl | ].
      exists (Some id, outcome). split; [ reflexivity | ].
      destruct outcome; exact After.
    + intros e X (r' & Eq & _). discriminate Eq.
  - intros w Idle. split; [ apply grows_refl | ].
    exists (tab, Throw error). split; [ reflexivity | ].
    apply idle_caught. exact Idle.
Qed.

Lemma attemptFailed_spec (url : jsstring) (tab : option TabId) (remaining : nat)
    (message : jsstring) :
  triple (caught tab) (attemptFailed host url tab remaining message)
    (fun r X => (exists a, r = Ok a) /\ idle X).
Proof.
  unfold attemptFailed.
  eapply triple_seq; [ apply returns_emit; discriminate | intros _ ].
  eapply triple_bind; [ apply triple_getState | | ].
  - intros st. eapply (triple_seq _ idle).
    + destruct tab as [id | ]; simpl.
      * case_bool_decide as Tracked.
        -- eapply triple_weaken; [ apply (closeTab_spec _ id), stable_holding | | ].
           ++ intros X (st' & _ & _ & Hold). exact Hold.
           ++ intros r X (-> & Hold & Out). split; [ eexists; reflexivity | ].
              apply (holding_without id); assumption.
        -- intros w (st' & [= <-] & Eq & Hold). split; [ apply grows_refl | ].
           split; [ eexists; reflexivity | ].
           apply (holding_without id); [ exact Hold | ]. simpl. rewrite <- Eq. exact Tracked.
      * intros w (st' & _ & _ & Idle). split; [ apply grows_refl | ].
        split; [ eexists; reflexivity | exact Idle ].
    + intros _. destruct remaining; [ apply returns_mret | apply returns_wait, stable_idle ].
  - intros e X (st & Eq & _). discriminate Eq.
Qed.

Lemma attempts_spec (remaining : nat) (url : jsstring) (tab : option TabId) :
  returns idle (attempts host remaining url tab).
Proof.
  revert tab. induction remaining as [ | remaining IH]; intros tab; simpl.
  - apply returns_mret.
  - eapply triple_bind; [ apply tryBlock_spec | | ].
    + intros [tab' [result | error]]; simpl.
      * intros w (pass & [= <-] & Idle). split; [ apply grows_refl | ].
        split; [ eexists; reflexivity | exact Idle ].
      * eapply triple_seq; [ | intros _; apply IH ].
        eapply triple_weaken; [ apply attemptFailed_spec | | auto ].
        intros X (pass & [= <-] & Caught). exact Caught.
    + intros e X (pass & Eq & _). discriminate Eq.
Qed.

(** A URL starts and ends with no tab tracked, and [processSingleUrl]
    returns whatever the browser and the backend do. *)
Lemma processSingleUrl_spec (url : jsstring) : returns idle (processSingleUrl host url).
Proof. apply attempts_spec. Qed.

(** *** The batch *)

Lemma returns_announce (i total : nat) (url : jsstring) :
  returns idle (announce i total url).
Proof.
  unfold announce. apply returns_bind; [ | intros _; apply returns_emit; discriminate ].
  apply returns_update; [ apply stable_idle | reflexivity ].
Qed.

Lemma returns_count (f : ExtensionState -> ExtensionState) {A} (a : A) :
  (forall st, activeTabs (f st) = activeTabs st) ->
  returns idle (update f;; mret a).
Proof.
  intros Same. apply returns_bind; [ | intros _; apply returns_mret ].
  apply returns_update; [ apply stable_idle | ]. intros st. rewrite Same. reflexivity.
Qed.

Lemma processUrl_spec (i total : nat) (url : jsstring) (results : BatchResults) :
  returns idle (processUrl host i total url results).
Proof.
  unfold processUrl. apply returns_bind.
  - apply returns_try, returns_keeps, returns_bind;
      [ apply returns_announce | intros _; apply processSingleUrl_spec ].
  - intros [[profile id | [ | ] error] | error];
      first [ apply returns_mret | apply returns_count; reflexivity ].
Qed.

Lemma batchLoop_spec (i total : nat) (urls : list jsstring) (results : BatchResults) :
  returns idle (batchLoop host i total urls results).
Proof.
  revert i results. induction urls as [ | url rest IH]; intros i results; simpl.
  - apply returns_mret.
  - apply returns_bind; [ apply processUrl_spec | intros results' ].
    apply returns_bind.
    { destruct (i <? total - 1)%nat; [ apply returns_wait, stable_idle | apply returns_mret ]. }
    intros _. apply returns_bind; [ apply returns_getState | intros st ].
    destruct (negb (isProcessing st)); [ apply returns_mret | apply IH ].
Qed.

Lemma processBatchUrls_spec (urls : list jsstring) :
  returns idle (processBatchUrls host urls).
Proof.
  unfold processBatchUrls.
  apply returns_bind; [ apply returns_getTick | intros now ].
  apply returns_bind; [ apply batchLoop_spec | intros results ].
  apply returns_bind; [ apply returns_getTick | intros now' ].
  apply returns_mret.
Qed.

Lemma returns_updateStatistics (results : BatchResults) :
  returns idle (updateStatistics host results).
Proof.
  unfold updateStatistics. apply returns_bind; [ | intros _; apply returns_mret ].
  apply returns_try, keeps_bind; [ | intros _ ]; apply keeps_await, stable_idle.
Qed.

Lemma returns_reset : returns idle (update resetState).
Proof. apply returns_update; [ apply stable_idle | intros st; simpl; set_solver ]. Qed.

Lemma handleStartBatchProcessing_spec (urls : option (list jsstring)) :
  returns idle (handleStartBatchProcessing host urls).
Proof.
  unfold handleStartBatchProcessing.
  apply returns_bind; [ apply returns_getState | intros st ].
  destruct (isProcessing st); [ apply returns_mret | ].
  destruct urls as [[ | url urls] | ]; [ apply returns_mret | | apply returns_mret ].
  apply returns_bind.
  - apply returns_try, returns_keeps.
    apply returns_bind; [ apply returns_getTick | intros now ].
    apply returns_bind;
      [ apply returns_update; [ apply stable_idle | reflexivity ] | intros _ ].
    apply returns_bind; [ apply processBatchUrls_spec | intros results ].
    apply returns_bind; [ apply returns_updateStatistics | intros _ ].
    apply returns_bind; [ apply returns_reset | intros _ ].
    apply returns_bind; [ apply returns_getTick | intros now' ].
    apply returns_mret.
  - intros [response | error]; [ apply returns_mret | ].
    apply returns_bind; [ apply returns_reset | intros _; apply returns_mret ].
Qed.

(** One batch loop alone: a batch run started with no tab tracked, and
    with no other loop beside it, never tracks more than one tab. Every
    value the tracked set takes during the run has at most one element,
    these values account for the set the run ends with, and that set is
    empty again. The run includes the retries, the tabs the user closes
    meanwhile and a stop request. *)
Theorem one_loop_tracks_one_tab (urls : option (list jsstring)) (w : World) :
  activeTabs (ext w) = ∅ ->
  exists new,
    events (handleStartBatchProcessing host urls w).2 = events w ++ new
    /\ (forall s, Tracked s ∈ new -> (size s <= 1)%nat)
    /\ activeTabs (ext (handleStartBatchProcessing host urls w).2) = lastTracked ∅ new
    /\ activeTabs (ext (handleStartBatchProcessing host urls w).2) = ∅.
Proof.
  intros Idle.
  destruct (handleStartBatchProcessing_spec urls w Idle) as [(new & E & B & T) [_ Idle']].
  exists new. rewrite Idle in T. repeat split; assumption.
Qed.

(** While the flag [isProcessing] is set, a start request is answered with
    the already-running error and changes nothing: neither the state, nor
    the tabs, nor anything an observer sees. *)
Theorem start_rejected_while_flag_set (urls : option (list jsstring)) (w : World) :
  isProcessing (ext w) = true ->
  handleStartBatchProcessing host urls w
  = (Ok (StartRejected (lit "Batch processing already in progress")), w).
Proof.
  intros Running. unfold handleStartBatchProcessing, mbind, M_bind, getState.
  rewrite Running. reflexivity.
Qed.

(** *** Runs of the small pieces *)

Lemma deliver_grows (w : World) (i : Interrupt) :
  exists new, events (deliver w i) = events w ++ new.
Proof.
  destruct i as [tab | | message | reason]; simpl; [ | eexists; reflexivity .. ].
  unfold onTabRemoved. case_bool_decide; [ eexists; reflexivity | ].
  exists []. rewrite app_nil_r. reflexivity.
Qed.

Lemma deliver_all_grows (pending : list Interrupt) (w : World) :
  exists new, events (fold_left deliver pending w) = events w ++ new.
Proof.
  revert w. induction pending as [ | i pending IH]; intros w; simpl.
  - exists []. rewrite app_nil_r. reflexivity.
  - destruct (IH (deliver w i)) as [new2 E2]. destruct (deliver_grows w i) as [new1 E1].
    exists (new1 ++ new2). rewrite E2, E1, app_assoc. reflexivity.
Qed.

Lemma saveProfileToBackend_run (body : PostedProfile) (w : World) :
  exists new w1,
    saveProfileToBackend host body w
    = (Ok (readReply (postProfile host (tick w) body)), w1)
    /\ events w1 = events w ++ Posted body :: new.
Proof.
  unfold saveProfileToBackend, mbind, M_bind, emit, try, await. simpl.
  destruct (deliver_all_grows (interrupts host (tick w))
              {| ext := ext w; tick := tick w; events := events w ++ [Posted body] |})
    as [new E].
  eexists new, _. split; [ reflexivity | ].
  simpl. rewrite E. simpl. rewrite <- app_assoc. reflexivity.
Qed.

Lemma closeTab_run (tab : TabId) (w : World) :
  exists new w1, closeTab host tab w = (Ok tt, w1) /\ events w1 = events w ++ new.
Proof.
  unfold closeTab, mbind, M_bind, emit, try, await, update. simpl.
  destruct (deliver_all_grows (interrupts host (tick w))
              {| ext := ext w; tick := tick w; events := events w ++ [RemoveCalled tab] |})
    as [new E].
  eexists _, _. split; [ reflexivity | ].
  simpl. rewrite E. simpl. rewrite <- !app_assoc. reflexivity.
Qed.



(** *** All attempts fail *)


Example failedAfter_text : failedAfter = lit "Failed after 2 attempts".
Proof. reflexivity. Qed.




(** *** The failure record reaches the backend *)


(** A record with a name is posted, the tab is closed and the answer of
    the backend decides the result. *)
Lemma submitProfile_run (url : jsstring) (tab : TabId) (data : Extractor.Extraction)
    (w : World) :
  truthy (Extractor.nameOf data) = true ->
  exists new w1,
    submitProfile host url tab data w
    = (Ok match readReply (postProfile host (tick w) (mkPostedProfile url data)) with
          | Saved id => UrlSuccess (mkPostedProfile url data) id
          | NotSaved error =>
              UrlFailure (truthy error && includes error (lit "already exists")) error
          end, w1)
    /\ events w1 = events w ++ Posted (mkPostedProfile url data) :: new.
Proof.
  intros Named. unfold submitProfile. rewrite Named. cbn [negb].
  unfold mbind at 1. unfold M_bind at 1.
  destruct (saveProfileToBackend_run (mkPostedProfile url data) w)
    as (new & w1 & -> & Saved1).
  destruct (readReply _) as [id | error];
    unfold mbind, M_bind;
    destruct (closeTab_run tab w1) as (new2 & w2 & -> & Closed);
    exists (new ++ new2), w2; (split; [ reflexivity | ]);
    rewrite Closed, Saved1, <- app_assoc; reflexivity.
Qed.

(** *** The first attempt, step by step *)

Lemma deliver_all_tick (pending : list Interrupt) (w : World) :
  tick (fold_left deliver pending w) = tick w.
Proof.
  revert w. induction pending as [ | i pending IH]; intros w; [ reflexivity | ].
  simpl. rewrite IH. destruct i; simpl; [ | reflexivity .. ].
  unfold onTabRemoved. case_bool_decide; reflexivity.
Qed.

Lemma await_run {A} (call : nat -> Res A) (w : World) :
  exists new w1,
    await host call w = (call (tick w), w1)
    /\ tick w1 = S (tick w) /\ events w1 = events w ++ new.
Proof.
  unfold await. destruct (deliver_all_grows (interrupts host (tick w)) w) as [new E].
  eexists new, _. split; [ reflexivity | ]. simpl.
  rewrite deliver_all_tick. split; [ reflexivity | exact E ].
Qed.

Lemma wait_step (ms : N) (w : World) :
  exists new w1,
    wait host ms w = (Ok tt, w1)
    /\ tick w1 = S (tick w) /\ events w1 = events w ++ new.
Proof.
  unfold wait, mbind, M_bind, emit.
  match goal with
  | |- context [await host ?call ?w0] =>
      destruct (await_run call w0) as (new & w1 & -> & Tick & Grown)
  end.
  eexists _, w1. split; [ reflexivity | ]. split; [ exact Tick | ].
  rewrite Grown. simpl. rewrite <- app_assoc. reflexivity.
Qed.

(** A tab that is complete at the first poll. *)
Lemma waitForTabComplete_at_once (tab : TabId) (w : World) :
  tabsGet host (tick w) tab = Ok true ->
  timeoutFirst host (tick w) = false ->
  exists new w1,
    waitForTabComplete host tab TAB_TIMEOUT w = (Ok tt, w1)
    /\ tick w1 = S (tick w) /\ events w1 = events w ++ new.
Proof.
  intros Complete NoTimeout. unfold waitForTabComplete.
  change (maxChecks TAB_TIMEOUT) with 90%nat. cbn [checkTabStatus].
  unfold mbind, M_bind, getTick, try.
  destruct (await_run (fun t => tabsGet host t tab) w) as (new & w1 & -> & Tick & Grown).
  rewrite NoTimeout, Complete. eexists new, w1. repeat split; assumption.
Qed.

Lemma extractProfileFromTab_run (tab : TabId) (doc : Extractor.Document) (w : World) :
  executeExtractor host (2 + tick w) tab = Ok (Some doc) ->
  exists new w1,
    extractProfileFromTab host tab w
    = (Ok (Extractor.extractLinkedInProfileAdvanced doc), w1)
    /\ tick w1 = (3 + tick w)%nat /\ events w1 = events w ++ new.
Proof.
  intros Page. unfold extractProfileFromTab.
  unfold mbind at 1. unfold M_bind at 1. unfold try.
  destruct (await_run (fun t => injectContentScript host t tab) w)
    as (new1 & w1 & -> & Tick1 & Grown1).
  unfold mbind at 1. unfold M_bind at 1.
  destruct (wait_step 2000 w1) as (new2 & w2 & -> & Tick2 & Grown2).
  unfold mbind at 1. unfold M_bind at 1.
  destruct (await_run (fun t => executeExtractor host t tab) w2)
    as (new3 & w3 & -> & Tick3 & Grown3).
  cbn [Nat.add] in Page. rewrite Tick2, Tick1, Page.
  eexists (new1 ++ new2 ++ new3), w3. split; [ reflexivity | ].
  split; [ lia | ].
  rewrite Grown3, Grown2, Grown1, <- !app_assoc. reflexivity.
Qed.

(** When the first pass through the [try] block reaches a page on which
    the body of the extractor throws, the failure record is posted and the
    pass returns what the answer of the backend makes of it. *)
Lemma tryBlock_posts_failure_record (url : jsstring) (tab : TabId)
    (doc : Extractor.Document) (message : jsstring) (w : World) :
  Extractor.extractBody doc = Throw message ->
  tabsCreate host (tick w) url = Ok tab ->
  tabsGet host (1 + tick w) tab = Ok true ->
  timeoutFirst host (1 + tick w) = false ->
  executeExtractor host (5 + tick w) tab = Ok (Some doc) ->
  exists w',
    tryBlock host url None w
    = (Ok (Some tab,
           Ok match readReply
                      (postProfile host (6 + tick w)
                         (mkPostedProfile url
                            (Extractor.Failed (Extractor.failureRecord doc message)))) with
              | Saved id =>
                  UrlSuccess
                    (mkPostedProfile url
                       (Extractor.Failed (Extractor.failureRecord doc message))) id
              | NotSaved error =>
                  UrlFailure (truthy error && includes error (lit "already exists")) error
              end), w')
    /\ Posted (mkPostedProfile url
                 (Extractor.Failed (Extractor.failureRecord doc message)))
       ∈ events w'.
Proof.
  intros Thrown Created Complete NoTimeout Page.
  cbn [Nat.add] in Complete, NoTimeout, Page.
  unfold tryBlock. unfold mbind at 1 2. unfold M_bind at 1 2. unfold emit, try at 1.
  match goal with
  | |- context [await host ?call ?w0] =>
      destruct (await_run call w0) as (new1 & w1 & -> & Tick1 & Grown1)
  end.
  cbn [tick] in Tick1 |- *. rewrite Created.
  unfold mbind at 1. unfold M_bind at 1. unfold try at 1.
  unfold scrapeTab.
  unfold mbind at 1. unfold M_bind at 1. unfold update.
  set (w2 := {| ext := _; tick := tick w1; events := _ |}).
  assert (Tick2 : tick w2 = S (tick w)) by exact Tick1.
  unfold mbind at 1. unfold M_bind at 1.
  destruct (waitForTabComplete_at_once tab w2) as (new3 & w3 & -> & Tick3 & Grown3);
    [ rewrite Tick2; exact Complete | rewrite Tick2; exact NoTimeout | ].
  unfold mbind at 1. unfold M_bind at 1.
  destruct (wait_step 5000 w3) as (new4 & w4 & -> & Tick4 & Grown4).
  unfold mbind at 1. unfold M_bind at 1.
  destruct (extractProfileFromTab_run tab doc w4) as (new5 & w5 & -> & Tick5 & Grown5).
  { rewrite Tick4, Tick3, Tick2. exact Page. }
  cbn [Nat.add] in Tick5.
  unfold Extractor.extractLinkedInProfileAdvanced. rewrite Thrown.
  destruct (submitProfile_run url tab
              (Extractor.Failed (Extractor.failureRecord doc message)) w5 eq_refl)
    as (new6 & w6 & -> & Grown6).
  assert (Tick : tick w5 = (6 + tick w)%nat)
    by (rewrite Tick5, Tick4, Tick3, Tick2; reflexivity).
  rewrite Tick. exists w6. split; [ reflexivity | ].
  rewrite Grown6. apply elem_of_app. right. apply list_elem_of_here.
Qed.

(** So does [processSingleUrl], which returns a success when the backend
    answers 201. *)
Lemma processSingleUrl_posts_failure_record (url : jsstring) (tab : TabId)
    (doc : Extractor.Document) (message : jsstring) (w : World) :
  Extractor.extractBody doc = Throw message ->
  tabsCreate host (tick w) url = Ok tab ->
  tabsGet host (1 + tick w) tab = Ok true ->
  timeoutFirst host (1 + tick w) = false ->
  executeExtractor host (5 + tick w) tab = Ok (Some doc) ->
  let body :=
    mkPostedProfile url (Extractor.Failed (Extractor.failureRecord doc message)) in
  Posted body ∈ events (processSingleUrl host url w).2
  /\ (forall reply id,
        postProfile host (6 + tick w) body = Ok reply ->
        ok reply = true -> success reply = true -> profileId reply = Ok id ->
        (processSingleUrl host url w).1 = Ok (UrlSuccess body id)).
Proof.
  intros Thrown Created Complete NoTimeout Page body.
  destruct (tryBlock_posts_failure_record url tab doc message w
              Thrown Created Complete NoTimeout Page) as (w' & Pass & In).
  fold body in Pass, In.
  assert (Run : processSingleUrl host url w
                = (Ok match readReply (postProfile host (6 + tick w) body) with
                      | Saved id => UrlSuccess body id
                      | NotSaved error =>
                          UrlFailure (truthy error && includes error (lit "already exists"))
                            error
                      end, w')).
  { unfold processSingleUrl. change MAX_RETRIES with 2%nat. cbn [attempts].
    unfold mbind at 1. unfold M_bind at 1. rewrite Pass. reflexivity. }
  rewrite Run. split; [ exact In | ].
  intros reply id Reply Okay Success Id.
  rewrite Reply. unfold readReply. rewrite Okay, Success, Id. reflexivity.
Qed.

(** C9: when the body of the extractor throws, the record it returns is
    the fixed one: name 'Extraction Failed', bioLine 'Could not extract
    profile data', status 'failed' and the message of the error. Its name
    is not empty, so [processSingleUrl] gets past its no-name guard and
    posts the record; a 201 from the backend then makes the URL a
    success. This holds from the guard on, and for [processSingleUrl] as a
    whole when its first attempt reaches such a page. *)
Theorem C9_failure_record_posted (url : jsstring) (tab : TabId)
    (doc : Extractor.Document) (message : jsstring) (w : World) :
  Extractor.extractBody doc = Throw message ->
  let data := Extractor.extractLinkedInProfileAdvanced doc in
  let body := mkPostedProfile url data in
  data = Extractor.Failed
           (Extractor.mkFailureRecord (lit "Extraction Failed")
              (lit "Could not extract profile data") (lit "failed") message
              (Extractor.isoNow doc))
  /\ truthy (Extractor.nameOf data) = true
  /\ (exists rest,
        events (submitProfile host url tab data w).2 = events w ++ Posted body :: rest)
  /\ (forall reply id,
        postProfile host (tick w) body = Ok reply ->
        ok reply = true -> success reply = true -> profileId reply = Ok id ->
        (submitProfile host url tab data w).1 = Ok (UrlSuccess body id))
  /\ (tabsCreate host (tick w) url = Ok tab ->
      tabsGet host (1 + tick w) tab = Ok true ->
      timeoutFirst host (1 + tick w) = false ->
      executeExtractor host (5 + tick w) tab = Ok (Some doc) ->
      Posted body ∈ events (processSingleUrl host url w).2
      /\ (forall reply id,
            postProfile host (6 + tick w) body = Ok reply ->
            ok reply = true -> success reply = true -> profileId reply = Ok id ->
            (processSingleUrl host url w).1 = Ok (UrlSuccess body id))).
Proof.
  intros Thrown.
  pose proof (processSingleUrl_posts_failure_record url tab doc message w Thrown)
    as Whole.
  unfold Extractor.extractLinkedInProfileAdvanced. rewrite Thrown.
  cbv beta iota zeta. split; [ reflexivity | ]. split; [ reflexivity | ].
  destruct (submitProfile_run url tab
              (Extractor.Failed (Extractor.failureRecord doc message)) w eq_refl)
    as (new & w1 & Run & Grown).
  rewrite Run. split; [ exists new; exact Grown | ]. split; [ | exact Whole ].
  intros reply id Reply Okay Success Id.
  rewrite Reply. unfold readReply. rewrite Okay, Success, Id. reflexivity.
Qed.

(** *** The minimum batch size *)

(** C4, amended: with fewer than three URLs in the queue, the click on the
    process button only shows a warning: no message reaches the worker, no
    tab is opened and nothing changes. The worker itself refuses a start
    request only when the list is missing or empty, again without opening
    a tab. *)
Theorem C4_minimum_enforced_by_popup (p : Popup.PopupState) (w : World) :
  (length (Popup.linkedinUrls p) < Popup.MIN_URLS_REQUIRED)%nat ->
  (exists warning, Popup.processBtnClick p = Popup.ShowWarning warning)
  /\ Popup.click host p w = (Ok None, w)
  /\ (isProcessing (ext w) = false ->
      handleStartBatchProcessing host None w
      = (Ok (StartRejected (lit "No URLs provided for processing")), w)
      /\ handleStartBatchProcessing host (Some []) w
         = (Ok (StartRejected (lit "No URLs provided for processing")), w)).
Proof.
  intros Few. apply Nat.ltb_lt in Few.
  unfold Popup.click, Popup.processBtnClick. rewrite Few.
  split; [ eexists; reflexivity | ]. split; [ reflexivity | ].
  intros Idle. unfold handleStartBatchProcessing, mbind, M_bind, getState.
  rewrite Idle. split; reflexivity.
Qed.

(** *** Errors that nobody catches *)

(** An accepted start request ends with the state reset, whether the
    batch completes or the handler catches an exception. *)
Lemma accepted_batch_ends_reset (url : jsstring) (urls : list jsstring) (w : World) :
  isProcessing (ext w) = false ->
  ext (handleStartBatchProcessing host (Some (url :: urls)) w).2 = initialState.
Proof.
  intros NotRunning. unfold handleStartBatchProcessing.
  unfold mbind at 1. unfold M_bind at 1. unfold getState. rewrite NotRunning.
  unfold mbind at 1. unfold M_bind at 1. unfold try.
  unfold mbind at 1. unfold M_bind at 1. unfold getTick at 1.
  unfold mbind at 1. unfold M_bind at 1. unfold update at 1.
  unfold mbind at 1. unfold M_bind at 1.
  destruct (processBatchUrls host (url :: urls) _) as [[results | error] w1];
    [ | reflexivity ].
  unfold mbind at 1. unfold M_bind at 1.
  destruct (updateStatistics host results w1) as [[[] | error] w2]; reflexivity.
Qed.

(** C8, amended: the listeners for 'error' and 'unhandledrejection' only
    log. The state they leave is the state they found, tracked tabs and
    running flag included, and no tab is closed. The reset of the state is
    what [resetState] does: it is applied on startup, at the end of an
    accepted batch and by the stop request, which closes every tracked tab
    before it. *)
Theorem C8_listeners_only_log (message : jsstring) (w : World) :
  ext (onError message w) = ext w
  /\ ext (onUnhandledRejection message w) = ext w
  /\ events (onError message w) = events w ++ [ErrorLogged message]
  /\ events (onUnhandledRejection message w) = events w ++ [ErrorLogged message]
  /\ resetState (ext w) = initialState
  /\ ext (onStartup w) = initialState
  /\ (forall url urls, isProcessing (ext w) = false ->
      ext (handleStartBatchProcessing host (Some (url :: urls)) w).2 = initialState)
  /\ ext (handleStopBatchProcessing w) = initialState
  /\ (forall tab, tab ∈ activeTabs (ext w) ->
      RemoveCalled tab ∈ events (handleStopBatchProcessing w)).
Proof.
  repeat split.
  - intros url urls NotRunning. apply accepted_batch_ends_reset. exact NotRunning.
  - intros tab In. simpl. apply elem_of_app. right. apply elem_of_app. left.
    apply list_elem_of_fmap. exists tab. split; [ reflexivity | ].
    apply elem_of_elements. exact In.
Qed.

End WorkerFacts.

(** ** Runs on the sample hosts *)

Lemma one_loop_tracks_one_tab_witness :
  Background.activeTabs (Background.ext initialWorld) = ∅
  /\ exists new,
       Background.events
         (Background.handleStartBatchProcessing sampleHost
            (Some [profileUrl "a"; profileUrl "b"; profileUrl "c"]) initialWorld).2
       = Background.events initialWorld ++ new
       /\ (forall s, Background.Tracked s ∈ new -> (size s <= 1)%nat)
       /\ Background.activeTabs
            (Background.ext
               (Background.handleStartBatchProcessing sampleHost
                  (Some [profileUrl "a"; profileUrl "b"; profileUrl "c"])
                  initialWorld).2) = lastTracked ∅ new
       /\ Background.activeTabs
            (Background.ext
               (Background.handleStartBatchProcessing sampleHost
                  (Some [profileUrl "a"; profileUrl "b"; profileUrl "c"])
                  initialWorld).2) = ∅.
Proof.
  split; [ reflexivity | ].
  apply (one_loop_tracks_one_tab sampleHost). reflexivity.
Defined.

Lemma start_rejected_while_flag_set_witness :
  Background.isProcessing (Background.ext busyWorld) = true
  /\ Background.handleStartBatchProcessing sampleHost
       (Some [profileUrl "a"; profileUrl "b"; profileUrl "c"]) busyWorld
     = (Ok (Background.StartRejected (lit "Batch processing already in progress")),
        busyWorld).
Proof.
  split; [ reflexivity | ].
  apply (start_rejected_while_flag_set sampleHost). reflexivity.
Defined.

(** C2: a start request accepted after a stop request, while the loop of
    the stopped batch is still suspended, begins a second loop, and the
    two loops track two tabs at once. A batch of three URLs is started,
    stopped while its first tab loads, and started again: the stop clears
    the flag and the tracked set, the second start is accepted, the new
    loop opens tab 101, and the stopped loop, whose poll for the removed
    tab fails, opens tab 106 for its second attempt. The tracked set is
    then 101 and 106, after three calls of [chrome.tabs.create]. *)
Theorem C2_restart_tracks_two_tabs :
  Background.activeTabs (Background.ext (Background.Resumable.shared (restarted 7)))
  = {[ 101%nat; 106%nat ]}
  /\ size (Background.activeTabs
             (Background.ext (Background.Resumable.shared (restarted 7)))) = 2%nat
  /\ opened (requests (Background.events (Background.Resumable.shared (restarted 7))))
     = 3%nat.
Proof. vm_compute. repeat split. Qed.

(** C7: a start request that follows a stop request is accepted while the
    loop of the stopped batch is still suspended, and two batch loops run
    side by side. After the first start one loop is pending and the flag
    is set; the stop request clears the flag without ending the loop; the
    second start finds the flag cleared, is not rejected, and sets the
    flag again, so that the stopped loop does not leave at its next test
    either: two loops are pending and neither request has been
    answered. *)
Theorem C7_restart_runs_two_loops :
  length (Background.Resumable.pending (restarted 1)) = 1%nat
  /\ Background.isProcessing (Background.ext (Background.Resumable.shared (restarted 1)))
     = true
  /\ length (Background.Resumable.pending (restarted 2)) = 2%nat
  /\ Background.Resumable.responses (restarted 2) = []
  /\ Background.isProcessing (Background.ext (Background.Resumable.shared (restarted 2)))
     = true
  /\ length (Background.Resumable.pending (restarted 7)) = 2%nat.
Proof. vm_compute. repeat split. Qed.

(** Three URLs, all extracted and created. *)
Example batch_of_three :
  exists results time w,
    Background.handleStartBatchProcessing sampleHost
      (Some [profileUrl "a"; profileUrl "b"; profileUrl "c"]) initialWorld
    = (Ok (Background.StartCompleted results time), w)
    /\ Background.total (Background.summary results) = 3%nat
    /\ Background.successes (Background.summary results) = 3%nat
    /\ Background.errors (Background.summary results) = 0%nat
    /\ Background.duplicates (Background.summary results) = 0%nat
    /\ Background.ext w = Background.initialState.
Proof. eexists _, _, _. split; [ vm_compute; reflexivity | ]. vm_compute. repeat split. Qed.

(** One URL whose tab never completes: both attempts time out, the error
    recorded for the URL is the fixed message. *)
Example never_complete_run :
  exists results w,
    Background.processBatchUrls neverCompleteHost [profileUrl "a"] initialWorld
    = (Ok results, w)
    /\ Background.failed results = [(profileUrl "a", lit "Failed after 2 attempts")]
    /\ Background.successful results = []
    /\ Background.skipped results = []
    /\ Background.errors (Background.summary results) = 1%nat
    /\ Background.activeTabs (Background.ext w) = ∅
    /\ omap (fun e => match e with
                      | Background.AttemptFailed _ _ _ | Background.Waited 2000 => Some e
                      | _ => None
                      end) (Background.events w)
       = [ Background.AttemptFailed 1 (profileUrl "a")
             (lit "Tab loading timeout - max checks reached");
           Background.Waited 2000;
           Background.AttemptFailed 2 (profileUrl "a")
             (lit "Tab loading timeout - max checks reached") ].
Proof. eexists _, _. split; [ vm_compute; reflexivity | ]. vm_compute. repeat split. Qed.



(** C4, as stated, fails at the worker: a start request with one URL is
    not refused, and a tab is opened for it. *)
Lemma C4_worker_counterexample :
  ~ ((length [profileUrl "a"] < 3)%nat ->
     (exists error,
        (Background.handleStartBatchProcessing sampleHost (Some [profileUrl "a"])
           initialWorld).1
        = Ok (Background.StartRejected error))
     /\ Background.CreateCalled (profileUrl "a")
        ∉ Background.events
            (Background.handleStartBatchProcessing sampleHost (Some [profileUrl "a"])
               initialWorld).2).
Proof.
  intros Claim.
  destruct Claim as [[error Refused] _]; [ simpl; lia | ].
  vm_compute in Refused. discriminate Refused.
Qed.

Example one_url_opens_a_tab :
  Background.CreateCalled (profileUrl "a")
  ∈ Background.events
      (Background.handleStartBatchProcessing sampleHost (Some [profileUrl "a"])
         initialWorld).2.
Proof.
  vm_compute. repeat first [ apply list_elem_of_here | apply list_elem_of_further ].
Qed.

Lemma C4_minimum_enforced_by_popup_witness :
  (length (Popup.linkedinUrls shortQueue) < Popup.MIN_URLS_REQUIRED)%nat
  /\ Popup.click sampleHost shortQueue initialWorld = (Ok None, initialWorld).
Proof.
  assert (Few : (length (Popup.linkedinUrls shortQueue) < Popup.MIN_URLS_REQUIRED)%nat)
    by (vm_compute; lia).
  split; [ exact Few | ].
  exact (proj1 (proj2 (C4_minimum_enforced_by_popup sampleHost shortQueue initialWorld Few))).
Defined.

(** C8, as stated, fails: after an uncaught error the batch is still
    marked as running and the tab is still tracked. *)
Lemma C8_no_reset_counterexample :
  ~ (forall (i : Background.Interrupt) (w : Background.World),
       i = Background.ErrorEvent (lit "boom")
       \/ i = Background.UnhandledRejection (lit "boom") ->
       Background.isProcessing (Background.ext (Background.deliver w i)) = false
       /\ Background.activeTabs (Background.ext (Background.deliver w i)) = ∅).
Proof.
  intros Claim.
  destruct (Claim (Background.ErrorEvent (lit "boom")) busyWorld (or_introl eq_refl))
    as [Stopped _].
  vm_compute in Stopped. discriminate Stopped.
Qed.

Lemma C9_failure_record_posted_witness :
  Extractor.extractBody brokenPage = Throw (lit "SyntaxError")
  /\ Extractor.nameOf (Extractor.extractLinkedInProfileAdvanced brokenPage)
     = lit "Extraction Failed"
  /\ (Background.submitProfile brokenPageHost (profileUrl "a") 7%nat
        (Extractor.extractLinkedInProfileAdvanced brokenPage) initialWorld).1
     = Ok (Background.UrlSuccess
             (Background.mkPostedProfile (profileUrl "a")
                (Extractor.extractLinkedInProfileAdvanced brokenPage)) 0%nat).
Proof.
  assert (Thrown : Extractor.extractBody brokenPage = Throw (lit "SyntaxError"))
    by (vm_compute; reflexivity).
  destruct (C9_failure_record_posted brokenPageHost (profileUrl "a") 7%nat brokenPage
              (lit "SyntaxError") initialWorld Thrown)
    as (Record & _ & _ & Success & _).
  split; [ exact Thrown | ]. split.
  - rewrite Record. reflexivity.
  - eapply Success; reflexivity.
Defined.

(** The whole batch on the page where the extractor throws: the failure
    record is posted and counted as a success. *)
Example broken_page_counted_as_success :
  exists results time w,
    Background.handleStartBatchProcessing brokenPageHost (Some [profileUrl "a"]) initialWorld
    = (Ok (Background.StartCompleted results time), w)
    /\ Background.successes (Background.summary results) = 1%nat
    /\ Background.errors (Background.summary results) = 0%nat
    /\ Background.Posted
         (Background.mkPostedProfile (profileUrl "a")
            (Extractor.Failed (Extractor.failureRecord brokenPage (lit "SyntaxError"))))
       ∈ Background.events w.
Proof.
  eexists _, _, _. split; [ vm_compute; reflexivity | ].
  split; [ reflexivity | ]. split; [ reflexivity | ].
  vm_compute. repeat first [ apply list_elem_of_here | apply list_elem_of_further ].
Qed.

(* ===================================================================== *)
(** * Further properties *)
(* ===================================================================== *)

(** ** Prefixes, substrings and trimming *)

Section StringFacts.

Lemma startsWith_spec (p s : jsstring) :
  startsWith p s = true <-> exists r, s = p ++ r.
Proof.
  revert s. induction p as [ | a p IH]; intros s.
  - split; [ intros _; exists s; reflexivity | destruct s; reflexivity ].
  - destruct s as [ | b s]; cbn [startsWith].
    + split; [ discriminate | intros [r [=]] ].
    + rewrite andb_true_iff, N.eqb_eq, IH. split.
      * intros [-> [r ->]]. exists r. reflexivity.
      * intros [r [= -> ->]]. split; [ reflexivity | exists r; reflexivity ].
Qed.

Lemma startsWith_app (p r : jsstring) : startsWith p (p ++ r) = true.
Proof. apply startsWith_spec. exists r. reflexivity. Qed.

Lemma includes_spec (s sub : jsstring) :
  includes s sub = true <-> exists pre post, s = pre ++ sub ++ post.
Proof.
  induction s as [ | c s IH]; cbn [includes]; rewrite orb_true_iff, startsWith_spec.
  - split.
    + intros [[r ->] | [=]]. exists [], r. reflexivity.
    + intros (pre & post & Eq). left.
      destruct pre; [ | discriminate Eq ]. exists post. exact Eq.
  - rewrite IH. split.
    + intros [[r ->] | (pre & post & ->)].
      * exists [], r. reflexivity.
      * exists (c :: pre), post. reflexivity.
    + intros (pre & post & Eq). destruct pre as [ | d pre].
      * left. exists post. exact Eq.
      * right. injection Eq as -> ->. exists pre, post. reflexivity.
Qed.

(** A substring of a part is a substring of the whole. *)
Lemma includes_infix (pre s post sub : jsstring) :
  includes s sub = true -> includes (pre ++ s ++ post) sub = true.
Proof.
  rewrite !includes_spec. intros (a & b & ->).
  exists (pre ++ a), (b ++ post). rewrite <- !app_assoc. reflexivity.
Qed.

Lemma trimStart_suffix (s : jsstring) : exists pre, s = pre ++ trimStart s.
Proof.
  induction s as [ | c s [pre IH]]; [ exists []; reflexivity | ].
  cbn [trimStart]. destruct (isSpace c).
  - exists (c :: pre). cbn. rewrite <- IH. reflexivity.
  - exists []. reflexivity.
Qed.

Lemma trimStart_head (s : jsstring) : headKept (trimStart s).
Proof.
  induction s as [ | c s IH]; [ exact I | ].
  cbn [trimStart]. destruct (isSpace c) eqn:Space; [ exact IH | exact Space ].
Qed.

Lemma trimStart_fixed (s : jsstring) : headKept s -> trimStart s = s.
Proof. destruct s as [ | c s]; [ reflexivity | ]. cbn. intros ->. reflexivity. Qed.

Lemma trim_infix (s : jsstring) : exists pre post, s = pre ++ trim s ++ post.
Proof.
  unfold trim, trimEnd.
  destruct (trimStart_suffix s) as [pre Front].
  destruct (trimStart_suffix (rev (trimStart s))) as [back Back].
  exists pre, (rev back).
  rewrite <- rev_app_distr, <- Back, rev_involutive. exact Front.
Qed.

(** Trimming leaves no white space at either end, so that trimming again
    changes nothing. *)
Lemma trim_idempotent (s : jsstring) : trim (trim s) = trim s.
Proof.
  unfold trim, trimEnd.
  set (a := trimStart s). set (b := trimStart (rev a)).
  assert (HeadA : headKept a) by apply trimStart_head.
  assert (HeadB : headKept b) by apply trimStart_head.
  assert (Front : trimStart (rev b) = rev b).
  { apply trimStart_fixed.
    destruct (trimStart_suffix (rev a)) as [q Back]. fold b in Back.
    apply (f_equal (@rev N)) in Back. rewrite rev_involutive, rev_app_distr in Back.
    destruct (rev b) as [ | c r]; [ exact I | ].
    rewrite Back in HeadA. exact HeadA. }
  rewrite Front, rev_involutive. rewrite (trimStart_fixed b HeadB). reflexivity.
Qed.

Lemma trim_excludes (s sub : jsstring) :
  includes s sub = false -> includes (trim s) sub = false.
Proof.
  intros Absent. destruct (includes (trim s) sub) eqn:Present; [ | reflexivity ].
  destruct (trim_infix s) as (pre & post & Eq).
  apply (includes_infix pre _ post) in Present. rewrite <- Eq in Present. congruence.
Qed.

End StringFacts.

(** ** The fields of an extracted record *)

Section ExtractorOutput.

Import Extractor.

Ltac stages H :=
  repeat match type of H with
         | context [mbind _ ?m] =>
             let E := fresh "Stage" in
             destruct m eqn:E; simpl in H; [ | discriminate H ]
         end.

(** What each stage of the [try] block has returned for a record. *)
Lemma extractBody_stages (doc : Document) (p : ProfileData) :
  extractBody doc = Ok p ->
  extractName doc nameSelectors = Ok (name p)
  /\ extractHeadline doc headlineSelectors = Ok (headline p)
  /\ bio p = headline p
  /\ bioLine p = headline p
  /\ extractLocation doc locationSelectors = Ok (location p)
  /\ extractAbout doc (headline p) aboutSelectors = Ok (about p)
  /\ (exists elements, querySelectorAll doc experienceSelector = Ok elements
        /\ experience p = experienceFrom 0 elements)
  /\ (exists elements, querySelectorAll doc skillSelector = Ok elements
        /\ skills p = dedupe [] (skillsFrom 0 elements)).
Proof.
  unfold extractBody. intros H. stages H.
  injection H as <-. simpl. repeat split; eauto.
Qed.

Lemma extracted_body (doc : Document) (p : ProfileData) :
  extractLinkedInProfileAdvanced doc = Extracted p -> extractBody doc = Ok p.
Proof.
  unfold extractLinkedInProfileAdvanced.
  destruct (extractBody doc); [ intros [= ->]; reflexivity | discriminate ].
Qed.

(** *** Skills *)

Lemma dedupe_fresh (seen xs : list jsstring) (x : jsstring) :
  x ∈ dedupe seen xs -> x ∈ xs /\ x ∉ seen.
Proof.
  revert seen. induction xs as [ | y xs IH]; intros seen; cbn [dedupe].
  - intros In. inversion In.
  - case_bool_decide as Seen.
    + intros In. apply IH in In as [In Fresh]. split; [ right; exact In | exact Fresh ].
    + intros [-> | In]%elem_of_cons.
      * split; [ left | exact Seen ].
      * apply IH in In as [In Fresh]. split; [ right; exact In | ].
        intros Old. apply Fresh. right. exact Old.
Qed.

Lemma dedupe_NoDup (seen xs : list jsstring) : NoDup (dedupe seen xs).
Proof.
  revert seen. induction xs as [ | y xs IH]; intros seen; cbn [dedupe].
  - apply NoDup_nil_2.
  - case_bool_decide as Seen; [ apply IH | ].
    apply NoDup_cons_2; [ | apply IH ].
    intros In. apply dedupe_fresh in In as [_ Fresh]. apply Fresh. left.
Qed.

Lemma dedupe_length (seen xs : list jsstring) :
  (length (dedupe seen xs) <= length xs)%nat.
Proof.
  revert seen. induction xs as [ | y xs IH]; intros seen; cbn [dedupe length].
  - lia.
  - case_bool_decide; cbn [length].
    + specialize (IH seen). lia.
    + specialize (IH (y :: seen)). lia.
Qed.

Lemma skillsFrom_length (index : nat) (elements : list Element) :
  (length (skillsFrom index elements) <= 15 - index)%nat.
Proof.
  revert index. induction elements as [ | elem rest IH]; intros index;
    cbn [skillsFrom length]; [ lia | ].
  specialize (IH (S index)).
  destruct (index <? 15)%nat eqn:Early; cbn [andb].
  - apply Nat.ltb_lt in Early.
    destruct (truthy _ && _ && _); cbn [length]; lia.
  - lia.
Qed.

Lemma skillsFrom_kept (index : nat) (elements : list Element) (skill : jsstring) :
  skill ∈ skillsFrom index elements ->
  (2 <= length skill <= 49)%nat /\ trim skill = skill.
Proof.
  revert index. induction elements as [ | elem rest IH]; intros index;
    cbn [skillsFrom].
  - intros In. inversion In.
  - destruct ((index <? 15)%nat && truthy (trim (textContent elem))
              && (length (trim (textContent elem)) <? 50)%nat
              && (1 <? length (trim (textContent elem)))%nat) eqn:Kept.
    + intros [-> | In]%elem_of_cons; [ | exact (IH _ In) ].
      apply andb_prop in Kept as [Kept Long]. apply andb_prop in Kept as [_ Short].
      apply Nat.ltb_lt in Long, Short.
      split; [ lia | apply trim_idempotent ].
    + apply IH.
Qed.

(** X1: the skills of an extracted record are pairwise different, at most
    fifteen, and each is a trimmed text of 2 to 49 code units. *)
Theorem skills_distinct_and_bounded (doc : Document) (p : ProfileData) :
  extractLinkedInProfileAdvanced doc = Extracted p ->
  NoDup (skills p)
  /\ (length (skills p) <= 15)%nat
  /\ (forall skill, skill ∈ skills p ->
        (2 <= length skill <= 49)%nat /\ trim skill = skill).
Proof.
  intros Run. apply extracted_body, extractBody_stages in Run
    as (_ & _ & _ & _ & _ & _ & _ & elements & _ & ->).
  split; [ apply dedupe_NoDup | ]. split.
  - pose proof (dedupe_length [] (skillsFrom 0 elements)).
    pose proof (skillsFrom_length 0 elements). lia.
  - intros skill In. apply dedupe_fresh in In as [In _].
    exact (skillsFrom_kept _ _ _ In).
Qed.

Lemma skills_distinct_and_bounded_witness :
  NoDup (skills resumeProfile)
  /\ (length (skills resumeProfile) <= 15)%nat
  /\ (forall skill, skill ∈ skills resumeProfile ->
        (2 <= length skill <= 49)%nat /\ trim skill = skill).
Proof.
  apply (skills_distinct_and_bounded resumePage). vm_compute. reflexivity.
Defined.

Example resume_skills :
  skills resumeProfile
  = [ lit "Mathematics"; lit "Poetry"; lit "Algebra"; lit "Logic"; lit "Music";
      lit "French"; lit "Calculus"; lit "Geometry"; lit "Astronomy";
      lit "Mechanics"; lit "Writing"; lit "Looms" ].
Proof. vm_compute. reflexivity. Qed.

(** *** Experience *)

Lemma experienceFrom_entries (index : nat) (elements : list Element) (e : ExperienceEntry) :
  e ∈ experienceFrom index elements ->
  (index <= order e < 5)%nat /\ (truthy (title e) || truthy (company e)) = true.
Proof.
  revert index. induction elements as [ | elem rest IH]; intros index;
    cbn [experienceFrom].
  - intros In. inversion In.
  - assert (Later : e ∈ experienceFrom (S index) rest ->
              (index <= order e < 5)%nat
              /\ (truthy (title e) || truthy (company e)) = true).
    { intros In. apply IH in In as [Bound Filled]. split; [ lia | exact Filled ]. }
    destruct (index <? 5)%nat eqn:Early; [ | exact Later ].
    set (title := findTitle elem titleSelectors).
    set (company := findCompany elem title companySelectors).
    destruct (truthy title || truthy company) eqn:Filled; [ | exact Later ].
    intros [-> | In]%elem_of_cons; [ | exact (Later In) ].
    apply Nat.ltb_lt in Early. cbn. split; [ lia | exact Filled ].
Qed.

Lemma experienceFrom_sorted (index : nat) (elements : list Element) :
  StronglySorted lt (map order (experienceFrom index elements)).
Proof.
  revert index. induction elements as [ | elem rest IH]; intros index;
    cbn [experienceFrom]; [ constructor | ].
  destruct (index <? 5)%nat; [ | apply IH ].
  set (title := findTitle elem titleSelectors).
  set (company := findCompany elem title companySelectors).
  destruct (truthy title || truthy company); [ | apply IH ].
  cbn. constructor; [ apply IH | ].
  apply Forall_forall. intros n In.
  apply list_elem_of_fmap in In as (e & -> & In).
  apply experienceFrom_entries in In as [Bound _]. lia.
Qed.

Lemma experienceFrom_length (index : nat) (elements : list Element) :
  (length (experienceFrom index elements) <= 5 - index)%nat.
Proof.
  revert index. induction elements as [ | elem rest IH]; intros index;
    cbn [experienceFrom length]; [ lia | ].
  specialize (IH (S index)).
  destruct (index <? 5)%nat eqn:Early; [ | lia ].
  apply Nat.ltb_lt in Early.
  set (title := findTitle elem titleSelectors).
  set (company := findCompany elem title companySelectors).
  destruct (truthy title || truthy company); cbn [length]; lia.
Qed.

(** X2: an extracted record has at most five experience entries; each
    comes from one of the first five items of the page (its [order] is
    below 5), has a title or a company, and the entries are in the order
    of the page. *)
Theorem experience_first_five (doc : Document) (p : ProfileData) :
  extractLinkedInProfileAdvanced doc = Extracted p ->
  (length (experience p) <= 5)%nat
  /\ StronglySorted lt (map order (experience p))
  /\ (forall e, e ∈ experience p ->
        (order e < 5)%nat /\ (title e <> [] \/ company e <> [])).
Proof.
  intros Run. apply extracted_body, extractBody_stages in Run
    as (_ & _ & _ & _ & _ & _ & (elements & _ & ->) & _).
  split; [ pose proof (experienceFrom_length 0 elements); lia | ].
  split; [ apply experienceFrom_sorted | ].
  intros e In. apply experienceFrom_entries in In as [Bound Filled].
  split; [ lia | ].
  apply orb_prop in Filled as [Filled | Filled]; [ left | right ];
    intros Empty; rewrite Empty in Filled; discriminate Filled.
Qed.

Lemma experience_first_five_witness :
  (length (experience resumeProfile) <= 5)%nat
  /\ StronglySorted lt (map order (experience resumeProfile))
  /\ (forall e, e ∈ experience resumeProfile ->
        (order e < 5)%nat /\ (title e <> [] \/ company e <> [])).
Proof.
  apply (experience_first_five resumePage). vm_compute. reflexivity.
Defined.

Example resume_experience :
  map order (experience resumeProfile) = [0; 2; 3; 4]%nat.
Proof. vm_compute. reflexivity. Qed.

(** *** Location *)

Lemma firstLocation_spec (elements : list Element) :
  firstLocation elements = []
  \/ (isLocation (firstLocation elements) = true
      /\ trim (firstLocation elements) = firstLocation elements).
Proof.
  induction elements as [ | element rest IH]; cbn [firstLocation]; [ left; reflexivity | ].
  destruct (isLocation (trim (textContent element))) eqn:Kept; [ | exact IH ].
  right. split; [ exact Kept | apply trim_idempotent ].
Qed.

Lemma extractLocation_spec (doc : Document) (selectors : list jsstring) (text : jsstring) :
  extractLocation doc selectors = Ok text ->
  text = [] \/ (isLocation text = true /\ trim text = text).
Proof.
  induction selectors as [ | selector rest IH]; cbn [extractLocation].
  - intros [= <-]. left. reflexivity.
  - destruct (querySelectorAll doc selector) as [elements | ]; [ | discriminate ].
    cbn. destruct (truthy (firstLocation elements)) eqn:Found; [ | exact IH ].
    intros [= <-]. destruct (firstLocation_spec elements) as [Empty | Kept].
    + rewrite Empty in Found. discriminate Found.
    + right. exact Kept.
Qed.

(** X3: the location of an extracted record is empty or a trimmed text
    that passed the whole filter: 3 to 99 code units, no digit, no bullet
    and, in lower case, none of the six keywords. *)
Theorem location_passes_filter (doc : Document) (p : ProfileData) :
  extractLinkedInProfileAdvanced doc = Extracted p ->
  location p = []
  \/ (trim (location p) = location p
      /\ (3 <= length (location p) <= 99)%nat
      /\ hasDigit (location p) = false
      /\ includes (location p) bullet = false
      /\ forall keyword, keyword ∈ locationKeywords ->
           includes (toLowerCase (location p)) keyword = false).
Proof.
  intros Run. apply extracted_body, extractBody_stages in Run
    as (_ & _ & _ & _ & Location & _).
  apply extractLocation_spec in Location as [Empty | [Kept Trimmed]];
    [ left; exact Empty | right ].
  unfold isLocation in Kept.
  repeat (apply andb_prop in Kept as [Kept ?]).
  repeat match goal with
         | H : negb _ = true |- _ => apply negb_true_iff in H
         | H : (_ <? _)%nat = true |- _ => apply Nat.ltb_lt in H
         end.
  split; [ exact Trimmed | ]. split; [ lia | ].
  split; [ assumption | ]. split; [ assumption | ].
  intros keyword In.
  destruct (includes (toLowerCase (location p)) keyword) eqn:Present; [ | reflexivity ].
  assert (existsb (fun keyword => includes (toLowerCase (location p)) keyword)
            locationKeywords = true) as Some.
  { apply existsb_exists. exists keyword.
    split; [ apply list_elem_of_In; exact In | exact Present ]. }
  congruence.
Qed.

Lemma location_passes_filter_witness :
  location resumeProfile = []
  \/ (trim (location resumeProfile) = location resumeProfile
      /\ (3 <= length (location resumeProfile) <= 99)%nat
      /\ hasDigit (location resumeProfile) = false
      /\ includes (location resumeProfile) bullet = false
      /\ forall keyword, keyword ∈ locationKeywords ->
           includes (toLowerCase (location resumeProfile)) keyword = false).
Proof.
  apply (location_passes_filter resumePage). vm_compute. reflexivity.
Defined.

Example resume_location : location resumeProfile = lit "London, England".
Proof. vm_compute. reflexivity. Qed.

(** *** Name, headline and about *)

Lemma extractName_trimmed (doc : Document) (selectors : list jsstring) (text : jsstring) :
  extractName doc selectors = Ok text -> trim text = text.
Proof.
  induction selectors as [ | selector rest IH]; cbn [extractName].
  - intros [= <-]. reflexivity.
  - destruct (querySelector doc selector) as [[e | ] | ]; cbn; [ | exact IH | discriminate ].
    destruct (truthy (trim (textContent e))); [ | exact IH ].
    intros [= <-]. apply trim_idempotent.
Qed.

Lemma extractHeadline_spec (doc : Document) (selectors : list jsstring) (text : jsstring) :
  extractHeadline doc selectors = Ok text ->
  trim text = text /\ includes text bullet = false.
Proof.
  induction selectors as [ | selector rest IH]; cbn [extractHeadline].
  - intros [= <-]. split; reflexivity.
  - destruct (querySelector doc selector) as [[e | ] | ]; cbn; [ | exact IH | discriminate ].
    destruct (truthy (trim (textContent e)) && negb (includes (textContent e) bullet))
      eqn:Kept; [ | exact IH ].
    intros [= <-]. apply andb_prop in Kept as [_ Plain%negb_true_iff].
    split; [ apply trim_idempotent | apply trim_excludes; exact Plain ].
Qed.

Lemma extractAbout_spec (doc : Document) (bioLine : jsstring) (selectors : list jsstring)
    (text : jsstring) :
  extractAbout doc bioLine selectors = Ok text ->
  text = [] \/ ((length bioLine < length text)%nat /\ trim text = text).
Proof.
  induction selectors as [ | selector rest IH]; cbn [extractAbout].
  - intros [= <-]. left. reflexivity.
  - destruct (querySelector doc selector) as [[e | ] | ]; cbn [mbind res_bind];
      [ | exact IH | discriminate ].
    destruct (length bioLine <? length (trim (textContent e)))%nat eqn:Longer;
      [ | exact IH ].
    intros [= <-]. apply Nat.ltb_lt in Longer. right.
    split; [ exact Longer | apply trim_idempotent ].
Qed.

(** X4: in an extracted record [bio], [bioLine] and [headline] are one
    text; it has no white space at either end and contains no bullet, and
    the name has no white space at either end. *)
Theorem headline_plain_and_shared (doc : Document) (p : ProfileData) :
  extractLinkedInProfileAdvanced doc = Extracted p ->
  bio p = headline p
  /\ bioLine p = headline p
  /\ trim (headline p) = headline p
  /\ includes (headline p) bullet = false
  /\ trim (name p) = name p.
Proof.
  intros Run. apply extracted_body, extractBody_stages in Run
    as (Name & Headline & Bio & BioLine & _).
  apply extractHeadline_spec in Headline as [Trimmed Plain].
  apply extractName_trimmed in Name.
  repeat split; assumption.
Qed.

Lemma headline_plain_and_shared_witness :
  bio resumeProfile = headline resumeProfile
  /\ bioLine resumeProfile = headline resumeProfile
  /\ trim (headline resumeProfile) = headline resumeProfile
  /\ includes (headline resumeProfile) bullet = false
  /\ trim (name resumeProfile) = name resumeProfile.
Proof.
  apply (headline_plain_and_shared resumePage). vm_compute. reflexivity.
Defined.

(** X5: the about text of an extracted record is empty or a trimmed text
    strictly longer than the headline: a text no longer than the headline
    is never taken for the about section. *)
Theorem about_longer_than_headline (doc : Document) (p : ProfileData) :
  extractLinkedInProfileAdvanced doc = Extracted p ->
  about p = []
  \/ ((length (bioLine p) < length (about p))%nat /\ trim (about p) = about p).
Proof.
  intros Run. apply extracted_body, extractBody_stages in Run
    as (_ & _ & _ & BioLine & _ & About & _).
  rewrite BioLine. exact (extractAbout_spec _ _ _ _ About).
Qed.

Lemma about_longer_than_headline_witness :
  about resumeProfile = []
  \/ ((length (bioLine resumeProfile) < length (about resumeProfile))%nat
      /\ trim (about resumeProfile) = about resumeProfile).
Proof.
  apply (about_longer_than_headline resumePage). vm_compute. reflexivity.
Defined.

Example resume_texts :
  headline resumeProfile = lit "Analyst at Engines"
  /\ about resumeProfile = lit "Notes on the analytical engine, with a program.".
Proof. vm_compute. split; reflexivity. Qed.

End ExtractorOutput.

(** ** The table under the POST handlers *)

Section StoreFacts.

Import Backend.

Variable validator : ValidatorJs.

Lemma postHandlers_cases (handler : N -> Request.Body -> Store -> Response * Store) :
  handler ∈ postHandlers validator ->
  handler = createProfile validator \/ handler = postProfile validator
  \/ handler = postApiProfiles validator.
Proof.
  unfold postHandlers. rewrite !elem_of_cons, elem_of_nil. tauto.
Qed.

(** Every answer of a handler is an early answer that leaves the table as
    it is, or the outcome of one call of [Profile.create]. *)
Lemma handler_outcome (handler : N -> Request.Body -> Store -> Response * Store)
    (now : N) (b : Request.Body) (s : Store) :
  handler ∈ postHandlers validator ->
  ((handler now b s).2 = s
   /\ forall p, (handler now b s).1 <> Created p)
  \/ exists v p s',
       create validator now v s = inr (p, s')
       /\ handler now b s = (Created p, s')
       /\ Request.url (body v) = Request.url b
       /\ (Request.id (body v) = None \/ Request.id (body v) = Request.id b).
Proof.
  intros [-> | [-> | ->]]%postHandlers_cases.
  - unfold createProfile.
    destruct (negb _ || negb _); [ left; split; [ reflexivity | discriminate ] | ].
    destruct (findByUrl _ s); [ left; split; [ reflexivity | discriminate ] | ].
    destruct (create _ _ _ s) as [e | [q s1]] eqn:Create.
    + left. split; [ reflexivity | destruct e; discriminate ].
    + right. eexists _, q, s1. split; [ exact Create | ].
      split; [ reflexivity | ]. split; [ reflexivity | right; reflexivity ].
  - unfold postProfile.
    destruct (validationErrors validator b);
      [ | left; split; [ reflexivity | discriminate ] ].
    unfold createProfile.
    destruct (negb _ || negb _); [ left; split; [ reflexivity | discriminate ] | ].
    destruct (findByUrl _ s); [ left; split; [ reflexivity | discriminate ] | ].
    destruct (create _ _ _ s) as [e | [q s1]] eqn:Create.
    + left. split; [ reflexivity | destruct e; discriminate ].
    + right. eexists _, q, s1. split; [ exact Create | ].
      split; [ reflexivity | ]. split; [ reflexivity | right; reflexivity ].
  - unfold postApiProfiles.
    destruct (negb _ || negb _); [ left; split; [ reflexivity | discriminate ] | ].
    destruct (negb (includes _ _)); [ left; split; [ reflexivity | discriminate ] | ].
    destruct (findByUrl _ s); [ left; split; [ reflexivity | discriminate ] | ].
    destruct (create _ _ _ s) as [e | [q s1]] eqn:Create.
    + left. split; [ reflexivity | destruct e; discriminate ].
    + right. eexists _, q, s1. split; [ exact Create | ].
      split; [ reflexivity | ]. split; [ reflexivity | left; reflexivity ].
Qed.

(** X6: a POST handler changes the table only when it answers 201, and
    then by appending the one record of the answer. The identifier of
    that record is the value of the counter, unless the body carries an
    identifier, which [createProfile] passes on to the insertion; the
    counter ends above the identifier. For a body without identifier the
    record gets the value of the counter, which goes up by one. *)
Theorem table_changes_only_on_201
    (handler : N -> Request.Body -> Store -> Response * Store)
    (now : N) (b : Request.Body) (s : Store) :
  handler ∈ postHandlers validator ->
  (statusCode (handler now b s).1 <> 201%nat -> (handler now b s).2 = s)
  /\ (forall p, (handler now b s).1 = Created p ->
        exists key,
          id p = Some key
          /\ (key = nextId s \/ Request.id b = Some key)
          /\ (handler now b s).2
             = {| rows := rows s ++ [p]; nextId := Nat.max (nextId s) (S key) |}
          /\ (Request.id b = None ->
              key = nextId s /\ nextId (handler now b s).2 = S (nextId s))).
Proof.
  intros In. destruct (handler_outcome handler now b s In)
    as [[Same Other] | (v & q & s1 & Create & -> & _ & Passed)].
  - split; [ intros _; exact Same | ].
    intros p Eq. destruct (Other p Eq).
  - cbn. split; [ intros Neq; destruct (Neq eq_refl) | ].
    intros p [= <-]. apply create_inr in Create as (Id & _ & _ & _ & -> & _).
    exists (default (nextId s) (Request.id (body v))).
    split; [ exact Id | ].
    split; [ | split; [ reflexivity | ] ].
    + destruct Passed as [-> | <-]; [ left; reflexivity | ].
      destruct (Request.id (body v)) as [key | ]; [ right | left ]; reflexivity.
    + intros Absent. destruct Passed as [-> | ->]; [ | rewrite Absent ];
        cbn [default nextId]; (split; [ reflexivity | lia ]).
Qed.

(** What the validators of the model guarantee of a record they accept. *)
Lemma validate_accepts (p : Profile) :
  validate validator p = [] ->
  (exists text, name p = Some text /\ notEmpty text = true)
  /\ (exists u, url p = Some u /\ includes u (lit "linkedin.com/in/") = true)
  /\ (0 <= followerCount p)%Z
  /\ (0 <= connectionCount p)%Z
  /\ extractionStatus p ∈ statuses.
Proof.
  unfold validate. intros Valid.
  repeat match type of Valid with
         | _ ++ _ = [] => apply app_eq_nil in Valid as [? Valid]
         end.
  repeat match goal with
         | H : (if ?c then [] else [_]) = [] |- _ =>
             destruct c eqn:?; [ clear H | discriminate H ]
         end.
  split; [ | split; [ | split; [ | split ] ] ].
  - destruct (name p) as [text | ]; [ | discriminate ].
    exists text. split; [ reflexivity | ].
    match goal with H : _ && _ = true |- _ => apply andb_prop in H as [H _]; exact H end.
  - destruct (url p) as [u | ]; [ | discriminate ].
    exists u. split; [ reflexivity | ].
    match goal with H : _ && includes _ _ = true |- _ =>
      apply andb_prop in H as [_ H]; exact H end.
  - match goal with H : (0 <=? followerCount p)%Z && _ = true |- _ =>
      apply andb_prop in H as [H _]; apply Z.leb_le; exact H end.
  - match goal with H : (0 <=? connectionCount p)%Z && _ = true |- _ =>
      apply andb_prop in H as [H _]; apply Z.leb_le; exact H end.
  - match goal with H : bool_decide _ = true |- _ =>
      apply bool_decide_eq_true_1 in H; exact H end.
Qed.

(** The record [Profile.create] stores passes the validators: the hook
    [beforeCreate] and the insertion change nothing they look at. *)
Lemma create_valid (now : N) (v : Values) (s : Store) (p : Profile) (s' : Store) :
  create validator now v s = inr (p, s') -> validate validator p = [].
Proof.
  unfold create.
  destruct (validate validator (beforeValidate (build v))) eqn:Valid; [ | discriminate ].
  cbv beta iota zeta.
  destruct (existsb _ (rows s)); [ discriminate | ].
  intros Stored.
  assert (exists key, p = stored key now (beforeCreate now (beforeValidate (build v))))
    as [key ->].
  { destruct (id _) as [key | ];
      [ destruct (existsb _ (rows s)); [ discriminate Stored | ] | ];
      injection Stored as <- _; eexists; reflexivity. }
  pose proof (validate_accepts _ Valid) as (_ & _ & _ & _ & Status).
  apply statuses_truthy in Status.
  unfold validate in *.
  cbn [id name url about bio location followerCount connectionCount bioLine headline
       industry profilePicture experience education skills extractedAt lastUpdated
       extractionStatus createdAt beforeCreate stored].
  rewrite Status. exact Valid.
Qed.

Lemma create_freshIds (now : N) (v : Values) (s : Store) (p : Profile) (s' : Store) :
  create validator now v s = inr (p, s') -> freshIds s -> freshIds s'.
Proof.
  intros Create [Distinct Below].
  apply create_inr in Create as (Id & _ & _ & _ & -> & _ & Free).
  unfold freshIds. cbn [rows nextId]. split.
  - rewrite map_app. cbn [map]. apply NoDup_app.
    split; [ exact Distinct | ]. split; [ | apply NoDup_singleton ].
    intros key In ->%list_elem_of_singleton.
    apply list_elem_of_fmap in In as (q & Eq & In).
    destruct (Below q In) as (k & Idq & Lt). rewrite Id, Idq in Eq.
    injection Eq as Eq.
    destruct (Request.id (body v)) as [given | ] eqn:Given; cbn [default] in *; [ | lia ].
    specialize (Free ltac:(discriminate)).
    apply not_true_iff_false in Free. apply Free.
    apply existsb_exists. exists q. split; [ apply list_elem_of_In; exact In | ].
    apply bool_decide_eq_true_2. rewrite Idq. f_equal. symmetry. exact Eq.
  - intros q [In | ->%list_elem_of_singleton]%elem_of_app.
    + destruct (Below q In) as (k & Idq & Lt). exists k. split; [ exact Idq | lia ].
    + eexists. split; [ exact Id | lia ].
Qed.

Lemma create_storeOk (now : N) (v : Values) (s : Store) (p : Profile) (s' : Store) :
  create validator now v s = inr (p, s') -> storeOk validator s -> storeOk validator s'.
Proof.
  intros Create (Unique & Fresh & Valid).
  split; [ exact (create_unique _ _ _ _ _ _ Create Unique) | ].
  split; [ exact (create_freshIds _ _ _ _ _ Create Fresh) | ].
  pose proof (create_valid _ _ _ _ _ Create) as Accepted.
  apply create_inr in Create as (_ & _ & _ & _ & -> & _).
  intros q [In | ->%list_elem_of_singleton]%elem_of_app;
    [ exact (Valid q In) | exact Accepted ].
Qed.

Lemma handler_storeOk (handler : N -> Request.Body -> Store -> Response * Store)
    (now : N) (b : Request.Body) (s : Store) :
  handler ∈ postHandlers validator ->
  storeOk validator s -> storeOk validator (handler now b s).2.
Proof.
  intros In Ok.
  destruct (handler_outcome handler now b s In)
    as [[-> _] | (v & q & s1 & Create & -> & _)]; [ exact Ok | ].
  exact (create_storeOk _ _ _ _ _ Create Ok).
Qed.

(** X7: the POST handlers keep the table well formed: no two rows with one
    URL, identifiers all different and below the counter, and every row
    accepted by the validators of the model, so that every stored record
    has a non-blank name, a URL that contains 'linkedin.com/in/',
    non-negative counts and one of the four statuses. *)
Theorem handlers_keep_table_well_formed
    (handler : N -> Request.Body -> Store -> Response * Store)
    (now : N) (b : Request.Body) (s : Store) :
  handler ∈ postHandlers validator ->
  storeOk validator s ->
  storeOk validator (handler now b s).2
  /\ forall p, p ∈ rows (handler now b s).2 ->
       (exists text, name p = Some text /\ notEmpty text = true)
       /\ (exists u, url p = Some u /\ includes u (lit "linkedin.com/in/") = true)
       /\ (0 <= followerCount p)%Z
       /\ (0 <= connectionCount p)%Z
       /\ extractionStatus p ∈ statuses.
Proof.
  intros In Ok.
  pose proof (handler_storeOk handler now b s In Ok) as Kept.
  split; [ exact Kept | ].
  intros p Row. destruct Kept as (_ & _ & Valid).
  exact (validate_accepts p (Valid p Row)).
Qed.

Lemma emptyStore_ok : storeOk validator emptyStore.
Proof.
  split; [ apply NoDup_nil_2 | ]. split; [ split; [ apply NoDup_nil_2 | ] | ].
  - intros p In. inversion In.
  - intros p In. inversion In.
Qed.

(** *** A created record can be read back *)

Lemma find_last {A} (f : A -> bool) (l : list A) (a : A) :
  existsb f l = false -> f a = true -> find f (l ++ [a]) = Some a.
Proof.
  intros None Here. rewrite find_app_None.
  - cbn. rewrite Here. reflexivity.
  - induction l as [ | x l IH]; [ reflexivity | ].
    cbn in *. apply orb_false_elim in None as [-> None]. exact (IH None).
Qed.

(** X8: after a 201 the created record is the one a look-up by its stored
    URL returns and, in a table with fresh identifiers, the one
    [getProfileById] returns for its identifier. *)
Theorem created_record_is_found
    (handler : N -> Request.Body -> Store -> Response * Store)
    (now : N) (b : Request.Body) (s s' : Store) (p : Profile) :
  handler ∈ postHandlers validator ->
  freshIds s ->
  handler now b s = (Created p, s') ->
  exists u key,
    url p = Some u /\ id p = Some key
    /\ findByUrl u s' = Some p
    /\ getProfileById key s' = Retrieved p (isDataComplete p).
Proof.
  intros In [_ Below] Run.
  destruct (handler_outcome handler now b s In)
    as [[_ Other] | (v & q & s1 & Create & Eq & _)].
  - rewrite Run in Other. destruct (Other p eq_refl).
  - rewrite Run in Eq. injection Eq as <- <-.
    pose proof (create_valid _ _ _ _ _ Create) as Valid.
    apply validate_accepts in Valid as (_ & (u & Url & _) & _).
    apply create_inr in Create as (Id & Hooked & _ & _ & -> & Absent & Free).
    eexists u, _. split; [ exact Url | ]. split; [ exact Id | ]. split.
    + unfold findByUrl. cbn [rows]. apply find_last.
      * rewrite <- Hooked in Absent. rewrite <- Absent.
        f_equal. rewrite Url. reflexivity.
      * apply bool_decide_eq_true_2. exact Url.
    + unfold getProfileById, findByPk. cbn [rows]. rewrite find_last; [ reflexivity | | ].
      * destruct (Request.id (body v)) as [given | ] eqn:Given;
          [ apply Free; discriminate | ].
        apply not_true_is_false. intros (r & Row & Same)%existsb_exists.
        apply bool_decide_eq_true_1 in Same. apply list_elem_of_In in Row.
        destruct (Below r Row) as (k & Idr & Lt). rewrite Idr in Same.
        injection Same as Same. cbn [default] in Same. lia.
      * apply bool_decide_eq_true_2. exact Id.
Qed.

(** *** A second submission *)

Lemma postApiProfiles_resubmitted (now now' : N) (b : Request.Body) (s s1 : Store)
    (p : Profile) (u : jsstring) :
  Request.url b = Some u ->
  startsWith (lit "http") u = true ->
  postApiProfiles validator now b s = (Created p, s1) ->
  postApiProfiles validator now' b s1 = (Conflict (id p) (name p) (url p), s1)
  /\ id p = Some (nextId s)
  /\ url p = Some u.
Proof.
  intros Url Http. unfold postApiProfiles. rewrite Url.
  change (default [] (Some u)) with u.
  destruct (negb _ || negb _) eqn:Required; [ discriminate | ].
  destruct (negb (includes u (lit "linkedin.com/in/"))) eqn:Linked; [ discriminate | ].
  destruct (findByUrl u s) eqn:Found; [ discriminate | ].
  destruct (create _ _ _ s) as [e | [q s2]] eqn:Create; [ destruct e; discriminate | ].
  intros [= -> ->].
  apply create_inr in Create as (Id & U & _ & _ & -> & _).
  rewrite (beforeValidate_http _ u) in U by first [ exact Http | reflexivity ].
  cbn in U. cbn [body Request.id default] in *.
  set (counter := Nat.max _ _).
  assert (Again : findByUrl u {| rows := rows s ++ [p]; nextId := counter |} = Some p).
  { unfold findByUrl in *. cbn [rows]. rewrite find_app_None by exact Found.
    cbn. rewrite U. rewrite bool_decide_eq_true_2 by reflexivity. reflexivity. }
  rewrite Again. split; [ reflexivity | ]. split; [ exact Id | exact U ].
Qed.

(** X9: when the URL of the body starts with 'http', a second submission
    of a body that was answered 201 is answered 409 with the identifier,
    the name and the URL of the record created by the first, and leaves
    the table as it is; this holds for each of the three handlers. For a
    body without identifier that identifier is the value the counter
    had. *)
Theorem second_submission_is_a_conflict
    (handler : N -> Request.Body -> Store -> Response * Store)
    (now now' : N) (b : Request.Body) (s s1 : Store) (p : Profile) (u : jsstring) :
  handler ∈ postHandlers validator ->
  Request.url b = Some u ->
  startsWith (lit "http") u = true ->
  handler now b s = (Created p, s1) ->
  handler now' b s1 = (Conflict (id p) (name p) (url p), s1)
  /\ (Request.id b = None -> id p = Some (nextId s)).
Proof.
  intros [-> | [-> | ->]]%postHandlers_cases Url Http Run.
  - destruct (createProfile_resubmitted validator now now' b s s1 p u Url Http Run)
      as (Again & Id & _).
    split; [ exact Again | ]. intros Absent. rewrite Id, Absent. reflexivity.
  - unfold postProfile in *.
    destruct (validationErrors validator b); [ | discriminate Run ].
    destruct (createProfile_resubmitted validator now now' (sanitize validator b)
                s s1 p u Url Http Run) as (Again & Id & _).
    split; [ exact Again | ]. intros Absent. rewrite Id. cbn [sanitize Request.id].
    rewrite Absent. reflexivity.
  - destruct (postApiProfiles_resubmitted now now' b s s1 p u Url Http Run)
      as (Again & Id & _).
    split; [ exact Again | ]. intros _. exact Id.
Qed.

(** *** Deleting a record *)

Lemma filter_all {A} (g : A -> bool) (l : list A) :
  (forall x, x ∈ l -> g x = true) -> List.filter g l = l.
Proof.
  induction l as [ | x l IH]; intros All; [ reflexivity | ].
  cbn. rewrite (All x) by left. f_equal. apply IH.
  intros y In. apply All. right. exact In.
Qed.

(** [destroy] takes the record found by its identifier out of the rows
    and leaves the others in place. *)
Lemma destroy_rows (key : nat) (s : Store) (p : Profile) :
  NoDup (map id (rows s)) ->
  findByPk key s = Some p ->
  id p = Some key
  /\ exists before after,
       rows s = before ++ p :: after
       /\ rows (destroy p s) = before ++ after.
Proof.
  unfold findByPk, destroy. cbn [rows]. intros Distinct Found.
  assert (Id : id p = Some key).
  { apply find_some in Found as [_ Same]. apply bool_decide_eq_true_1 in Same. exact Same. }
  split; [ exact Id | ].
  revert Distinct Found. induction (rows s) as [ | x l IH]; [ discriminate | ].
  cbn [map find List.filter]. intros Distinct. apply NoDup_cons in Distinct as [Fresh Distinct].
  case_bool_decide as Here.
  - intros [= ->]. exists [], l. split; [ reflexivity | ].
    rewrite bool_decide_eq_true_2 by reflexivity. cbn [negb app].
    apply filter_all. intros y In. apply negb_true_iff, bool_decide_eq_false_2.
    intros Same. apply Fresh. rewrite <- Same. apply list_elem_of_fmap.
    exists y. split; [ reflexivity | exact In ].
  - intros Found. destruct (IH Distinct Found) as (before & after & -> & Rest).
    exists (x :: before), after. split; [ reflexivity | ].
    rewrite bool_decide_eq_false_2 by congruence. cbn [negb app].
    rewrite Rest. reflexivity.
Qed.

Lemma find_without {A} (f : A -> bool) (before after : list A) (p : A) :
  f p = false -> find f (before ++ p :: after) = find f (before ++ after).
Proof.
  intros Other. induction before as [ | x before IH]; cbn.
  - rewrite Other. reflexivity.
  - destruct (f x); [ reflexivity | exact IH ].
Qed.

Lemma find_none {A} (f : A -> bool) (l : list A) :
  (forall x, x ∈ l -> f x = false) -> find f l = None.
Proof.
  induction l as [ | x l IH]; intros None; [ reflexivity | ].
  cbn. rewrite (None x) by left. apply IH. intros y In. apply None. right. exact In.
Qed.

(** X10: [deleteProfile] answers 404 and changes nothing when no record
    has the identifier. Otherwise it removes that record and no other,
    the rows that stay keep their order, the record can no longer be read
    by its identifier, every other identifier reads as before, the table
    stays well formed, and no POST handler gives the identifier to the
    record of a later request, unless the request itself carries an
    identifier. *)
Theorem deleted_record_is_gone (key : nat) (s : Store) :
  uniqueUrls s ->
  freshIds s ->
  match findByPk key s with
  | None => deleteProfile key s = (DeleteNotFound (notFoundMessage key), s)
  | Some p =>
      let s' := (deleteProfile key s).2 in
      (deleteProfile key s).1 = Deleted (Some key) (name p) (url p) (createdAt p)
      /\ (exists before after,
            rows s = before ++ p :: after /\ rows s' = before ++ after)
      /\ getProfileById key s' = NotFound (notFoundMessage key)
      /\ (forall other, other <> key -> findByPk other s' = findByPk other s)
      /\ uniqueUrls s' /\ freshIds s'
      /\ forall handler now b q,
           handler ∈ postHandlers validator ->
           Request.id b = None ->
           (handler now b s').1 = Created q -> id q <> Some key
  end.
Proof.
  intros Unique [Distinct Below]. unfold deleteProfile.
  destruct (findByPk key s) as [p | ] eqn:Found; [ | reflexivity ].
  cbn [fst snd].
  destruct (destroy_rows key s p Distinct Found) as (Id & before & after & Rows & Rest).
  assert (Row : p ∈ rows s).
  { rewrite Rows. apply elem_of_app. right. left. }
  assert (Others : forall q, q ∈ before ++ after -> q ∈ rows s /\ id q <> Some key).
  { intros q In. rewrite Rows in Distinct |- *.
    rewrite map_app in Distinct. cbn [map] in Distinct.
    apply NoDup_app in Distinct as (_ & Apart & Tail).
    apply NoDup_cons in Tail as [Fresh _]. rewrite Id in Apart, Fresh.
    apply elem_of_app in In as [In | In].
    - split; [ apply elem_of_app; left; exact In | ].
      intros Same. apply (Apart (Some key)); [ | left ].
      rewrite <- Same. apply list_elem_of_fmap. exists q. split; [ reflexivity | exact In ].
    - split; [ apply elem_of_app; right; right; exact In | ].
      intros Same. apply Fresh. rewrite <- Same.
      apply list_elem_of_fmap. exists q. split; [ reflexivity | exact In ]. }
  split; [ rewrite Id; reflexivity | ].
  split; [ exists before, after; split; assumption | ].
  split; [ | split; [ | split; [ | split ] ] ].
  - unfold getProfileById, findByPk. rewrite Rest, find_none; [ reflexivity | ].
    intros q In. apply bool_decide_eq_false_2. exact (proj2 (Others q In)).
  - intros other Neq. unfold findByPk. rewrite Rest, Rows.
    symmetry. apply find_without. apply bool_decide_eq_false_2.
    rewrite Id. congruence.
  - unfold uniqueUrls in *. rewrite Rest. rewrite Rows in Unique.
    rewrite map_app in *. cbn [map] in Unique.
    apply NoDup_app in Unique as (Front & Apart & Tail).
    apply NoDup_cons in Tail as [_ Tail].
    apply NoDup_app. split; [ exact Front | ]. split; [ | exact Tail ].
    intros x In Back. apply (Apart x In). right. exact Back.
  - split.
    + rewrite Rest. rewrite Rows in Distinct.
      rewrite map_app in *. cbn [map] in Distinct.
      apply NoDup_app in Distinct as (Front & Apart & Tail).
      apply NoDup_cons in Tail as [_ Tail].
      apply NoDup_app. split; [ exact Front | ]. split; [ | exact Tail ].
      intros x In Back. apply (Apart x In). right. exact Back.
    + intros q In. rewrite Rest in In. exact (Below q (proj1 (Others q In))).
  - intros handler now b q In Absent Run.
    destruct (handler_outcome handler now b (destroy p s) In)
      as [[_ Other] | (v & q' & s1 & Create & Eq & _ & Passed)];
      [ destruct (Other q Run) | ].
    rewrite Eq in Run. injection Run as ->.
    apply create_inr in Create as (Idq & _). rewrite Idq.
    assert (Request.id (body v) = None) as -> by (destruct Passed; congruence).
    cbn [default destroy nextId].
    destruct (Below p Row) as (k & Idp & Lt). rewrite Id in Idp.
    injection Idp as <-. intros [= Same]. lia.
Qed.

(** *** A batch of profiles *)

(** One turn of the loop: the item gets one entry, in one of the three
    lists, and at most one row is added, the one of a created entry. *)
Lemma batchItem_spec (now : N) (i : nat) (b : Request.Body) (r : BatchResults) (s : Store) :
  let r' := (batchItem validator now i b r s).1 in
  let s' := (batchItem validator now i b r s).2 in
  answered r' ≡ₚ answered r ++ [i]
  /\ (exists added,
        rows s' = rows s ++ added
        /\ map createdId (created r') = map createdId (created r) ++ map id added
        /\ map createdUrl (created r') = map createdUrl (created r) ++ map url added)
  /\ (storeOk validator s -> storeOk validator s').
Proof.
  unfold batchItem, answered.
  destruct (negb _ || negb _).
  { cbn [fst snd created skipped errors]. rewrite !map_app. cbn [map errorIndex].
    split; [ solve_Permutation | ]. split; [ | tauto ].
    exists []. rewrite !app_nil_r. repeat split. }
  destruct (findByUrl _ s) as [existing | ].
  { cbn [fst snd created skipped errors]. rewrite !map_app. cbn [map skippedIndex].
    split; [ solve_Permutation | ]. split; [ | tauto ].
    exists []. rewrite !app_nil_r. repeat split. }
  destruct (create _ _ _ s) as [e | [p s1]] eqn:Create.
  { cbn [fst snd created skipped errors]. rewrite !map_app. cbn [map errorIndex].
    split; [ solve_Permutation | ]. split; [ | tauto ].
    exists []. rewrite !app_nil_r. repeat split. }
  cbn [fst snd created skipped errors]. rewrite !map_app.
  cbn [map createdIndex createdId createdUrl].
  split; [ solve_Permutation | ]. split.
  - exists [p]. apply create_inr in Create as (_ & _ & _ & _ & -> & _).
    repeat split.
  - exact (create_storeOk _ _ _ _ _ Create).
Qed.

Lemma batchItems_spec (clock : nat -> N) (profiles : list Request.Body) (i : nat)
    (r : BatchResults) (s : Store) :
  let r' := (batchItems validator clock i profiles r s).1 in
  let s' := (batchItems validator clock i profiles r s).2 in
  answered r' ≡ₚ answered r ++ seq i (length profiles)
  /\ (exists added,
        rows s' = rows s ++ added
        /\ map createdId (created r') = map createdId (created r) ++ map id added
        /\ map createdUrl (created r') = map createdUrl (created r) ++ map url added)
  /\ (storeOk validator s -> storeOk validator s').
Proof.
  revert i r s. induction profiles as [ | b rest IH]; intros i r s.
  - cbn. rewrite app_nil_r. split; [ reflexivity | ]. split; [ | tauto ].
    exists []. rewrite !app_nil_r. repeat split.
  - cbn [batchItems length seq].
    pose proof (batchItem_spec (clock i) i b r s) as Step.
    destruct (batchItem validator (clock i) i b r s) as [r1 s1].
    cbn [fst snd] in Step. destruct Step as (Perm1 & (added1 & Rows1 & Ids1 & Urls1) & Ok1).
    specialize (IH (S i) r1 s1). cbv zeta in IH.
    destruct IH as (Perm2 & (added2 & Rows2 & Ids2 & Urls2) & Ok2).
    split; [ rewrite Perm2, Perm1, <- app_assoc; reflexivity | ]. split.
    + exists (added1 ++ added2).
      rewrite Rows2, Rows1, Ids2, Ids1, Urls2, Urls1, !map_app, <- !app_assoc.
      repeat split.
    + intros Ok. exact (Ok2 (Ok1 Ok)).
Qed.

(** An answer after the loop is the outcome of the loop over a list of 1
    to 50 items, from no results. *)
Lemma batch_completed (clock : nat -> N) (profiles : list Request.Body)
    (s s' : Store) (code : nat) (flag : bool) (results : BatchResults) :
  createBatchProfiles validator clock (Some profiles) s
  = (BatchCompleted code flag results, s') ->
  (1 <= length profiles <= 50)%nat
  /\ batchItems validator clock 0 profiles noResults s = (results, s')
  /\ code = (if (length (errors results) =? length profiles)%nat then 400
             else if (length (created results) =? 0)%nat then 409 else 201)%nat
  /\ flag = (0 <? length (created results))%nat.
Proof.
  unfold createBatchProfiles. destruct profiles as [ | b rest]; [ discriminate | ].
  destruct (50 <? length (b :: rest))%nat eqn:Many; [ discriminate | ].
  apply Nat.ltb_ge in Many.
  destruct (batchItems validator clock 0 (b :: rest) noResults s) as [r1 s1].
  intros [= <- <- <- <-].
  split; [ cbn [length] in *; lia | ]. repeat split.
Qed.

(** X11: a batch answered after the loop accounts for every item exactly
    once: the indices of the created, skipped and failed entries together
    are 0 to n-1, so the three lists have n entries in all, with n from 1
    to 50. The rows it adds to the table are the records of the created
    entries, in their order. *)
Theorem batch_answers_every_item (clock : nat -> N) (profiles : list Request.Body)
    (s s' : Store) (code : nat) (flag : bool) (results : BatchResults) :
  createBatchProfiles validator clock (Some profiles) s
  = (BatchCompleted code flag results, s') ->
  answered results ≡ₚ seq 0 (length profiles)
  /\ (length (created results) + length (skipped results) + length (errors results)
      = length profiles)%nat
  /\ (1 <= length profiles <= 50)%nat
  /\ exists added,
       rows s' = rows s ++ added
       /\ map createdId (created results) = map id added
       /\ map createdUrl (created results) = map url added.
Proof.
  intros Run. apply batch_completed in Run as (Size & Loop & _).
  pose proof (batchItems_spec clock profiles 0 noResults s) as Spec.
  rewrite Loop in Spec. cbn [fst snd] in Spec. destruct Spec as (Perm & Added & _).
  change (answered noResults) with (@nil nat) in Perm. cbn [app] in Perm.
  split; [ exact Perm | ]. split.
  - apply Permutation_length in Perm. unfold answered in Perm.
    rewrite !length_app, !length_map, length_seq in Perm. lia.
  - split; [ exact Size | exact Added ].
Qed.

(** X12: whatever the body, [createBatchProfiles] keeps the table well
    formed, and it touches it only when it answers after the loop. The
    answer then has the status 201 exactly when its [success] flag is set,
    that is when some profile was created; 400 exactly when every item
    failed; and 409 when nothing was created but some item was skipped. *)
Theorem batch_keeps_table_well_formed (clock : nat -> N)
    (profiles : option (list Request.Body)) (s : Store) :
  storeOk validator s ->
  let answer := (createBatchProfiles validator clock profiles s).1 in
  let s' := (createBatchProfiles validator clock profiles s).2 in
  storeOk validator s'
  /\ match answer with
     | BatchRejected _ => s' = s
     | BatchCompleted code flag results =>
         (code = 201%nat <-> flag = true)
         /\ (flag = true <-> created results <> [])
         /\ (code = 400%nat <-> created results = [] /\ skipped results = [])
         /\ (code = 409%nat <-> created results = [] /\ skipped results <> [])
     end.
Proof.
  intros Ok. cbv zeta.
  destruct (createBatchProfiles validator clock profiles s) as [answer s'] eqn:Run.
  cbn [fst snd]. destruct answer as [message | code flag results].
  - assert (s' = s) as ->; [ | split; [ exact Ok | reflexivity ] ].
    unfold createBatchProfiles in Run.
    destruct profiles as [[ | b rest] | ]; try (injection Run as _ <-; reflexivity).
    destruct (50 <? length (b :: rest))%nat; [ injection Run as _ <-; reflexivity | ].
    destruct (batchItems validator clock 0 (b :: rest) noResults s); discriminate Run.
  - destruct profiles as [profiles | ]; [ | discriminate Run ].
    apply batch_completed in Run as (Size & Loop & -> & ->).
    pose proof (batchItems_spec clock profiles 0 noResults s) as Spec.
    rewrite Loop in Spec. cbn [fst snd] in Spec. destruct Spec as (Perm & _ & Kept).
    split; [ exact (Kept Ok) | ].
    change (answered noResults) with (@nil nat) in Perm. cbn [app] in Perm.
    apply Permutation_length in Perm. unfold answered in Perm.
    rewrite !length_app, !length_map, length_seq in Perm.
    destruct (created results) as [ | c cs]; destruct (skipped results) as [ | k ks];
      cbn [length] in *.
    + rewrite (proj2 (Nat.eqb_eq _ _)) by lia. cbn.
      repeat split; try discriminate; try congruence; intros []; congruence.
    + rewrite (proj2 (Nat.eqb_neq _ _)) by lia. cbn.
      repeat split; try discriminate; try congruence; intros []; congruence.
    + rewrite (proj2 (Nat.eqb_neq _ _)) by lia. cbn.
      repeat split; try discriminate; try congruence; intros []; congruence.
    + rewrite (proj2 (Nat.eqb_neq _ _)) by lia. cbn.
      repeat split; try discriminate; try congruence; intros []; congruence.
Qed.

(** *** Pages and counts *)

Lemma pages_up_to (limit : nat) (selected : list Profile) (n : nat) :
  concat (map (fun page => (getAllProfiles page limit selected).1) (seq 1 n))
  = take (n * limit) selected.
Proof.
  induction n as [ | n IH]; [ reflexivity | ].
  rewrite seq_S, map_app, concat_app, IH. cbn [map concat Nat.add].
  rewrite app_nil_r. unfold getAllProfiles, findAndCountAll. cbn [fst].
  replace (S n - 1)%nat with n by lia.
  rewrite take_take_drop. f_equal. lia.
Qed.

Lemma more_pages (page limit count : nat) :
  (1 <= limit)%nat ->
  (page < (count + limit - 1) / limit)%nat <-> (page * limit < count)%nat.
Proof.
  intros Pos.
  pose proof (Nat.div_mod_eq (count + limit - 1) limit) as Div.
  pose proof (Nat.mod_upper_bound (count + limit - 1) limit) as Rem.
  set (pages := ((count + limit - 1) / limit)%nat) in *.
  set (rest := ((count + limit - 1) mod limit)%nat) in *.
  specialize (Rem ltac:(lia)). split; intros Lt; nia.
Qed.

(** X13: with a limit of at least 1, the pages 1 to [totalPages] of
    [getAllProfiles], one after the other, are the selected rows, each row
    once and in order. A page has at most [limit] rows; [hasNextPage] is
    set exactly when rows remain after the page, and a page after the last
    one is empty. *)
Theorem pages_partition_the_rows (limit : nat) (selected : list Profile) :
  (1 <= limit)%nat ->
  let pages := totalPages (getAllProfiles 1 limit selected).2 in
  concat (map (fun page => (getAllProfiles page limit selected).1) (seq 1 pages))
  = selected
  /\ forall page, (1 <= page)%nat ->
       let answer := getAllProfiles page limit selected in
       totalPages answer.2 = pages
       /\ totalCount answer.2 = length selected
       /\ (length answer.1 <= limit)%nat
       /\ (hasNextPage answer.2 = true <-> (page * limit < length selected)%nat)
       /\ (hasNextPage answer.2 = false -> drop (page * limit) selected = [])
       /\ (pages < page -> answer.1 = [])%nat.
Proof.
  intros Pos. cbv zeta. split.
  - rewrite pages_up_to. apply take_ge.
    unfold getAllProfiles, findAndCountAll. cbn [snd totalPages].
    pose proof (proj2 (more_pages ((length selected + limit - 1) / limit)
                         limit (length selected) Pos)).
    lia.
  - intros page Page. unfold getAllProfiles, findAndCountAll.
    cbn [fst snd totalPages totalCount hasNextPage].
    split; [ reflexivity | ]. split; [ reflexivity | ].
    split; [ rewrite length_take; lia | ].
    rewrite Nat.ltb_lt, more_pages by exact Pos.
    split; [ reflexivity | ]. split.
    + intros Last. apply drop_ge.
      destruct (page <? (length selected + limit - 1) / limit)%nat eqn:More;
        [ discriminate Last | ].
      apply Nat.ltb_ge in More.
      pose proof (proj2 (more_pages page limit (length selected) Pos)). lia.
    + intros After.
      pose proof (proj2 (more_pages (page - 1) limit (length selected) Pos)).
      rewrite drop_ge; [ apply take_nil | ].
      destruct (Nat.lt_ge_cases ((page - 1) * limit) (length selected)); lia.
Qed.



End StoreFacts.

(** *** The table of the examples *)

Lemma postProfile_is_handler :
  Backend.postProfile sampleValidator ∈ postHandlers sampleValidator.
Proof. unfold postHandlers. apply list_elem_of_further, list_elem_of_here. Qed.

Lemma adaStore_ok : storeOk sampleValidator adaStore.
Proof.
  exact (handler_storeOk sampleValidator _ 7 adaBody emptyStore postProfile_is_handler
           (emptyStore_ok sampleValidator)).
Qed.

Lemma twoStore_ok : storeOk sampleValidator twoStore.
Proof.
  exact (handler_storeOk sampleValidator _ 8 graceBody adaStore postProfile_is_handler
           adaStore_ok).
Qed.

Lemma table_changes_only_on_201_witness :
  (Backend.postProfile sampleValidator 8 adaBody adaStore).2 = adaStore
  /\ Backend.rows adaStore
     = [createdRow (Backend.postProfile sampleValidator 7 adaBody emptyStore).1].
Proof.
  split.
  - refine (proj1 (table_changes_only_on_201 sampleValidator _ 8 adaBody adaStore
                     postProfile_is_handler) _).
    vm_compute. discriminate.
  - destruct (proj2 (table_changes_only_on_201 sampleValidator _ 7 adaBody emptyStore
                       postProfile_is_handler)
                (createdRow (Backend.postProfile sampleValidator 7 adaBody emptyStore).1)
                ltac:(vm_compute; reflexivity)) as (key & _ & _ & Rows & _).
    unfold adaStore. rewrite Rows. reflexivity.
Defined.

Lemma handlers_keep_table_well_formed_witness :
  storeOk sampleValidator adaStore.
Proof.
  exact (proj1 (handlers_keep_table_well_formed sampleValidator _ 7 adaBody emptyStore
                  postProfile_is_handler (emptyStore_ok sampleValidator))).
Defined.

Lemma created_record_is_found_witness :
  exists u key,
    Backend.url (createdRow (Backend.postProfile sampleValidator 8 graceBody adaStore).1)
    = Some u
    /\ Backend.id (createdRow (Backend.postProfile sampleValidator 8 graceBody adaStore).1)
       = Some key
    /\ Backend.findByUrl u twoStore
       = Some (createdRow (Backend.postProfile sampleValidator 8 graceBody adaStore).1)
    /\ Backend.getProfileById key twoStore
       = Backend.Retrieved
           (createdRow (Backend.postProfile sampleValidator 8 graceBody adaStore).1)
           (Backend.isDataComplete
              (createdRow (Backend.postProfile sampleValidator 8 graceBody adaStore).1)).
Proof.
  apply (created_record_is_found sampleValidator _ 8 graceBody adaStore twoStore _
           postProfile_is_handler (proj1 (proj2 adaStore_ok))).
  vm_compute. reflexivity.
Defined.

Lemma second_submission_is_a_conflict_witness :
  Backend.postProfile sampleValidator 9 adaBody adaStore
  = (Backend.Conflict (Some 1%nat) (Some (lit "Ada Lovelace"))
       (Some (lit "https://www.linkedin.com/in/ada")), adaStore).
Proof.
  destruct (second_submission_is_a_conflict sampleValidator _ 7 9 adaBody emptyStore
              adaStore
              (createdRow (Backend.postProfile sampleValidator 7 adaBody emptyStore).1)
              (lit "https://www.linkedin.com/in/ada")
              postProfile_is_handler eq_refl eq_refl
              ltac:(vm_compute; reflexivity)) as [Again _].
  exact Again.
Defined.

Lemma deleted_record_is_gone_witness :
  Backend.getProfileById 1 (Backend.deleteProfile 1 twoStore).2
  = Backend.NotFound (Backend.notFoundMessage 1)
  /\ Backend.findByPk 2 (Backend.deleteProfile 1 twoStore).2
     = Backend.findByPk 2 twoStore
  /\ uniqueUrls (Backend.deleteProfile 1 twoStore).2.
Proof.
  pose proof (deleted_record_is_gone sampleValidator 1 twoStore
                (proj1 twoStore_ok) (proj1 (proj2 twoStore_ok))) as Gone.
  assert (Found : Backend.findByPk 1 twoStore
                  = Some (createdRow
                            (Backend.postProfile sampleValidator 7 adaBody emptyStore).1))
    by (vm_compute; reflexivity).
  rewrite Found in Gone. cbv zeta in Gone.
  destruct Gone as (_ & _ & Read & Others & Unique & _).
  split; [ exact Read | ]. split; [ apply Others; lia | exact Unique ].
Defined.

Example deleted_id_not_reused :
  Backend.id (createdRow (Backend.postProfile sampleValidator 9 adaBody
                            (Backend.deleteProfile 1 twoStore).2).1)
  = Some 3%nat.
Proof. vm_compute. reflexivity. Qed.

(** A body that carries the identifier 1 gets it from [createProfile]
    once the record 1 is deleted, and is refused with 500 while the
    record is there; the handler of the server file does not pass the
    identifier on. *)
Example identifier_of_the_body :
  Backend.id (createdRow
                (Backend.createProfile sampleValidator 9
                   (numberedBody 1 "Ada Lovelace" "https://www.linkedin.com/in/ada")
                   (Backend.deleteProfile 1 twoStore).2).1)
  = Some 1%nat
  /\ Backend.statusCode
       (Backend.createProfile sampleValidator 9
          (numberedBody 1 "Alan Turing" "https://www.linkedin.com/in/alan") twoStore).1
     = 500%nat
  /\ Backend.id (createdRow
                   (Backend.postApiProfiles sampleValidator 9
                      (numberedBody 1 "Ada Lovelace" "https://www.linkedin.com/in/ada")
                      (Backend.deleteProfile 1 twoStore).2).1)
     = Some 3%nat.
Proof. vm_compute. repeat split. Qed.

Lemma batch_answers_every_item_witness :
  answered (completedResults batchAnswer.1) ≡ₚ seq 0 3
  /\ (length (Backend.created (completedResults batchAnswer.1))
      + length (Backend.skipped (completedResults batchAnswer.1))
      + length (Backend.errors (completedResults batchAnswer.1)) = 3)%nat.
Proof.
  destruct (batch_answers_every_item sampleValidator N.of_nat sampleBatch emptyStore
              batchAnswer.2 201 true (completedResults batchAnswer.1)
              ltac:(vm_compute; reflexivity)) as (Perm & Sum & _).
  split; [ exact Perm | exact Sum ].
Defined.

Example batch_of_three_items :
  map Backend.createdIndex (Backend.created (completedResults batchAnswer.1)) = [0%nat]
  /\ map Backend.skippedIndex (Backend.skipped (completedResults batchAnswer.1)) = [1%nat]
  /\ map Backend.errorIndex (Backend.errors (completedResults batchAnswer.1)) = [2%nat]
  /\ length (Backend.rows batchAnswer.2) = 1%nat.
Proof. vm_compute. repeat split. Qed.

Lemma batch_keeps_table_well_formed_witness :
  storeOk sampleValidator batchAnswer.2.
Proof.
  exact (proj1 (batch_keeps_table_well_formed sampleValidator N.of_nat (Some sampleBatch)
                  emptyStore (emptyStore_ok sampleValidator))).
Defined.

Lemma pages_partition_the_rows_witness :
  concat (map (fun page => (Backend.getAllProfiles page 1 (Backend.rows twoStore)).1)
            (seq 1 2))
  = Backend.rows twoStore.
Proof.
  exact (proj1 (pages_partition_the_rows 1 (Backend.rows twoStore) ltac:(lia))).
Defined.


Example two_store_stats :
  Backend.getStats twoStore = Backend.mkStats 2 1 0 0 1.
Proof. vm_compute. reflexivity. Qed.

(** ** Numbers in template literals *)

Section DecimalFacts.

Import Background.

Lemma lit_inj (a b : string) : lit a = lit b -> a = b.
Proof.
  unfold lit. intros Eq.
  rewrite <- (string_of_list_ascii_of_string a), <- (string_of_list_ascii_of_string b).
  f_equal. revert Eq. generalize (list_ascii_of_string b).
  induction (list_ascii_of_string a) as [ | x l IH]; intros [ | y k]; cbn;
    try discriminate; [ reflexivity | ].
  intros [= Head Tail]. f_equal; [ | exact (IH k Tail) ].
  rewrite <- (ascii_N_embedding x), <- (ascii_N_embedding y), Head. reflexivity.
Qed.

Lemma to_uint_not_nil (n : N) : N.to_uint n <> Decimal.Nil.
Proof.
  destruct n as [ | p]; [ discriminate | ].
  apply DecimalPos.Unsigned.to_uint_nonnil.
Qed.

(** Different numbers are written differently. *)
Lemma decimal_inj (a b : N) : decimal a = decimal b -> a = b.
Proof.
  unfold decimal. intros Eq%lit_inj.
  apply DecimalN.Unsigned.to_uint_inj.
  pose proof (NilZero.usu _ (to_uint_not_nil a)) as A.
  pose proof (NilZero.usu _ (to_uint_not_nil b)) as B.
  rewrite Eq, B in A. injection A as ->. reflexivity.
Qed.

Lemma digits_of_uint (d : Decimal.uint) (c : N) :
  c ∈ lit (NilEmpty.string_of_uint d) -> isDigit c = true.
Proof.
  unfold lit. induction d; cbn; intros In;
    (apply elem_of_cons in In as [-> | In]; [ reflexivity | exact (IHd In) ])
    || inversion In.
Qed.

(** A number is written with digits only. *)
Lemma decimal_digits (n c : N) : c ∈ decimal n -> isDigit c = true.
Proof.
  unfold decimal, NilZero.string_of_uint.
  destruct (N.to_uint n) eqn:Digits; try apply digits_of_uint.
  destruct (to_uint_not_nil n Digits).
Qed.

(** Two texts that agree up to the first occurrence of a separator have
    the same part before it and the same part after it. *)
Lemma first_separator (sep : N) (l k r1 r2 : jsstring) :
  sep ∉ l -> sep ∉ k -> l ++ sep :: r1 = k ++ sep :: r2 -> l = k /\ r1 = r2.
Proof.
  revert k. induction l as [ | c l IH]; intros [ | d k] Nl Nk; cbn.
  - intros [= ->]. split; reflexivity.
  - intros [= <- _]. destruct Nk. left.
  - intros [= -> _]. destruct Nl. left.
  - intros [= -> Eq]. apply IH in Eq as [-> ->]; [ split; reflexivity | | ].
    + intros In. apply Nl. right. exact In.
    + intros In. apply Nk. right. exact In.
Qed.

(** The key of the limiter determines the address and the time. *)
Lemma keyOf_inj (ip ip' : jsstring) (now now' : N) :
  Backend.RateLimit.keyOf ip now = Backend.RateLimit.keyOf ip' now' ->
  ip = ip' /\ now = now'.
Proof.
  unfold Backend.RateLimit.keyOf. change (lit "-") with [45]. cbn [app].
  intros Eq. apply (f_equal (@rev N)) in Eq.
  rewrite !rev_app_distr in Eq. cbn [rev] in Eq. rewrite <- !app_assoc in Eq.
  cbn [app] in Eq.
  assert (Digits : forall n, 45 ∉ rev (decimal n)).
  { intros n In. apply list_elem_of_In, in_rev, list_elem_of_In in In.
    apply decimal_digits in In. discriminate In. }
  apply first_separator in Eq as [Time Address]; [ | apply Digits | apply Digits ].
  apply (f_equal (@rev N)) in Time, Address. rewrite !rev_involutive in Time, Address.
  split; [ exact Address | exact (decimal_inj _ _ Time) ].
Qed.

End DecimalFacts.

(** ** The rate limiter *)

Section RateLimitFacts.

Import Backend.RateLimit.

Lemma set_fresh (key : jsstring) (value : N) (requests : Requests) :
  (forall e, e ∈ requests -> e.1 <> key) ->
  set key value requests = requests ++ [(key, value)].
Proof.
  induction requests as [ | [k v] rest IH]; intros Fresh; [ reflexivity | ].
  cbn [set]. rewrite bool_decide_eq_false_2 by (apply (Fresh (k, v)); left).
  cbn. f_equal. apply IH. intros e In. apply Fresh. right. exact In.
Qed.

Lemma NoDup_map_filter {A B} (f : A -> B) (keep : A -> bool) (l : list A) :
  NoDup (map f l) -> NoDup (map f (List.filter keep l)).
Proof.
  induction l as [ | x l IH]; cbn; [ intros _; apply NoDup_nil_2 | ].
  intros [Fresh Distinct]%NoDup_cons.
  destruct (keep x); [ | exact (IH Distinct) ].
  cbn. apply NoDup_cons_2; [ | exact (IH Distinct) ].
  intros In. apply Fresh.
  apply list_elem_of_fmap in In as (y & -> & In).
  apply list_elem_of_fmap. exists y. split; [ reflexivity | ].
  apply list_elem_of_In in In. apply filter_In in In as [In _].
  apply list_elem_of_In. exact In.
Qed.

Lemma filter_snoc {A} (keep : A -> bool) (l : list A) (x : A) :
  List.filter keep (l ++ [x])
  = List.filter keep l ++ (if keep x then [x] else []).
Proof. rewrite List.filter_app. reflexivity. Qed.

(** The requests of an address in a window all have their entry among
    the entries the limiter counts for the address. *)
Lemma window_counted (windowMs : N) (ip : jsstring) (now : N)
    (log : list (jsstring * N)) (requests : Requests) :
  NoDup (map snd log) ->
  (forall r, r ∈ log -> inWindow windowMs ip now r = true ->
     (keyOf r.1 r.2, r.2) ∈ requests) ->
  (length (List.filter (inWindow windowMs ip now) log)
   <= length (List.filter (fun entry => startsWith ip entry.1) requests))%nat.
Proof.
  intros Distinct Present.
  set (recent := List.filter (inWindow windowMs ip now) log).
  set (entries := map (fun r : jsstring * N => (keyOf r.1 r.2, r.2)) recent).
  assert (Len : length entries = length recent) by apply length_map.
  rewrite <- Len. apply submseteq_length, NoDup_submseteq.
  - apply (NoDup_fmap_1 snd). unfold entries.
    change (NoDup (map snd (map (fun r : jsstring * N => (keyOf r.1 r.2, r.2)) recent))).
    rewrite map_map. cbn [snd]. apply NoDup_map_filter. exact Distinct.
  - intros e In. apply list_elem_of_fmap in In as (r & -> & In).
    apply list_elem_of_In, filter_In in In as [In Window].
    apply list_elem_of_In in In.
    apply list_elem_of_In, filter_In. split.
    + apply list_elem_of_In. exact (Present r In Window).
    + cbn [fst]. unfold inWindow in Window.
      apply andb_prop in Window as [[Address%bool_decide_eq_true_1 _]%andb_prop _].
      rewrite Address. apply startsWith_app.
Qed.

(** One request, at a time later than every admitted one. *)
Lemma rateLimit_tracks (windowMs : N) (max : nat) (ip : jsstring) (now : N)
    (requests : Requests) (log : list (jsstring * N)) (last : N) :
  tracks windowMs max requests log last ->
  last <= now ->
  (forall r, r ∈ log -> r.2 < now) ->
  match rateLimit windowMs max ip now requests with
  | (Next, requests') => tracks windowMs max requests' (log ++ [(ip, now)]) now
  | (TooManyRequests _, requests') => tracks windowMs max requests' log now
  end.
Proof.
  intros (Past & Distinct & Present & Known & Bound) Later Earlier.
  unfold rateLimit.
  set (kept := List.filter
                 (fun entry : jsstring * N =>
                    negb (Z.of_N entry.2 <? Z.of_N now - Z.of_N windowMs)%Z) requests).
  assert (Present' : forall r, r ∈ log ->
            (Z.of_N now - Z.of_N windowMs <= Z.of_N r.2)%Z ->
            (keyOf r.1 r.2, r.2) ∈ kept).
  { intros r In Recent. apply list_elem_of_In, filter_In. split.
    - apply list_elem_of_In, Present; [ exact In | lia ].
    - cbn [snd]. apply negb_true_iff, Z.ltb_ge. exact Recent. }
  assert (Known' : forall e, e ∈ kept ->
            exists r, r ∈ log /\ e = (keyOf r.1 r.2, r.2)).
  { intros e In. apply list_elem_of_In, filter_In in In as [In _].
    apply Known, list_elem_of_In. exact In. }
  destruct (max <=? length (List.filter (fun entry => startsWith ip entry.1) kept))%nat
    eqn:Full.
  - (* 429 *)
    split; [ intros r In; specialize (Past r In); lia | ].
    split; [ exact Distinct | ]. split; [ exact Present' | ].
    split; [ exact Known' | exact Bound ].
  - (* next() *)
    apply Nat.leb_gt in Full.
    rewrite set_fresh.
    2:{ intros e In Same. destruct (Known' e In) as (r & Inr & ->).
        cbn [fst] in Same. apply keyOf_inj in Same as [_ Time].
        specialize (Earlier r Inr). lia. }
    split; [ | split; [ | split; [ | split ] ] ].
    + intros r [In | ->%list_elem_of_singleton]%elem_of_app; cbn [snd]; [ | lia ].
      specialize (Earlier r In). lia.
    + rewrite map_app. cbn [map snd]. apply NoDup_app.
      split; [ exact Distinct | ]. split; [ | apply NoDup_singleton ].
      intros t In ->%list_elem_of_singleton.
      apply list_elem_of_fmap in In as (r & Eq & In).
      specialize (Earlier r In). lia.
    + intros r [In | ->%list_elem_of_singleton]%elem_of_app Recent.
      * apply elem_of_app. left. exact (Present' r In Recent).
      * apply elem_of_app. right. left.
    + intros e [In | ->%list_elem_of_singleton]%elem_of_app.
      * destruct (Known' e In) as (r & Inr & ->).
        exists r. split; [ apply elem_of_app; left; exact Inr | reflexivity ].
      * exists (ip, now). split; [ apply elem_of_app; right; left | reflexivity ].
    + intros ip0 now0. rewrite filter_snoc, length_app.
      destruct (inWindow windowMs ip0 now0 (ip, now)) eqn:Window;
        [ | specialize (Bound ip0 now0); cbn [length]; lia ].
      cbn [length].
      unfold inWindow in Window. cbn [fst snd] in Window.
      apply andb_prop in Window as [[Address%bool_decide_eq_true_1 _]%andb_prop
                                      Before%N.leb_le].
      subst ip0.
      pose proof (window_counted windowMs ip now0 log kept Distinct) as Counted.
      enough (length (List.filter (inWindow windowMs ip now0) log)
              <= length (List.filter (fun entry => startsWith ip entry.1) kept))%nat by lia.
      apply Counted. intros r In Inside. apply Present'; [ exact In | ].
      unfold inWindow in Inside.
      apply andb_prop in Inside as [[_ From%Z.leb_le]%andb_prop _]. lia.
Qed.

Lemma admitted_bound (windowMs : N) (max : nat) (arrivals : list (jsstring * N))
    (requests : Requests) (log : list (jsstring * N)) (last : N) :
  tracks windowMs max requests log last ->
  increasing arrivals ->
  (forall a, a ∈ arrivals -> last <= a.2 /\ forall r, r ∈ log -> r.2 < a.2) ->
  forall ip now,
    (length (List.filter (inWindow windowMs ip now)
               (log ++ admitted windowMs max arrivals requests)) <= max)%nat.
Proof.
  revert requests log last.
  induction arrivals as [ | [ip t] rest IH]; intros requests log last Inv Sorted After.
  - cbn [admitted]. rewrite app_nil_r. destruct Inv as (_ & _ & _ & _ & Bound). exact Bound.
  - unfold increasing in Sorted. cbn [map snd] in Sorted.
    apply StronglySorted_inv in Sorted as [Sorted Least].
    destruct (After (ip, t) ltac:(left)) as [Later Earlier]. cbn [snd] in Later, Earlier.
    pose proof (rateLimit_tracks windowMs max ip t requests log last Inv Later Earlier)
      as Step.
    assert (Next : forall a, a ∈ rest -> t < a.2).
    { intros a In. rewrite Forall_forall in Least. apply Least.
      apply list_elem_of_fmap. exists a. split; [ reflexivity | exact In ]. }
    cbn [admitted].
    destruct (rateLimit windowMs max ip t requests) as [[ | retry] requests'].
    + intros ip0 now0.
      change (log ++ (ip, t) :: admitted windowMs max rest requests')
        with (log ++ [(ip, t)] ++ admitted windowMs max rest requests').
      rewrite app_assoc. apply (IH requests' (log ++ [(ip, t)]) t Step Sorted).
      intros a In. specialize (Next a In). split; [ lia | ].
      intros r [Inr | ->%list_elem_of_singleton]%elem_of_app; [ | exact Next ].
      specialize (Earlier r Inr). lia.
    + apply (IH requests' log t Step Sorted).
      intros a In. specialize (Next a In). split; [ lia | ].
      intros r Inr. specialize (Earlier r Inr). lia.
Qed.

(** X15: when the requests arrive at strictly increasing times, the
    limiter of [createRateLimit(windowMs, max)], started with an empty map,
    never lets through more than [max] requests of one address in any
    window of [windowMs] milliseconds. *)
Theorem rate_limit_bounds_every_window (windowMs : N) (max : nat)
    (arrivals : list (jsstring * N)) (ip : jsstring) (now : N) :
  increasing arrivals ->
  (length (List.filter (inWindow windowMs ip now) (admitted windowMs max arrivals []))
   <= max)%nat.
Proof.
  intros Sorted.
  apply (admitted_bound windowMs max arrivals [] [] 0).
  - split; [ intros r In; inversion In | ].
    split; [ apply NoDup_nil_2 | ].
    split; [ intros r In; inversion In | ].
    split; [ intros e In; inversion In | ].
    intros ip0 now0. cbn. lia.
  - exact Sorted.
  - intros a _. split; [ lia | intros r In; inversion In ].
Qed.



End RateLimitFacts.

Lemma rate_limit_bounds_every_window_witness :
  (length (List.filter (inWindow 1000%N (lit "10.0.0.1") 1500%N)
             (admitted 1000%N 2 sampleArrivals [])) <= 2)%nat.
Proof.
  apply rate_limit_bounds_every_window.
  unfold increasing, sampleArrivals. cbn [map snd].
  repeat (constructor; [ | repeat constructor; lia ]). constructor.
Defined.

Example third_request_rejected :
  admitted 1000 2 sampleArrivals []
  = [ (lit "10.0.0.1", 1000); (lit "10.0.0.1", 1200); (lit "10.0.0.1", 2100) ].
Proof. vm_compute. reflexivity. Qed.


(** ** The answer of the backend as the worker reads it *)

Section AnswerFacts.

Import Background.

Variable validator : Backend.ValidatorJs.
Variable host : Host.

(** The messages of the answers of the POST handlers. *)
Lemma handler_answers
    (handler : N -> Backend.Request.Body -> Backend.Store ->
               Backend.Response * Backend.Store)
    (now : N) (b : Backend.Request.Body) (s : Backend.Store) :
  handler ∈ postHandlers validator ->
  match (handler now b s).1 with
  | Backend.Created p => exists key, Backend.id p = Some key
  | Backend.BadRequest message _ =>
      message ∈ [ lit "Missing required fields: name and url are required";
                  lit "Validation failed";
                  lit "URL must be a valid LinkedIn profile URL (linkedin.com/in/username)" ]
  | Backend.Conflict _ _ _ => True
  | Backend.ServerError message => message = lit "Failed to create profile"
  end.
Proof.
  assert (Create : forall v,
            match Backend.create validator now v s with
            | inr (p, _) => exists key, Backend.id p = Some key
            | inl e =>
                match Backend.createFailed e with
                | Backend.BadRequest message _ => message = lit "Validation failed"
                | Backend.ServerError message => message = lit "Failed to create profile"
                | _ => False
                end
            end).
  { intros v. destruct (Backend.create validator now v s) as [e | [p s1]] eqn:Create.
    - destruct e; reflexivity.
    - apply create_inr in Create as (Id & _). eexists. exact Id. }
  intros [-> | [-> | ->]]%postHandlers_cases.
  - unfold Backend.createProfile.
    destruct (negb _ || negb _); [ cbn; set_solver | ].
    destruct (Backend.findByUrl _ s); [ exact I | ].
    match goal with |- context [Backend.create validator now ?v s] =>
      specialize (Create v); destruct (Backend.create validator now v s) as [e | [p s1]]
    end; [ | exact Create ].
    cbn. destruct (Backend.createFailed e); try contradiction; subst; set_solver.
  - unfold Backend.postProfile.
    destruct (Backend.validationErrors validator b); [ | cbn; set_solver ].
    unfold Backend.createProfile.
    destruct (negb _ || negb _); [ cbn; set_solver | ].
    destruct (Backend.findByUrl _ s); [ exact I | ].
    match goal with |- context [Backend.create validator now ?v s] =>
      specialize (Create v); destruct (Backend.create validator now v s) as [e | [p s1]]
    end; [ | exact Create ].
    cbn. destruct (Backend.createFailed e); try contradiction; subst; set_solver.
  - unfold Backend.postApiProfiles.
    destruct (negb _ || negb _); [ cbn; set_solver | ].
    destruct (negb (includes _ _)); [ cbn; set_solver | ].
    destruct (Backend.findByUrl _ s); [ exact I | ].
    match goal with |- context [Backend.create validator now ?v s] =>
      specialize (Create v); destruct (Backend.create validator now v s) as [e | [p s1]]
    end; [ | exact Create ].
    cbn. destruct (Backend.createFailed e); try contradiction; subst; set_solver.
Qed.

(** X17: when the POST of the worker is answered by one of the handlers
    of the backend, the URL is reported as a success, with the identifier
    of the new record, exactly for a 201, as a duplicate exactly for a
    409, and as an error with the message of the answer for a 400 or a
    500; so a URL the unique index refuses (500) counts as an error, not
    as a duplicate. *)
Theorem answer_decides_the_outcome
    (handler : N -> Backend.Request.Body -> Backend.Store ->
               Backend.Response * Backend.Store)
    (now : N) (b : Backend.Request.Body) (s : Backend.Store)
    (createdMessage url : jsstring) (tab : TabId)
    (data : Extractor.Extraction) (w : World) :
  handler ∈ postHandlers validator ->
  truthy (Extractor.nameOf data) = true ->
  postProfile host (tick w) (mkPostedProfile url data)
  = Ok (Backend.replyOf createdMessage (handler now b s).1) ->
  (submitProfile host url tab data w).1
  = Ok match (handler now b s).1 with
       | Backend.Created p =>
           UrlSuccess (mkPostedProfile url data)
             (default (Backend.nextId s) (Backend.id p))
       | Backend.Conflict _ _ _ =>
           UrlFailure true (lit "Profile with this LinkedIn URL already exists")
       | Backend.BadRequest message _ | Backend.ServerError message =>
           UrlFailure false message
       end.
Proof.
  intros In Named Answer.
  destruct (submitProfile_run host url tab data w Named) as (new & w1 & -> & _).
  cbn [fst]. rewrite Answer. f_equal.
  pose proof (handler_answers handler now b s In) as Message.
  destruct (handler now b s).1 as [p | message fields | key name url' | message].
  - destruct Message as [key Id].
    destruct p as [[given | ] ?]; [ | discriminate Id ]. reflexivity.
  - unfold readReply, Backend.replyOf. cbn.
    rewrite !elem_of_cons, elem_of_nil in Message.
    destruct Message as [-> | [-> | [-> | []]]]; vm_compute; reflexivity.
  - vm_compute. reflexivity.
  - subst message. vm_compute. reflexivity.
Qed.

End AnswerFacts.

(** ** The queue of the popup *)

Section QueueFacts.

Import Popup.

Variable newURL : jsstring -> Res URL.

(** What [addUrl] does: it adds one URL, the normal form of a valid
    input that is not yet queued, at the end of the queue, or it leaves
    the state as it is. *)
Lemma addUrl_cases (value : jsstring) (p : PopupState) :
  (exists urlObj,
     newURL (withScheme (trim value)) = Ok urlObj
     /\ includes (hostname urlObj) (lit "linkedin.com") = true
     /\ includes (pathname urlObj) (lit "/in/") = true
     /\ ((lit "https://www.linkedin.com" ++ dropFinalSlash (pathname urlObj))
         ∉ linkedinUrls p)
     /\ (addUrl newURL value p).1.1 = lit "success"
     /\ (addUrl newURL value p).2
        = {| linkedinUrls :=
               linkedinUrls p
               ++ [lit "https://www.linkedin.com" ++ dropFinalSlash (pathname urlObj)];
             isProcessing := isProcessing p |})
  \/ ((addUrl newURL value p).1.1 <> lit "success" /\ (addUrl newURL value p).2 = p).
Proof.
  unfold addUrl.
  destruct (truthy (trim value)); cbn [negb]; [ | right; split; [ discriminate | reflexivity ] ].
  unfold isValidLinkedInUrl, normalizeLinkedInUrl.
  destruct (newURL (withScheme (trim value))) as [urlObj | error];
    [ | right; split; [ discriminate | reflexivity ] ].
  destruct (includes (hostname urlObj) (lit "linkedin.com")) eqn:Host;
    [ | right; split; [ discriminate | reflexivity ] ].
  destruct (includes (pathname urlObj) (lit "/in/")) eqn:Path;
    [ | right; split; [ discriminate | reflexivity ] ].
  cbn [andb negb]. case_bool_decide as Queued;
    [ right; split; [ discriminate | reflexivity ] | ].
  left. exists urlObj. repeat split; assumption.
Qed.

Lemma delete_sublist {A} (index : nat) (l : list A) : delete index l `sublist_of` l.
Proof.
  revert index. induction l as [ | x l IH]; intros [ | index]; cbn.
  - constructor.
  - constructor.
  - apply sublist_cons, reflexivity.
  - apply sublist_skip, IH.
Qed.

(** X18: [addUrl] and [removeUrl] keep the queue free of repetitions and
    on one host: a URL enters the queue only in its normal form, which
    starts with 'https://www.linkedin.com' whatever host and scheme were
    typed, and only when that form is not queued yet; [addUrl] adds at
    most one URL, at the end, and [removeUrl] only removes. *)
Theorem queue_stays_clean (value : jsstring) (index : nat) (p : PopupState) :
  queueOk (linkedinUrls p) ->
  queueOk (linkedinUrls (addUrl newURL value p).2)
  /\ queueOk (linkedinUrls (removeUrl index p).2)
  /\ (linkedinUrls (addUrl newURL value p).2 = linkedinUrls p
      \/ exists u, linkedinUrls (addUrl newURL value p).2 = linkedinUrls p ++ [u])
  /\ linkedinUrls (removeUrl index p).2 `sublist_of` linkedinUrls p.
Proof.
  intros [Distinct Hosted]. split; [ | split; [ | split ] ].
  - destruct (addUrl_cases value p)
      as [(urlObj & _ & _ & _ & Fresh & _ & ->) | [_ ->]]; [ | split; assumption ].
    cbn [linkedinUrls]. split.
    + apply NoDup_app. split; [ exact Distinct | ]. split; [ | apply NoDup_singleton ].
      intros u In ->%list_elem_of_singleton. exact (Fresh In).
    + intros u [In | ->%list_elem_of_singleton]%elem_of_app;
        [ exact (Hosted u In) | apply startsWith_app ].
  - cbn [removeUrl snd linkedinUrls].
    pose proof (delete_sublist index (linkedinUrls p)) as Sub. split.
    + eapply sublist_NoDup; eassumption.
    + intros u In. apply Hosted. eapply elem_of_sublist; eassumption.
  - destruct (addUrl_cases value p)
      as [(urlObj & _ & _ & _ & _ & _ & ->) | [_ ->]]; [ right | left; reflexivity ].
    eexists. reflexivity.
  - apply delete_sublist.
Qed.


(** X20: a URL that [addUrl] has put in the queue starts with 'http', so
    that the [beforeValidate] hook of the model stores it as it is: a
    record created for it has exactly that URL, and a second submission
    of the same body is answered 409 by each POST handler. *)
Theorem queued_url_is_stored_as_queued (validator : Backend.ValidatorJs)
    (handler : N -> Backend.Request.Body -> Backend.Store ->
               Backend.Response * Backend.Store)
    (value u : jsstring) (p : PopupState) (now now' : N) (b : Backend.Request.Body)
    (s s1 : Backend.Store) (q : Backend.Profile) :
  u ∈ linkedinUrls (addUrl newURL value p).2 ->
  u ∉ linkedinUrls p ->
  handler ∈ postHandlers validator ->
  Backend.Request.url b = Some u ->
  handler now b s = (Backend.Created q, s1) ->
  startsWith (lit "http") u = true
  /\ Backend.url q = Some u
  /\ handler now' b s1 = (Backend.Conflict (Backend.id q) (Backend.name q) (Some u), s1).
Proof.
  intros In New Handler Url Run.
  assert (Http : startsWith (lit "http") u = true).
  { destruct (addUrl_cases value p) as [(urlObj & _ & _ & _ & _ & _ & Eq) | [_ Eq]];
      rewrite Eq in In; [ | destruct (New In) ].
    cbn [linkedinUrls] in In.
    apply elem_of_app in In as [In | ->%list_elem_of_singleton]; [ destruct (New In) | ].
    change (lit "https://www.linkedin.com") with (lit "http" ++ lit "s://www.linkedin.com").
    rewrite <- app_assoc. apply startsWith_app. }
  split; [ exact Http | ].
  apply postHandlers_cases in Handler as [-> | [-> | ->]].
  - destruct (createProfile_resubmitted validator now now' b s s1 q u Url Http Run)
      as (Again & _ & Stored & _).
    rewrite <- Stored at 2. split; assumption.
  - unfold Backend.postProfile in *.
    destruct (Backend.validationErrors validator b); [ | discriminate Run ].
    destruct (createProfile_resubmitted validator now now' (Backend.sanitize validator b)
                s s1 q u Url Http Run) as (Again & _ & Stored & _).
    rewrite <- Stored at 2. split; assumption.
  - destruct (postApiProfiles_resubmitted validator now now' b s s1 q u Url Http Run)
      as (Again & _ & Stored).
    rewrite <- Stored at 2. split; assumption.
Qed.

End QueueFacts.

Lemma queue_stays_clean_witness :
  queueOk (Popup.linkedinUrls
             (Popup.addUrl sampleURL (lit "http://uk.linkedin.com/in/grace") oneQueued).2)
  /\ queueOk (Popup.linkedinUrls (Popup.removeUrl 0 oneQueued).2).
Proof.
  assert (Clean : queueOk (Popup.linkedinUrls oneQueued)).
  { split.
    - vm_compute. apply NoDup_singleton.
    - intros u In. apply list_elem_of_singleton in In. rewrite In. vm_compute. reflexivity. }
  destruct (queue_stays_clean sampleURL (lit "http://uk.linkedin.com/in/grace") 0
              oneQueued Clean) as (Added & Removed & _).
  split; assumption.
Defined.

Example queue_after_two_inputs :
  Popup.linkedinUrls
    (Popup.addUrl sampleURL (lit "http://uk.linkedin.com/in/grace") oneQueued).2
  = [ lit "https://www.linkedin.com/in/ada"; lit "https://www.linkedin.com/in/grace" ]
  /\ (Popup.addUrl sampleURL (lit "https://linkedin.com/in/ada") oneQueued).2 = oneQueued.
Proof. vm_compute. split; reflexivity. Qed.

Example running_short_queue :
  Popup.processBtnDisabled runningShortQueue = false
  /\ Popup.click sampleHost runningShortQueue busyWorld = (Ok None, busyWorld).
Proof. vm_compute. split; reflexivity. Qed.

Lemma queued_url_is_stored_as_queued_witness :
  startsWith (lit "http") (lit "https://www.linkedin.com/in/ada") = true
  /\ Backend.url (createdRow (Backend.postProfile sampleValidator 7 adaBody emptyStore).1)
     = Some (lit "https://www.linkedin.com/in/ada")
  /\ Backend.postProfile sampleValidator 9 adaBody adaStore
     = (Backend.Conflict
          (Backend.id (createdRow (Backend.postProfile sampleValidator 7 adaBody emptyStore).1))
          (Backend.name (createdRow (Backend.postProfile sampleValidator 7 adaBody emptyStore).1))
          (Some (lit "https://www.linkedin.com/in/ada")), adaStore).
Proof.
  apply (queued_url_is_stored_as_queued sampleURL sampleValidator
           (Backend.postProfile sampleValidator) (lit " linkedin.com/in/ada/ ")
           (lit "https://www.linkedin.com/in/ada") (Popup.mkPopupState [] false)
           7 9 adaBody emptyStore adaStore).
  - vm_compute. apply list_elem_of_here.
  - intros In. inversion In.
  - exact postProfile_is_handler.
  - reflexivity.
  - vm_compute. reflexivity.
Defined.

(** ** The requests of a run *)

Section RequestFacts.

Import Background.

Variable host : Host.

(** *** Rules *)

Lemma requests_app (es1 es2 : list Event) :
  requests (es1 ++ es2) = requests es1 ++ requests es2.
Proof. unfold requests. apply omap_app. Qed.

Lemma flagKept_refl (w : World) : flagKept host w w.
Proof. split; [ reflexivity | tauto ]. Qed.

Lemma flagKept_trans (w1 w2 w3 : World) :
  flagKept host w1 w2 -> flagKept host w2 w3 -> flagKept host w1 w3.
Proof.
  intros [Same1 Off1] [Same2 Off2]. split.
  - intros Quiet. rewrite Same2, Same1 by exact Quiet. reflexivity.
  - intros Off. exact (Off2 (Off1 Off)).
Qed.

(** A step that leaves the flag as it is. *)
Lemma flagKept_same (w w' : World) :
  isProcessing (ext w') = isProcessing (ext w) -> flagKept host w w'.
Proof. intros Same. split; [ intros _; exact Same | rewrite Same; tauto ]. Qed.

Lemma traces_weaken {A} (m : M A) (T T' : Res A -> list Request -> Prop) :
  traces host m T -> (forall r rs, T r rs -> T' r rs) -> traces host m T'.
Proof.
  intros H Weaker w. destruct (H w) as (new & Events & Trace & Flag).
  exists new. split; [ exact Events | ]. split; [ exact (Weaker _ _ Trace) | exact Flag ].
Qed.

Lemma traces_bind {A B} (m : M A) (k : A -> M B)
    (T1 : Res A -> list Request -> Prop) (T2 : A -> Res B -> list Request -> Prop) :
  traces host m T1 ->
  (forall a, traces host (k a) (T2 a)) ->
  traces host (m ≫= k)
    (fun r rs =>
       (exists e, r = Throw e /\ T1 (Throw e) rs)
       \/ exists a rs1 rs2, rs = rs1 ++ rs2 /\ T1 (Ok a) rs1 /\ T2 a r rs2).
Proof.
  intros First Then w. unfold mbind, M_bind.
  destruct (First w) as (new1 & Events1 & Trace1 & Flag1).
  destruct (m w) as [[a | e] w1]; cbn [fst snd] in *.
  - destruct (Then a w1) as (new2 & Events2 & Trace2 & Flag2).
    exists (new1 ++ new2). split; [ rewrite Events2, Events1, app_assoc; reflexivity | ].
    split.
    + right. exists a, (requests new1), (requests new2).
      split; [ apply requests_app | ]. split; assumption.
    + exact (flagKept_trans _ _ _ Flag1 Flag2).
  - exists new1. split; [ exact Events1 | ]. split; [ | exact Flag1 ].
    left. exists e. split; [ reflexivity | exact Trace1 ].
Qed.

Lemma silent_bind {A B} (m : M A) (k : A -> M B) :
  silent host m -> (forall a, silent host (k a)) -> silent host (m ≫= k).
Proof.
  intros First Then.
  apply (traces_weaken _ _ _
           (traces_bind m k (fun _ rs => rs = []) (fun _ _ rs => rs = []) First Then)).
  intros r rs [(e & _ & ->) | (a & rs1 & rs2 & -> & -> & ->)]; reflexivity.
Qed.

(** After a computation that makes no request, the requests are those of
    what follows, or none when it throws. *)
Lemma silent_then {A B} (m : M A) (k : A -> M B) (T : Res B -> list Request -> Prop) :
  silent host m ->
  (forall a, traces host (k a) T) ->
  (forall e, T (Throw e) []) ->
  traces host (m ≫= k) T.
Proof.
  intros First Then Thrown.
  apply (traces_weaken _ _ _
           (traces_bind m k (fun _ rs => rs = []) (fun _ => T) First Then)).
  intros r rs [(e & -> & ->) | (a & rs1 & rs2 & -> & -> & Trace)];
    [ apply Thrown | exact Trace ].
Qed.

Lemma traces_try {A} (m : M A) (T : Res A -> list Request -> Prop) :
  traces host m T ->
  traces host (try m) (fun r rs => exists outcome, r = Ok outcome /\ T outcome rs).
Proof.
  intros H w. unfold try. destruct (H w) as (new & Events & Trace & Flag).
  destruct (m w) as [r w1]. cbn [fst snd] in *.
  exists new. split; [ exact Events | ]. split; [ | exact Flag ].
  exists r. split; [ reflexivity | exact Trace ].
Qed.

Lemma silent_try {A} (m : M A) : silent host m -> silent host (try m).
Proof.
  intros H. apply (traces_weaken _ _ _ (traces_try m _ H)).
  intros r rs (outcome & _ & ->). reflexivity.
Qed.

Lemma traces_mret {A} (a : A) : traces host (mret a) (fun r rs => r = Ok a /\ rs = []).
Proof.
  intros w. exists []. cbn. rewrite app_nil_r.
  split; [ reflexivity | ]. split; [ split; reflexivity | apply flagKept_refl ].
Qed.

Lemma silent_mret {A} (a : A) : silent host (mret a).
Proof. apply (traces_weaken _ _ _ (traces_mret a)). intros r rs [_ ->]. reflexivity. Qed.

Lemma silent_throw {A} (message : jsstring) : silent host (throw (A := A) message).
Proof.
  intros w. exists []. cbn. rewrite app_nil_r.
  split; [ reflexivity | ]. split; [ reflexivity | apply flagKept_refl ].
Qed.

Lemma silent_getState : silent host getState.
Proof.
  intros w. exists []. cbn. rewrite app_nil_r.
  split; [ reflexivity | ]. split; [ reflexivity | apply flagKept_refl ].
Qed.

Lemma silent_getTick : silent host getTick.
Proof.
  intros w. exists []. cbn. rewrite app_nil_r.
  split; [ reflexivity | ]. split; [ reflexivity | apply flagKept_refl ].
Qed.

Lemma traces_emit (e : Event) :
  traces host (emit e) (fun r rs => r = Ok tt /\ rs = requests [e]).
Proof.
  intros w. exists [e]. cbn.
  split; [ reflexivity | ]. split; [ split; reflexivity | ].
  apply flagKept_same. reflexivity.
Qed.

Lemma silent_emit (e : Event) : requestOf e = None -> silent host (emit e).
Proof.
  intros Quiet. apply (traces_weaken _ _ _ (traces_emit e)).
  intros r rs [_ ->]. unfold requests. cbn. rewrite Quiet. reflexivity.
Qed.

Lemma silent_update (f : ExtensionState -> ExtensionState) :
  (forall st, isProcessing (f st) = isProcessing st) -> silent host (update f).
Proof.
  intros Kept w. exists [Tracked (activeTabs (f (ext w)))]. cbn.
  split; [ reflexivity | ]. split; [ reflexivity | ].
  apply flagKept_same. cbn. apply Kept.
Qed.

(** The listeners make no request; only a stop request touches the
    running flag, and it clears it. *)
Lemma deliver_all_silent (pending : list Interrupt) (w : World) :
  exists new,
    events (fold_left deliver pending w) = events w ++ new
    /\ requests new = []
    /\ (StopRequested ∉ pending ->
        isProcessing (ext (fold_left deliver pending w)) = isProcessing (ext w))
    /\ (isProcessing (ext w) = false \/ StopRequested ∈ pending ->
        isProcessing (ext (fold_left deliver pending w)) = false).
Proof.
  revert w. induction pending as [ | i pending IH]; intros w.
  - exists []. cbn. rewrite app_nil_r.
    split; [ reflexivity | ]. split; [ reflexivity | ]. split; [ reflexivity | ].
    intros [Off | In]; [ exact Off | inversion In ].
  - cbn [fold_left]. destruct (IH (deliver w i)) as (new & Events & Silent & Flag & Off).
    assert (Step : exists first,
              events (deliver w i) = events w ++ first
              /\ requests first = []
              /\ (i <> StopRequested ->
                  isProcessing (ext (deliver w i)) = isProcessing (ext w))
              /\ (i = StopRequested -> isProcessing (ext (deliver w i)) = false)).
    { destruct i as [tab | | message | reason]; cbn [deliver].
      - unfold onTabRemoved. case_bool_decide.
        + eexists [_]. cbn. repeat split. discriminate.
        + exists []. rewrite app_nil_r. repeat split. discriminate.
      - unfold handleStopBatchProcessing. cbn.
        eexists. split; [ reflexivity | ].
        split; [ | split; [ intros Neq; destruct (Neq eq_refl) | reflexivity ] ].
        rewrite requests_app. cbn. rewrite app_nil_r.
        unfold requests. induction (elements _) as [ | x l IHl]; [ reflexivity | exact IHl ].
      - eexists [_]. cbn. repeat split. discriminate.
      - eexists [_]. cbn. repeat split. discriminate. }
    destruct Step as (first & Events1 & Silent1 & Flag1 & Off1).
    exists (first ++ new). split; [ rewrite Events, Events1, app_assoc; reflexivity | ].
    split; [ rewrite requests_app, Silent1, Silent; reflexivity | ]. split.
    + intros Quiet. rewrite Flag, Flag1; [ reflexivity | | ].
      * intros ->. apply Quiet. left.
      * intros In. apply Quiet. right. exact In.
    + intros Stopped. apply Off.
      assert (Case : i = StopRequested \/ i <> StopRequested)
        by (destruct i; first [ left; reflexivity | right; discriminate ]).
      destruct Case as [Stop | Other]; [ left; exact (Off1 Stop) | ].
      destruct Stopped as [Cleared | In].
      * left. rewrite (Flag1 Other). exact Cleared.
      * apply elem_of_cons in In as [Eq | In]; [ destruct (Other (eq_sym Eq)) | ].
        right. exact In.
Qed.

Lemma silent_await {A} (call : nat -> Res A) : silent host (await host call).
Proof.
  intros w. unfold await. cbn [fst snd ext events].
  destruct (deliver_all_silent (interrupts host (tick w)) w)
    as (new & Events & Silent & Flag & Off).
  exists new. split; [ exact Events | ]. split; [ exact Silent | ]. split.
  - intros Quiet. apply Flag, Quiet.
  - intros Cleared. apply Off. left. exact Cleared.
Qed.

Lemma silent_seq {A B} (m : M A) (k : M B) :
  silent host m -> silent host k -> silent host (m ≫= fun _ => k).
Proof. intros First Then. apply silent_bind; [ exact First | intros _; exact Then ]. Qed.

Lemma silent_wait (ms : N) : silent host (wait host ms).
Proof.
  unfold wait. apply silent_seq; [ apply silent_emit; reflexivity | apply silent_await ].
Qed.

Lemma calm_silent {A} (m : M A) : calm host m -> silent host m.
Proof. intros H. apply (traces_weaken _ _ _ H). intros r rs [_ ->]. reflexivity. Qed.

Lemma yields_calm {A} (m : M A) (a : A) : yields host m a -> calm host m.
Proof.
  intros H. apply (traces_weaken _ _ _ H). intros r rs [-> ->].
  split; [ exists a; reflexivity | reflexivity ].
Qed.

(** After a computation that returns without a request, the requests and
    the result are those of what follows. *)
Lemma calm_then {A B} (m : M A) (k : A -> M B) (T : Res B -> list Request -> Prop) :
  calm host m -> (forall a, traces host (k a) T) -> traces host (m ≫= k) T.
Proof.
  intros First Then.
  apply (traces_weaken _ _ _
           (traces_bind m k (fun r rs => (exists a, r = Ok a) /\ rs = [])
              (fun _ => T) First Then)).
  intros r rs [(e & -> & [[a [=]] _]) | (a & rs1 & rs2 & -> & [_ ->] & Trace)].
  exact Trace.
Qed.

Lemma calm_bind {A B} (m : M A) (k : A -> M B) :
  calm host m -> (forall a, calm host (k a)) -> calm host (m ≫= k).
Proof. intros First Then. apply calm_then; assumption. Qed.

Lemma yields_mret {A} (a : A) : yields host (mret a) a.
Proof. apply traces_mret. Qed.

Lemma calm_mret {A} (a : A) : calm host (mret a).
Proof. apply (yields_calm _ a), yields_mret. Qed.

Lemma calm_getState : calm host getState.
Proof.
  intros w. exists []. cbn. rewrite app_nil_r.
  split; [ reflexivity | ].
  split; [ split; [ eexists | ]; reflexivity | apply flagKept_refl ].
Qed.

Lemma calm_getTick : calm host getTick.
Proof.
  intros w. exists []. cbn. rewrite app_nil_r.
  split; [ reflexivity | ].
  split; [ split; [ eexists | ]; reflexivity | apply flagKept_refl ].
Qed.

Lemma calm_emit (e : Event) : requestOf e = None -> calm host (emit e).
Proof.
  intros Quiet. apply (traces_weaken _ _ _ (traces_emit e)).
  intros r rs [-> ->]. split; [ exists tt; reflexivity | ].
  unfold requests. cbn. rewrite Quiet. reflexivity.
Qed.

Lemma calm_update (f : ExtensionState -> ExtensionState) :
  (forall st, isProcessing (f st) = isProcessing st) -> calm host (update f).
Proof.
  intros Kept w. exists [Tracked (activeTabs (f (ext w)))]. cbn.
  split; [ reflexivity | ]. split; [ split; [ exists tt | ]; reflexivity | ].
  apply flagKept_same. cbn. apply Kept.
Qed.

Lemma calm_try {A} (m : M A) : silent host m -> calm host (try m).
Proof.
  intros H. apply (traces_weaken _ _ _ (traces_try m _ H)).
  intros r rs (outcome & -> & ->). split; [ eexists | ]; reflexivity.
Qed.

Lemma calm_wait (ms : N) : calm host (wait host ms).
Proof.
  unfold wait. apply calm_bind; [ apply calm_emit; reflexivity | intros _ ].
  intros w. destruct (silent_await (fun _ => Ok tt) w) as (new & Events & Silent & Flag).
  exists new. split; [ exact Events | ]. split; [ | exact Flag ].
  split; [ exists tt; reflexivity | exact Silent ].
Qed.

(** *** Tab controller and API client *)

Lemma silent_checkTabStatus (remaining : nat) (tab : TabId) :
  silent host (checkTabStatus host remaining tab).
Proof.
  induction remaining as [ | remaining IH]; cbn [checkTabStatus]; [ apply silent_throw | ].
  apply silent_bind; [ apply silent_getTick | intros now ].
  apply silent_bind; [ apply silent_try, silent_await | intros answer ].
  destruct (timeoutFirst host now); [ apply silent_throw | ].
  destruct answer as [[ | ] | error]; [ apply silent_mret | | apply silent_throw ].
  destruct remaining as [ | remaining']; [ apply silent_throw | ].
  apply silent_bind; [ apply silent_await | intros _; exact IH ].
Qed.

Lemma calm_closeTab (tab : TabId) : calm host (closeTab host tab).
Proof.
  unfold closeTab.
  apply calm_bind; [ apply calm_emit; reflexivity | intros _ ].
  apply calm_bind; [ apply calm_try, silent_await | intros _ ].
  apply calm_update. reflexivity.
Qed.

Lemma silent_extractProfileFromTab (tab : TabId) :
  silent host (extractProfileFromTab host tab).
Proof.
  unfold extractProfileFromTab.
  apply silent_bind; [ apply silent_try, silent_await | intros _ ].
  apply silent_bind; [ apply silent_wait | intros _ ].
  apply silent_bind; [ apply silent_await | intros [document | ] ];
    [ apply silent_mret | apply silent_throw ].
Qed.

(** [saveProfileToBackend] makes one request, the POST of its argument,
    and returns whatever the answer. *)
Lemma traces_saveProfileToBackend (body : PostedProfile) :
  traces host (saveProfileToBackend host body)
    (fun r rs => (exists saveResult, r = Ok saveResult) /\ rs = [Sent body]).
Proof.
  unfold saveProfileToBackend.
  apply (traces_weaken _ _ _
           (traces_bind _ _ _
              (fun _ r rs => (exists saveResult : SaveResult, r = Ok saveResult) /\ rs = [])
              (traces_emit (Posted body))
              (fun _ => calm_bind _ _ (calm_try _ (silent_await _))
                          (fun answer => calm_mret (readReply answer))))).
  intros r rs [(e & -> & [[=] _]) | (a & rs1 & rs2 & -> & [_ ->] & [Returned ->])].
  split; [ exact Returned | reflexivity ].
Qed.

(** *** One URL *)

Lemma traces_submitProfile (url : jsstring) (tab : TabId) (data : Extractor.Extraction) :
  traces host (submitProfile host url tab data) (attemptTrace url).
Proof.
  unfold submitProfile. destruct (truthy (Extractor.nameOf data)) eqn:Named; cbn [negb].
  2:{ intros w. exists []. cbn. rewrite app_nil_r.
      split; [ reflexivity | ]. split; [ reflexivity | apply flagKept_refl ]. }
  refine (traces_weaken _ _ _
            (traces_bind _ _ _
               (fun saveResult r rs =>
                  exists result, r = Ok result /\ rs = []
                    /\ match result with
                       | UrlSuccess profile _ => profile = mkPostedProfile url data
                       | UrlFailure _ _ => True
                       end)
               (traces_saveProfileToBackend (mkPostedProfile url data)) _) _).
  - intros [id | error].
    + apply (traces_weaken _ _ _
               (calm_then _ _ _ (calm_closeTab tab) (fun _ => yields_mret _))).
      intros r rs [-> ->]. eexists. repeat split.
    + apply (traces_weaken _ _ _
               (calm_then _ _ _ (calm_closeTab tab) (fun _ => yields_mret _))).
      intros r rs [-> ->]. eexists. repeat split.
  - intros r rs [(e & -> & [[saveResult [=]] _])
                | (a & rs1 & rs2 & -> & [_ ->] & (result & -> & -> & Same))].
    cbn. exists data. split; [ exact Named | ]. split; [ reflexivity | exact Same ].
Qed.

Lemma attemptTrace_thrown (url error : jsstring) : attemptTrace url (Throw error) [].
Proof. reflexivity. Qed.

Lemma traces_scrapeTab (url : jsstring) (tab : TabId) :
  traces host (scrapeTab host url tab) (attemptTrace url).
Proof.
  unfold scrapeTab.
  apply silent_then; [ apply silent_update; reflexivity | intros _ | apply attemptTrace_thrown ].
  apply silent_then; [ apply silent_checkTabStatus | intros _ | apply attemptTrace_thrown ].
  apply silent_then; [ apply silent_wait | intros _ | apply attemptTrace_thrown ].
  apply silent_then; [ apply silent_extractProfileFromTab | intros data
                     | apply attemptTrace_thrown ].
  apply traces_submitProfile.
Qed.

Lemma traces_tryBlock (url : jsstring) (tab : option TabId) :
  traces host (tryBlock host url tab) (passTrace url).
Proof.
  unfold tryBlock.
  refine (traces_weaken _ _ _
            (traces_bind _ _ _
               (fun _ r rs => exists tab' outcome,
                  r = Ok (tab', outcome) /\ attemptTrace url outcome rs)
               (traces_emit (CreateCalled url)) _) _).
  - intros _.
    apply (calm_then _ _ _ (calm_try _ (silent_await _))).
    intros [id | error].
    + apply (traces_weaken _ _ _
               (traces_bind _ _ _ (fun outcome r rs => r = Ok (Some id, outcome) /\ rs = [])
                  (traces_try _ _ (traces_scrapeTab url id))
                  (fun outcome => yields_mret (Some id, outcome)))).
      intros r rs [(e & -> & (outcome & [=] & _))
                  | (a & rs1 & rs2 & -> & (outcome & [= ->] & Attempt) & [-> ->])].
      exists (Some id), outcome. rewrite app_nil_r. split; [ reflexivity | exact Attempt ].
    + apply (traces_weaken _ _ _ (yields_mret (tab, Throw error))).
      intros r rs [-> ->]. exists tab, (Throw error). split; reflexivity.
  - intros r rs [(e & -> & [[=] _])
                | (a & rs1 & rs2 & -> & [_ ->] & (tab' & outcome & -> & Attempt))].
    exists tab', outcome, rs2. repeat split. exact Attempt.
Qed.

Lemma calm_attemptFailed (url : jsstring) (tab : option TabId) (remaining : nat)
    (message : jsstring) :
  calm host (attemptFailed host url tab remaining message).
Proof.
  unfold attemptFailed.
  apply calm_bind; [ apply calm_emit; reflexivity | intros _ ].
  apply calm_bind; [ apply calm_getState | intros st ].
  apply calm_bind.
  - destruct tab as [id | ]; [ | apply calm_mret ].
    case_bool_decide; [ apply calm_closeTab | apply calm_mret ].
  - intros _. destruct remaining; [ apply calm_mret | apply calm_wait ].
Qed.

Lemma traces_attempts (remaining : nat) (url : jsstring) (tab : option TabId) :
  traces host (attempts host remaining url tab) (urlTrace remaining url).
Proof.
  revert tab. induction remaining as [ | remaining IH]; intros tab; cbn [attempts].
  - apply (traces_weaken _ _ _ (yields_mret _)).
    intros r rs [-> ->]. eexists. split; [ reflexivity | ]. left. split; reflexivity.
  - refine (traces_weaken _ _ _
              (traces_bind _ _ _
                 (fun pass r rs =>
                    match pass.2 with
                    | Ok result => r = Ok result /\ rs = []
                    | Throw _ => urlTrace remaining url r rs
                    end)
                 (traces_tryBlock url tab) _) _).
    2:{ intros r rs [(e & -> & (tab' & outcome & rest & [=] & _))
                  | (pass & rs1 & rs2 & -> & (tab' & outcome & rest & [= ->] & -> & Attempt)
                     & Then)].
      cbn [snd] in Then. destruct outcome as [result | error]; cbn in Attempt.
      * destruct Then as [-> ->]. exists result. split; [ reflexivity | ].
        right. exists 0%nat, rest. rewrite app_nil_r.
        split; [ lia | ]. split; [ reflexivity | exact Attempt ].
      * subst rest. destruct Then as (result & -> & [[-> ->] | (before & rest & Lt & -> & Post)]).
        -- eexists. split; [ reflexivity | ]. left. split; reflexivity.
        -- exists result. split; [ reflexivity | ].
           right. exists (S before), rest. split; [ lia | ].
           split; [ reflexivity | exact Post ]. }
    intros pass. destruct pass.2 as [result | error] eqn:Outcome.
    + apply yields_mret.
    + apply calm_then; [ apply calm_attemptFailed | intros _; apply IH ].
Qed.

Lemma traces_processSingleUrl (url : jsstring) :
  traces host (processSingleUrl host url) (urlTrace MAX_RETRIES url).
Proof. apply traces_attempts. Qed.

(** *** Counting requests *)

Lemma opened_app (rs1 rs2 : list Request) : opened (rs1 ++ rs2) = (opened rs1 + opened rs2)%nat.
Proof. unfold opened. rewrite List.filter_app, length_app. reflexivity. Qed.

Lemma sent_app (rs1 rs2 : list Request) : sent (rs1 ++ rs2) = (sent rs1 + sent rs2)%nat.
Proof. unfold sent. rewrite List.filter_app, length_app. reflexivity. Qed.

Lemma opened_replicate (n : nat) (url : jsstring) :
  opened (replicate n (Opened url)) = n /\ sent (replicate n (Opened url)) = 0%nat.
Proof.
  unfold opened, sent. induction n as [ | n [IH1 IH2]]; [ split; reflexivity | ].
  cbn in *. rewrite IH1, IH2. split; reflexivity.
Qed.

(** The requests of one URL are for that URL: a tab for every attempt, at
    least one and at most as many as there are attempts, and at most one
    POST, of a record with a name. *)
Lemma urlTrace_requests (remaining : nat) (url : jsstring) (r : Res UrlResult)
    (rs : list Request) :
  urlTrace remaining url r rs ->
  Forall (batchRequest [url]) rs
  /\ (opened rs <= remaining)%nat
  /\ (0 < remaining -> 0 < opened rs)%nat
  /\ (sent rs <= 1)%nat.
Proof.
  intros (result & _ & [[_ ->] | (before & rest & Lt & -> & (data & Named & -> & _))]).
  - destruct (opened_replicate remaining url) as [-> ->].
    split; [ | lia ]. apply Forall_forall. intros x In.
    apply elem_of_replicate in In as [-> _]. cbn. left.
  - rewrite opened_app, sent_app.
    destruct (opened_replicate (S before) url) as [-> ->].
    assert (opened [Sent (mkPostedProfile url data)] = 0%nat
            /\ sent [Sent (mkPostedProfile url data)] = 1%nat) as [-> ->]
      by (split; reflexivity).
    split; [ | lia ]. apply Forall_app. split.
    + apply Forall_forall. intros x In.
      apply elem_of_replicate in In as [-> _]. cbn. left.
    + apply Forall_singleton. cbn. split; [ left | exact Named ].
Qed.

(** *** The batch *)

Lemma recorded_outcomes (url : jsstring) (results after : BatchResults) :
  recorded url results after ->
  outcomeUrls after ≡ₚ outcomeUrls results ++ [url]
  /\ (counted results -> counted after)
  /\ total (summary after) = total (summary results)
  /\ endTime (summary after) = endTime (summary results).
Proof.
  unfold outcomeUrls, counted.
  intros [(profile & id & ->) | [(error & ->) | (error & ->)]]; cbn;
    rewrite ?map_app, ?length_app; cbn;
    (split; [ solve_Permutation | ]); (split; [ | split; reflexivity ]);
    intros (S1 & S2 & S3); rewrite S1, S2, S3; repeat split; lia.
Qed.

Lemma yields_update (f : ExtensionState -> ExtensionState) {A} (a : A) :
  (forall st, isProcessing (f st) = isProcessing st) ->
  yields host (update f ≫= fun _ => mret a) a.
Proof.
  intros Kept. apply calm_then; [ apply calm_update, Kept | intros _; apply yields_mret ].
Qed.

Lemma calm_announce (i total : nat) (url : jsstring) : calm host (announce i total url).
Proof.
  unfold announce. apply calm_bind; [ apply calm_update; reflexivity | intros _ ].
  apply calm_emit. reflexivity.
Qed.

(** One turn of the loop records one outcome for its URL, whatever
    happens, and makes the requests of that URL. *)
Lemma traces_processUrl (i total : nat) (url : jsstring) (results : BatchResults) :
  traces host (processUrl host i total url results)
    (fun r rs =>
       exists after outcome,
         r = Ok after /\ recorded url results after
         /\ urlTrace MAX_RETRIES url outcome rs).
Proof.
  unfold processUrl.
  refine (traces_weaken _ _ _
            (traces_bind _ _ _
               (fun _ r rs => exists after, r = Ok after /\ recorded url results after
                                /\ rs = [])
               (traces_try _ _
                  (calm_then _ _ _ (calm_announce i total url)
                     (fun _ => traces_processSingleUrl url))) _) _).
  - intros [[profile id | [ | ] error] | error].
    + apply (traces_weaken _ _ _ (yields_update incrSuccessCount _ ltac:(reflexivity))).
      intros r rs [-> ->]. eexists. split; [ reflexivity | ].
      split; [ left; eexists _, _; reflexivity | reflexivity ].
    + apply (traces_weaken _ _ _ (yields_mret _)).
      intros r rs [-> ->]. eexists. split; [ reflexivity | ].
      split; [ right; left; eexists; reflexivity | reflexivity ].
    + apply (traces_weaken _ _ _ (yields_update incrErrorCount _ ltac:(reflexivity))).
      intros r rs [-> ->]. eexists. split; [ reflexivity | ].
      split; [ right; right; eexists; reflexivity | reflexivity ].
    + apply (traces_weaken _ _ _ (yields_update incrErrorCount _ ltac:(reflexivity))).
      intros r rs [-> ->]. eexists. split; [ reflexivity | ].
      split; [ right; right; eexists; reflexivity | reflexivity ].
  - intros r rs [(e & -> & (outcome & [=] & _))
                | (a & rs1 & rs2 & -> & (outcome & [= ->] & Trace)
                   & (after & -> & Recorded & ->))].
    exists after, outcome. rewrite app_nil_r. repeat split; assumption.
Qed.

Lemma batchRequest_later (url : jsstring) (urls : list jsstring) (r : Request) :
  batchRequest urls r -> batchRequest (url :: urls) r.
Proof.
  destruct r as [u | body]; cbn.
  - intros In. right. exact In.
  - intros [In Named]. split; [ right; exact In | exact Named ].
Qed.

Lemma batchRequest_first (url : jsstring) (urls : list jsstring) (r : Request) :
  batchRequest [url] r -> batchRequest (url :: urls) r.
Proof.
  destruct r as [u | body]; cbn.
  - intros ->%list_elem_of_singleton. left.
  - intros [->%list_elem_of_singleton Named]. split; [ left | exact Named ].
Qed.

Lemma traces_batchLoop (urls : list jsstring) (i total : nat) (results : BatchResults) :
  traces host (batchLoop host i total urls results) (loopTrace urls results).
Proof.
  revert i results. induction urls as [ | url rest IH]; intros i results; cbn [batchLoop].
  - apply (traces_weaken _ _ _ (yields_mret _)).
    intros r rs [-> ->]. exists results, 0%nat.
    split; [ reflexivity | ]. split; [ cbn; lia | ]. split; [ intros []; reflexivity | ].
    split; [ cbn; rewrite app_nil_r; reflexivity | ].
    split; [ tauto | ]. split; [ reflexivity | ]. split; [ reflexivity | ].
    split; [ constructor | ]. split; cbn; lia.
  - refine (traces_weaken _ _ _
              (traces_bind _ _ _
                 (fun after r rs =>
                    (r = Ok after /\ rs = []) \/ loopTrace rest after r rs)
                 (traces_processUrl i total url results) _) _).
    + intros after.
      apply calm_then;
        [ destruct (i <? total - 1)%nat; [ apply calm_wait | apply calm_mret ] | intros _ ].
      apply calm_then; [ apply calm_getState | intros st ].
      destruct (negb (isProcessing st)).
      * apply (traces_weaken _ _ _ (yields_mret _)). intros r rs Here. left. exact Here.
      * apply (traces_weaken _ _ _ (IH (S i) after)). intros r rs Later. right. exact Later.
    + intros r rs [(e & -> & (after & outcome & [=] & _))
                  | (a & rs1 & rs2 & -> & (after & outcome & [= ->] & Recorded & Trace)
                     & Then)].
      apply recorded_outcomes in Recorded as (Perm & Counted & Total & End).
      apply urlTrace_requests in Trace as (Here & Opened & _ & Sent).
      assert (First : Forall (batchRequest (url :: rest)) rs1).
      { eapply Forall_impl; [ exact Here | apply batchRequest_first ]. }
      destruct Then as [[-> ->] | (final & visited & -> & Visited & _ & Perm2 & Counted2
                                    & Total2 & End2 & Requests2 & Opened2 & Sent2)].
      * exists after, 1%nat. rewrite app_nil_r.
        split; [ reflexivity | ]. split; [ cbn; lia | ]. split; [ lia | ].
        split; [ exact Perm | ]. split; [ exact Counted | ].
        split; [ exact Total | ]. split; [ exact End | ].
        split; [ exact First | ]. unfold MAX_RETRIES in *. split; lia.
      * exists final, (S visited).
        split; [ reflexivity | ]. split; [ cbn; lia | ]. split; [ lia | ].
        split; [ rewrite Perm2, Perm, <- app_assoc; reflexivity | ].
        split; [ tauto | ]. split; [ congruence | ]. split; [ congruence | ].
        split.
        { apply Forall_app. split; [ exact First | ].
          eapply Forall_impl; [ exact Requests2 | apply batchRequest_later ]. }
        rewrite opened_app, sent_app. unfold MAX_RETRIES in *. split; lia.
Qed.

Lemma traces_processBatchUrls (urls : list jsstring) :
  traces host (processBatchUrls host urls)
    (fun r rs =>
       exists after visited,
         r = Ok after
         /\ (visited <= length urls)%nat
         /\ (urls <> [] -> 0 < visited)%nat
         /\ outcomeUrls after ≡ₚ take visited urls
         /\ counted after
         /\ total (summary after) = length urls
         /\ endTime (summary after) <> None
         /\ Forall (batchRequest urls) rs
         /\ (opened rs <= MAX_RETRIES * visited)%nat
         /\ (sent rs <= visited)%nat).
Proof.
  unfold processBatchUrls.
  apply calm_then; [ apply calm_getTick | intros now ].
  refine (traces_weaken _ _ _
            (traces_bind _ _ _
               (fun results r rs => exists now', r = Ok (finish now' results) /\ rs = [])
               (traces_batchLoop urls 0 (length urls) (emptyResults urls (dateNow host now)))
               _) _).
  - intros results. apply calm_then; [ apply calm_getTick | intros now' ].
    apply (traces_weaken _ _ _ (yields_mret _)).
    intros r rs [-> ->]. eexists. split; reflexivity.
  - intros r rs [(e & -> & (after & visited & [=] & _))
                | (a & rs1 & rs2 & ->
                   & (after & visited & [= ->] & Visited & Some & Perm & Counted & Total
                      & _ & Requests & Opened & Sent)
                   & (now' & -> & ->))].
    exists (finish now' after), visited. rewrite app_nil_r.
    split; [ reflexivity | ]. split; [ exact Visited | ]. split; [ exact Some | ].
    split; [ exact Perm | ].
    split; [ apply Counted; repeat split | ].
    split; [ exact Total | ]. split; [ discriminate | ].
    repeat split; assumption.
Qed.

(** X21: whatever the browser, the page and the backend do, one URL
    costs at least one and at most MAX_RETRIES requests for a tab, all for
    that URL, and at most one POST. The POST is the last request, it
    carries the URL and a record with a name, and its answer, good or
    bad, ends the processing of the URL: a failed save is never
    retried. When every attempt fails nothing is posted. *)
Theorem one_url_one_post (url : jsstring) (w : World) :
  exists new result,
    events (processSingleUrl host url w).2 = events w ++ new
    /\ (processSingleUrl host url w).1 = Ok result
    /\ urlTrace MAX_RETRIES url (Ok result) (requests new)
    /\ (1 <= opened (requests new) <= MAX_RETRIES)%nat
    /\ (sent (requests new) <= 1)%nat
    /\ Forall (batchRequest [url]) (requests new).
Proof.
  destruct (traces_processSingleUrl url w) as (new & Events & Trace & _).
  pose proof Trace as (result & Run & _).
  exists new, result. split; [ exact Events | ]. split; [ exact Run | ].
  rewrite Run in Trace. split; [ exact Trace | ].
  apply urlTrace_requests in Trace as (Here & Opened & Some & Sent).
  unfold MAX_RETRIES in *. repeat split; try assumption; lia.
Qed.

(** X22: a batch asks the browser for tabs and the backend for saves
    only for its own URLs: every tab is opened on a URL of the batch,
    every posted record has a name and carries a URL of the batch, and
    there are at most MAX_RETRIES tabs and one POST per URL. *)
Theorem batch_requests_bounded (urls : list jsstring) (w : World) :
  exists new,
    events (processBatchUrls host urls w).2 = events w ++ new
    /\ Forall (batchRequest urls) (requests new)
    /\ (opened (requests new) <= MAX_RETRIES * length urls)%nat
    /\ (sent (requests new) <= length urls)%nat.
Proof.
  destruct (traces_processBatchUrls urls w)
    as (new & Events & (after & visited & _ & Visited & _ & _ & _ & _ & _
                        & Requests & Opened & Sent) & _).
  exists new. split; [ exact Events | ]. split; [ exact Requests | ].
  unfold MAX_RETRIES in *. split; lia.
Qed.

(** X23: [processBatchUrls] always returns, and its results add up: the
    URLs with an outcome are the first [visited] URLs of the batch, each
    in exactly one of the three lists, at least one of them when the
    batch is not empty; the three counters of the summary are the
    lengths of the lists and sum to [visited]; [total] is the size of the
    batch and [endTime] is set. *)
Theorem batch_summary_adds_up (urls : list jsstring) (w : World) :
  exists results visited,
    (processBatchUrls host urls w).1 = Ok results
    /\ (visited <= length urls)%nat
    /\ (urls <> [] -> 0 < visited)%nat
    /\ outcomeUrls results ≡ₚ take visited urls
    /\ counted results
    /\ (successes (summary results) + errors (summary results)
        + duplicates (summary results) = visited)%nat
    /\ total (summary results) = length urls
    /\ endTime (summary results) <> None.
Proof.
  destruct (traces_processBatchUrls urls w)
    as (new & _ & (after & visited & Run & Visited & Some & Perm & Counted & Total
                   & End & _) & _).
  exists after, visited.
  split; [ exact Run | ]. split; [ exact Visited | ]. split; [ exact Some | ].
  split; [ exact Perm | ]. split; [ exact Counted | ].
  split; [ | split; assumption ].
  destruct Counted as (-> & -> & ->).
  apply Permutation_length in Perm. unfold outcomeUrls in Perm.
  rewrite !length_app, !length_map, length_take in Perm. lia.
Qed.

(** *** A batch that is never stopped *)

Lemma batchLoop_complete (urls : list jsstring) (i total : nat) (results : BatchResults)
    (w : World) :
  quiet host ->
  isProcessing (ext w) = true ->
  exists after w',
    batchLoop host i total urls results w = (Ok after, w')
    /\ outcomeUrls after ≡ₚ outcomeUrls results ++ urls
    /\ (counted results -> counted after)
    /\ isProcessing (ext w') = true.
Proof.
  intros Quiet. revert i results w.
  induction urls as [ | url rest IH]; intros i results w Running; cbn [batchLoop].
  - exists results, w. split; [ reflexivity | ]. rewrite app_nil_r.
    split; [ reflexivity | ]. split; [ tauto | exact Running ].
  - unfold mbind at 1. unfold M_bind at 1.
    destruct (traces_processUrl i total url results w)
      as (new & _ & (after & outcome & Run & Recorded & _) & Flag & _).
    destruct (processUrl host i total url results w) as [r1 w1].
    cbn [fst snd] in Run, Flag. subst r1.
    apply recorded_outcomes in Recorded as (Perm & Counted & _).
    unfold mbind at 1. unfold M_bind at 1.
    assert (Pause : calm host (if (i <? total - 1)%nat then wait host PROCESSING_DELAY
                               else mret tt))
      by (destruct (i <? total - 1)%nat; [ apply calm_wait | apply calm_mret ]).
    destruct (Pause w1) as (new2 & _ & [[[] Run2] _] & Flag2 & _).
    destruct ((if (i <? total - 1)%nat then wait host PROCESSING_DELAY else mret tt) w1)
      as [r2 w2].
    cbn [fst snd] in Run2, Flag2. subst r2.
    unfold mbind at 1. unfold M_bind at 1. unfold getState.
    assert (Still : isProcessing (ext w2) = true)
      by (rewrite Flag2, Flag by exact Quiet; exact Running).
    rewrite Still. cbn [negb].
    destruct (IH (S i) after w2 Still) as (final & w3 & -> & Perm3 & Counted3 & Running3).
    exists final, w3. split; [ reflexivity | ].
    split; [ rewrite Perm3, Perm, <- app_assoc; reflexivity | ].
    split; [ tauto | exact Running3 ].
Qed.

Lemma calm_updateStatistics (results : BatchResults) :
  calm host (updateStatistics host results).
Proof.
  unfold updateStatistics.
  apply calm_bind; [ | intros _; apply calm_mret ].
  apply calm_try, silent_bind; [ apply silent_await | intros _; apply silent_await ].
Qed.

(** One batch alone in the sequential model: a start request that is
    accepted and never followed by a stop request is answered with
    results in which every URL of the batch has exactly one outcome. *)
Lemma lone_batch_visits_every_url (url : jsstring) (urls : list jsstring)
    (w : World) :
  quiet host ->
  isProcessing (ext w) = false ->
  exists results time,
    (handleStartBatchProcessing host (Some (url :: urls)) w).1
    = Ok (StartCompleted results time)
    /\ outcomeUrls results ≡ₚ url :: urls
    /\ counted results
    /\ (successes (summary results) + errors (summary results)
        + duplicates (summary results) = length (url :: urls))%nat.
Proof.
  intros Quiet NotRunning. unfold handleStartBatchProcessing.
  unfold mbind at 1. unfold M_bind at 1. unfold getState. rewrite NotRunning.
  unfold mbind at 1. unfold M_bind at 1. unfold try.
  unfold mbind at 1. unfold M_bind at 1. unfold getTick at 1.
  unfold mbind at 1. unfold M_bind at 1. unfold update at 1.
  unfold mbind at 1. unfold M_bind at 1.
  unfold processBatchUrls.
  unfold mbind at 1. unfold M_bind at 1. unfold getTick at 1.
  unfold mbind at 1. unfold M_bind at 1.
  match goal with
  | |- context [batchLoop host 0 ?total ?us ?empty ?started] =>
      destruct (batchLoop_complete us 0 total empty started Quiet eq_refl)
        as (after & w1 & -> & Perm & Counted & _)
  end.
  unfold mbind at 1. unfold M_bind at 1. unfold getTick at 1.
  unfold mret at 1. unfold M_ret at 1.
  unfold mbind at 1. unfold M_bind at 1.
  destruct (calm_updateStatistics (finish (dateNow host (tick w1)) after) w1)
    as (new & _ & [[[] Run] _] & _).
  destruct (updateStatistics host (finish (dateNow host (tick w1)) after) w1) as [r2 w2].
  cbn [fst snd] in Run. subst r2.
  cbn [fst snd mbind M_bind update getTick mret M_ret].
  eexists _, _. split; [ reflexivity | ].
  assert (Done : counted (finish (dateNow host (tick w1)) after))
    by (apply Counted; repeat split).
  assert (All : outcomeUrls after ≡ₚ url :: urls) by exact Perm.
  split; [ exact All | ]. split; [ exact Done | ].
  destruct Done as (-> & -> & ->).
  apply Permutation_length in All. unfold outcomeUrls in All.
  rewrite !length_app, !length_map in All. cbn [finish successful failed skipped].
  cbn [length] in *. lia.
Qed.

(** *** A stop request *)

Lemma traces_off {A} (m : M A) (T : Res A -> list Request -> Prop) (w : World) :
  traces host m T ->
  isProcessing (ext w) = false -> isProcessing (ext (m w).2) = false.
Proof. intros H Off. destruct (H w) as (new & _ & _ & _ & Stays). exact (Stays Off). Qed.

(** A stop request that arrives while the worker waits for the tab is
    delivered there, and the pass ends with the flag cleared. *)
Lemma tryBlock_stopped (url : jsstring) (tab : option TabId) (w : World) :
  StopRequested ∈ interrupts host (tick w) ->
  isProcessing (ext (tryBlock host url tab w).2) = false.
Proof.
  intros Stop. unfold tryBlock.
  unfold mbind at 1. unfold M_bind at 1. unfold emit at 1.
  unfold mbind at 1. unfold M_bind at 1. unfold try at 1. unfold await at 1.
  cbn [tick ext events].
  destruct (deliver_all_silent (interrupts host (tick w))
              {| ext := ext w; tick := tick w; events := events w ++ [CreateCalled url] |})
    as (new & _ & _ & _ & Off).
  specialize (Off (or_intror Stop)). cbn [tick ext events] in Off.
  destruct (tabsCreate host (tick w) url) as [id | error].
  - refine (traces_off _ _ _
              (traces_bind _ _ _ (fun outcome r rs => r = Ok (Some id, outcome) /\ rs = [])
                 (traces_try _ _ (traces_scrapeTab url id))
                 (fun outcome => yields_mret (Some id, outcome))) _).
    exact Off.
  - exact Off.
Qed.

Lemma attempts_stopped (remaining : nat) (url : jsstring) (tab : option TabId) (w : World) :
  StopRequested ∈ interrupts host (tick w) ->
  isProcessing (ext (attempts host (S remaining) url tab w).2) = false.
Proof.
  intros Stop. cbn [attempts]. unfold mbind at 1. unfold M_bind at 1.
  pose proof (tryBlock_stopped url tab w Stop) as Off.
  destruct (tryBlock host url tab w) as [[pass | error] w1]; cbn [snd] in Off;
    [ | exact Off ].
  destruct pass.2 as [result | error]; [ exact Off | ].
  refine (traces_off _ _ _
            (calm_then _ _ _ (calm_attemptFailed url pass.1 remaining error)
               (fun _ => traces_attempts remaining url pass.1)) Off).
Qed.

Lemma processUrl_stopped (i total : nat) (url : jsstring) (results : BatchResults)
    (w : World) :
  StopRequested ∈ interrupts host (tick w) ->
  isProcessing (ext (processUrl host i total url results w).2) = false.
Proof.
  intros Stop. unfold processUrl.
  unfold mbind at 1. unfold M_bind at 1. unfold try at 1.
  unfold mbind at 1. unfold M_bind at 1.
  unfold announce at 1. unfold mbind at 1. unfold M_bind at 1.
  unfold update at 1. unfold emit at 1. cbn [tick ext events].
  match goal with
  | |- context [processSingleUrl host url ?started] =>
      pose proof (attempts_stopped 1 url None started Stop) as Off;
      change (attempts host 2 url None started) with (processSingleUrl host url started) in Off;
      destruct (processSingleUrl host url started) as [[[profile id | [ | ] error] | error] w1]
  end; cbn [snd] in Off.
  - exact (traces_off _ _ _ (yields_update incrSuccessCount _ ltac:(reflexivity)) Off).
  - exact Off.
  - exact (traces_off _ _ _ (yields_update incrErrorCount _ ltac:(reflexivity)) Off).
  - exact (traces_off _ _ _ (yields_update incrErrorCount _ ltac:(reflexivity)) Off).
Qed.

(** One batch alone in the sequential model: a stop request that arrives
    while the worker waits for the tab of a URL does not interrupt that
    URL, and the loop ends after it. *)
Lemma batchLoop_stopped (i total : nat) (url : jsstring)
    (rest : list jsstring) (results : BatchResults) (w : World) :
  StopRequested ∈ interrupts host (tick w) ->
  exists after w' new,
    batchLoop host i total (url :: rest) results w = (Ok after, w')
    /\ recorded url results after
    /\ events w' = events w ++ new
    /\ Forall (batchRequest [url]) (requests new)
    /\ isProcessing (ext w') = false.
Proof.
  intros Stop. cbn [batchLoop]. unfold mbind at 1. unfold M_bind at 1.
  destruct (traces_processUrl i total url results w)
    as (new & Events & (after & outcome & Run & Recorded & Trace) & _).
  pose proof (processUrl_stopped i total url results w Stop) as Off.
  destruct (processUrl host i total url results w) as [r1 w1].
  cbn [fst snd] in Run, Off, Events. subst r1.
  unfold mbind at 1. unfold M_bind at 1.
  assert (Pause : calm host (if (i <? total - 1)%nat then wait host PROCESSING_DELAY
                             else mret tt))
    by (destruct (i <? total - 1)%nat; [ apply calm_wait | apply calm_mret ]).
  destruct (Pause w1) as (new2 & Events2 & [[[] Run2] Silent2] & _ & Stays).
  destruct ((if (i <? total - 1)%nat then wait host PROCESSING_DELAY else mret tt) w1)
    as [r2 w2].
  cbn [fst snd] in Run2, Stays, Events2. subst r2.
  unfold mbind at 1. unfold M_bind at 1. unfold getState.
  rewrite (Stays Off). cbn [negb].
  exists after, w2, (new ++ new2). split; [ reflexivity | ].
  split; [ exact Recorded | ].
  split; [ rewrite Events2, Events, app_assoc; reflexivity | ].
  split; [ | exact (Stays Off) ].
  rewrite requests_app, Silent2, app_nil_r.
  apply urlTrace_requests in Trace as (Here & _). exact Here.
Qed.

(** *** Waiting for a tab *)

Lemma checkTabStatus_polls (remaining : nat) (tab : TabId) (w : World) :
  exists r w',
    checkTabStatus host remaining tab w = (r, w')
    /\ (tick w <= tick w' <= tick w + 2 * remaining)%nat
    /\ match r with
       | Ok _ =>
           exists t, (tick w <= t < tick w')%nat
             /\ tabsGet host t tab = Ok true /\ timeoutFirst host t = false
       | Throw message =>
           message = lit "Tab loading timeout"
           \/ message = lit "Tab loading timeout - max checks reached"
           \/ exists lastError, message = lit "Tab not found: " ++ lastError
       end.
Proof.
  revert w. induction remaining as [ | remaining IH]; intros w; cbn [checkTabStatus].
  - eexists _, _. split; [ reflexivity | ]. split; [ lia | ]. right. left. reflexivity.
  - unfold mbind at 1. unfold M_bind at 1. unfold getTick at 1.
    unfold mbind at 1. unfold M_bind at 1. unfold try at 1.
    destruct (await_run host (fun t => tabsGet host t tab) w) as (new & w1 & -> & Tick & _).
    destruct (timeoutFirst host (tick w)) eqn:Timer.
    { eexists _, _. split; [ reflexivity | ]. split; [ lia | ]. left. reflexivity. }
    destruct (tabsGet host (tick w) tab) as [[ | ] | lastError] eqn:Answer.
    + eexists _, _. split; [ reflexivity | ]. split; [ cbn; lia | ].
      exists (tick w). split; [ lia | ]. split; assumption.
    + destruct remaining as [ | remaining'].
      { eexists _, _. split; [ reflexivity | ]. split; [ lia | ]. right. left. reflexivity. }
      unfold mbind at 1. unfold M_bind at 1.
      destruct (await_run host (fun _ => Ok tt) w1) as (new2 & w2 & -> & Tick2 & _).
      destruct (IH w2) as (r & w3 & -> & Bound & Outcome).
      exists r, w3. split; [ reflexivity | ]. split; [ lia | ].
      destruct r as [[] | message]; [ | exact Outcome ].
      destruct Outcome as (t & Range & Complete & Timer').
      exists t. split; [ lia | ]. split; assumption.
    + eexists _, _. split; [ reflexivity | ]. split; [ lia | ].
      right. right. exists lastError. reflexivity.
Qed.

(** X26: [waitForTabComplete] reports a tab as loaded only when a status
    poll has answered 'complete' before the timer went off; otherwise it
    throws one of its three errors. It returns after at most
    [maxChecks] polls, a poll and the wait that follows it being two
    suspension points; that is 90 polls for the configured timeout of 45
    seconds. *)
Theorem tab_is_loaded_only_when_reported (tab : TabId) (timeout : N) (w : World) :
  exists r w',
    waitForTabComplete host tab timeout w = (r, w')
    /\ (tick w <= tick w' <= tick w + 2 * maxChecks timeout)%nat
    /\ maxChecks TAB_TIMEOUT = 90%nat
    /\ match r with
       | Ok _ =>
           exists t, (tick w <= t < tick w')%nat
             /\ tabsGet host t tab = Ok true /\ timeoutFirst host t = false
       | Throw message =>
           message = lit "Tab loading timeout"
           \/ message = lit "Tab loading timeout - max checks reached"
           \/ exists lastError, message = lit "Tab not found: " ++ lastError
       end.
Proof.
  unfold waitForTabComplete.
  destruct (checkTabStatus_polls (maxChecks timeout) tab w) as (r & w' & Run & Bound & Outcome).
  exists r, w'. split; [ exact Run | ]. split; [ exact Bound | ].
  split; [ reflexivity | exact Outcome ].
Qed.

End RequestFacts.

(** *** Runs of the examples *)

Lemma answer_decides_the_outcome_witness :
  (Background.submitProfile conflictHost (lit "https://www.linkedin.com/in/ada") 7%nat
     (Extractor.Extracted adaProfile) initialWorld).1
  = Ok (Background.UrlFailure true (lit "Profile with this LinkedIn URL already exists")).
Proof.
  exact (answer_decides_the_outcome sampleValidator conflictHost
           (Backend.postProfile sampleValidator) 9 adaBody adaStore
           (lit "Profile created successfully") (lit "https://www.linkedin.com/in/ada")
           7%nat (Extractor.Extracted adaProfile) initialWorld
           postProfile_is_handler eq_refl eq_refl).
Defined.

Lemma sampleHost_quiet : quiet sampleHost.
Proof. intros t In. inversion In. Qed.

Example stopped_batch_requests :
  requests (Background.events
              (Background.batchLoop stoppingHost 0 2 [profileUrl "a"; profileUrl "b"]
                 (Background.emptyResults [profileUrl "a"; profileUrl "b"] 0)
                 initialWorld).2)
  = [ Opened (profileUrl "a");
      Sent (Background.mkPostedProfile (profileUrl "a") (Extractor.Extracted adaProfile)) ].
Proof. vm_compute. reflexivity. Qed.

(** ** A count written in decimal is read back *)

Section CountFacts.

Import Extractor Background.

Lemma lit_cons (c : ascii) (s : string) : lit (String c s) = N_of_ascii c :: lit s.
Proof. reflexivity. Qed.

Lemma parseInt_acc (d : Decimal.uint) (p : positive) :
  fold_left (fun acc c => 10 * acc + (c - 48)) (lit (NilEmpty.string_of_uint d)) (N.pos p)
  = N.pos (Pos.of_uint_acc d p).
Proof.
  revert p. induction d as [ | d IH | d IH | d IH | d IH | d IH | d IH | d IH | d IH
                           | d IH | d IH ]; intros p;
    cbn [NilEmpty.string_of_uint Pos.of_uint_acc]; [ reflexivity | .. ];
    rewrite lit_cons; cbn [fold_left];
    match goal with
    | |- context [N_of_ascii ?c] =>
        let v := eval vm_compute in (N_of_ascii c) in change (N_of_ascii c) with v
    end;
    rewrite <- IH; f_equal; lia.
Qed.

Lemma parseInt_uint (d : Decimal.uint) :
  parseInt (lit (NilEmpty.string_of_uint d)) = N.of_uint d.
Proof.
  unfold parseInt, N.of_uint.
  induction d as [ | d IH | d IH | d IH | d IH | d IH | d IH | d IH | d IH
                 | d IH | d IH ];
    cbn [NilEmpty.string_of_uint Pos.of_uint]; [ reflexivity | .. ];
    rewrite lit_cons; cbn [fold_left];
    match goal with
    | |- context [N_of_ascii ?c] =>
        let v := eval vm_compute in (N_of_ascii c) in change (N_of_ascii c) with v
    end;
    [ exact IH | .. ];
    match goal with
    | |- fold_left _ _ ?acc = _ =>
        let v := eval vm_compute in acc in change acc with v
    end;
    apply parseInt_acc.
Qed.

(** [parseInt] reads back the decimal writing of a number. *)
Lemma parseInt_decimal (n : N) : parseInt (decimal n) = n.
Proof.
  unfold decimal, NilZero.string_of_uint.
  destruct (N.to_uint n) eqn:Digits;
    try (rewrite <- Digits at 1; rewrite <- (DecimalN.Unsigned.of_to n) at 2;
         rewrite Digits; apply parseInt_uint).
  destruct (to_uint_not_nil n Digits).
Qed.

Lemma decimal_not_empty (n : N) : exists c rest, decimal n = c :: rest /\ isDigit c = true.
Proof.
  destruct (decimal n) as [ | c rest] eqn:Text.
  - exfalso. unfold decimal, NilZero.string_of_uint in Text.
    destruct (N.to_uint n) eqn:Digits; discriminate Text.
  - exists c, rest. split; [ reflexivity | ].
    apply (decimal_digits n). rewrite Text. left.
Qed.

Lemma numberTail_digits (digits rest : jsstring) (c : N) :
  (forall d, d ∈ digits -> isDigit d = true) ->
  isDigit c = false -> (c =? 44) = false ->
  numberTail (digits ++ c :: rest) = digits.
Proof.
  intros Digits Other Comma. induction digits as [ | d digits IH]; cbn [app numberTail].
  - rewrite Other, Comma. reflexivity.
  - rewrite (Digits d) by left. f_equal. apply IH.
    intros x In. apply Digits. right. exact In.
Qed.

Lemma stripCommas_digits (digits : jsstring) :
  (forall d, d ∈ digits -> isDigit d = true) -> stripCommas digits = digits.
Proof.
  intros Digits. unfold stripCommas. induction digits as [ | d digits IH]; [ reflexivity | ].
  etrans; [ apply (filter_cons (fun c : N => c ≠ 44) d digits) | ].
  destruct (decide (d ≠ 44)) as [Kept | Comma].
  - f_equal. apply IH. intros x In. apply Digits. right. exact In.
  - exfalso. apply Comma. intros ->. specialize (Digits 44 ltac:(left)).
    discriminate Digits.
Qed.

Lemma toLowerCase_digits (digits : jsstring) :
  (forall d, d ∈ digits -> isDigit d = true) -> toLowerCase digits = digits.
Proof.
  intros Digits. unfold toLowerCase. induction digits as [ | d digits IH]; [ reflexivity | ].
  cbn [map]. rewrite IH by (intros x In; apply Digits; right; exact In). f_equal.
  specialize (Digits d ltac:(left)). unfold isDigit in Digits. unfold lowerUnit.
  apply andb_prop in Digits as [Low High]. apply N.leb_le in Low, High.
  rewrite (proj2 (N.leb_gt 65 d)) by lia. reflexivity.
Qed.

(** What Method 1 reads in the text of a count written in decimal and
    followed by the keyword. *)
Lemma count_text_read (n : N) :
  let text := decimal n ++ lit " connections" in
  trim text = text
  /\ includes (toLowerCase text) (lit "connection") = true
  /\ option_map countOf (matchNumber text) = Some n.
Proof.
  cbv zeta. destruct (decimal_not_empty n) as (c & rest & Text & Digit).
  pose proof (decimal_digits n) as Digits.
  split; [ | split ].
  - unfold trim, trimEnd.
    rewrite (trimStart_fixed (decimal n ++ lit " connections")).
    + rewrite rev_app_distr.
      change (rev (lit " connections")) with (115 :: rev (lit " connection")).
      cbn [app trimStart]. change (isSpace 115) with false. cbv iota.
      change (115 :: rev (lit " connection") ++ rev (decimal n))
        with (rev (lit " connections") ++ rev (decimal n)).
      rewrite <- rev_app_distr, rev_involutive. reflexivity.
    + rewrite Text. cbn. unfold isDigit in Digit.
      apply andb_prop in Digit as [Low High]. apply N.leb_le in Low, High.
      unfold isSpace.
      repeat match goal with
             | |- context [(?a <=? ?b)] =>
                 first [ rewrite (proj2 (N.leb_le a b)) by lia
                       | rewrite (proj2 (N.leb_gt a b)) by lia ]
             | |- context [(?a =? ?b)] => rewrite (proj2 (N.eqb_neq a b)) by lia
             end.
      reflexivity.
  - unfold toLowerCase. rewrite map_app. fold (toLowerCase (decimal n)).
    rewrite (toLowerCase_digits _ Digits).
    apply includes_spec. exists (decimal n ++ [32]), [115].
    rewrite <- app_assoc. reflexivity.
  - rewrite Text. cbn [app matchNumber]. rewrite Digit. cbn [option_map]. f_equal.
    change (lit " connections") with (32 :: lit "connections").
    rewrite numberTail_digits; [ | | reflexivity | reflexivity ].
    + rewrite <- Text. unfold countOf.
      rewrite (stripCommas_digits _ Digits). apply parseInt_decimal.
    + intros d In. apply Digits. rewrite Text. right. exact In.
Qed.

Lemma countBySelector_first (doc : Document) (selectors : list jsstring)
    (element : Element) (n : N) :
  firstFound doc selectors element ->
  textContent element = decimal n ++ lit " connections" ->
  countBySelector (lit "connection") doc selectors = n.
Proof.
  intros (before & selector & after & -> & Nothing & Found) Text.
  induction before as [ | s before IH]; cbn [app countBySelector].
  - rewrite Found, Text.
    destruct (count_text_read n) as (-> & -> & Read).
    destruct (matchNumber _) as [group | ]; [ | discriminate Read ].
    injection Read as Read. exact Read.
  - assert (Rest : countBySelector (lit "connection") doc (before ++ selector :: after) = n).
    { apply IH. intros s' e In. apply Nothing. right. exact In. }
    destruct (querySelector doc s) as [[e | ] | message] eqn:Query; try exact Rest.
    destruct (Nothing s e ltac:(left) Query).
Qed.

(** X27: when the first connection element found on the page reads
    "<n> connections", with n written in decimal and n > 0, the returned
    record carries exactly n connections if n is at most 100,000 and 0
    otherwise: the number is read back, and neither the scan of the
    other elements nor the links change it. *)
Theorem written_count_is_read_back (doc : Document) (p : ProfileData)
    (element : Element) (n : N) :
  extractLinkedInProfileAdvanced doc = Extracted p ->
  firstFound doc connectionSelectors element ->
  textContent element = decimal n ++ lit " connections" ->
  0 < n ->
  connectionCount p = if 100000 <? n then 0 else n.
Proof.
  unfold extractLinkedInProfileAdvanced.
  destruct (extractBody doc) as [q | message] eqn:Body; [ | discriminate ].
  intros [= <-] Found Text Positive.
  apply extractBody_fields in Body as (_ & counts & Parsed & Sane).
  unfold sanityCheck in Sane. injection Sane as -> _.
  unfold parseCounts in Parsed.
  rewrite (countBySelector_first doc _ element n Found Text) in Parsed.
  unfold fallbackCounts in Parsed. cbn [fst snd] in Parsed.
  rewrite (proj2 (N.eqb_neq n 0)) in Parsed by lia.
  cbn [andb mbind res_bind fst snd] in Parsed.
  change (linkCount doc connectionLinkSelector (lit "connection") 100000 n)
    with (if n =? 0
          then links ← querySelectorAll doc connectionLinkSelector;
               Ok (countByLink (lit "connection") 100000 links)
          else Ok n) in Parsed.
  rewrite (proj2 (N.eqb_neq n 0)) in Parsed by lia.
  cbn [mbind res_bind] in Parsed.
  destruct (linkCount _ _ _ _ _) as [followers | message]; [ | discriminate Parsed ].
  cbn [mbind res_bind] in Parsed. injection Parsed as <-. reflexivity.
Qed.

Lemma written_count_is_read_back_witness :
  extractLinkedInProfileAdvanced countedPage = Extracted countedProfile
  /\ connectionCount countedProfile = 4321.
Proof.
  split; [ vm_compute; reflexivity | ].
  refine (written_count_is_read_back countedPage countedProfile
            (mkElement (decimal 4321 ++ lit " connections") None (fun _ => None))
            4321 _ _ _ _).
  - vm_compute. reflexivity.
  - exists [], (lit "a[href*='/search/results/people/?network=%5B%22F%22%5D'] .t-black--light .t-bold"),
      (tail connectionSelectors).
    split; [ reflexivity | ]. split; [ | vm_compute; reflexivity ].
    intros s e In. inversion In.
  - reflexivity.
  - lia.
Defined.

End CountFacts.

(** ** One activity alone is the worker of the sequential model *)

Section ResumableFacts.

Import Background.

Variable host : Host.

Lemma run_bind {A B} (p : Resumable.Prog A) (f : A -> Resumable.Prog B) (w : World) :
  Resumable.run host (p ≫= f) w
  = match Resumable.run host p w with
    | (Ok a, w') => Resumable.run host (f a) w'
    | (Throw error, w') => (Throw error, w')
    end.
Proof.
  revert w. induction p as [a | message | k IH | k IH | e k IH | g k IH | C call k IH];
    intros w.
  - reflexivity.
  - reflexivity.
  - exact (IH (ext w) w).
  - exact (IH (tick w) w).
  - exact (IH _).
  - exact (IH _).
  - exact (IH _ _).
Qed.

Lemma run_try {A} (p : Resumable.Prog A) (w : World) :
  Resumable.run host (Resumable.try p) w = try (Resumable.run host p) w.
Proof.
  revert w. induction p as [a | message | k IH | k IH | e k IH | g k IH | C call k IH];
    intros w.
  - reflexivity.
  - reflexivity.
  - exact (IH (ext w) w).
  - exact (IH (tick w) w).
  - exact (IH _).
  - exact (IH _).
  - exact (IH _ _).
Qed.

(** *** The rules of [simulates] *)

Lemma simulates_bind {A B} (p : Resumable.Prog A) (m : M A)
    (f : A -> Resumable.Prog B) (g : A -> M B) :
  simulates host p m -> (forall a, simulates host (f a) (g a)) ->
  simulates host (p ≫= f) (m ≫= g).
Proof.
  intros First Then w. rewrite run_bind, First.
  unfold mbind at 1, M_bind. destruct (m w) as [[a | error] w']; [ apply Then | reflexivity ].
Qed.

Lemma simulates_try {A} (p : Resumable.Prog A) (m : M A) :
  simulates host p m -> simulates host (Resumable.try p) (try m).
Proof. intros Same w. rewrite run_try. unfold try. rewrite Same. reflexivity. Qed.

Lemma simulates_mret {A} (a : A) : simulates host (mret a) (mret a).
Proof. intros w. reflexivity. Qed.

Lemma simulates_throw {A} (message : jsstring) :
  simulates host (Resumable.throw message) (throw (A := A) message).
Proof. intros w. reflexivity. Qed.

Lemma simulates_getState : simulates host Resumable.getState getState.
Proof. intros w. reflexivity. Qed.

Lemma simulates_getTick : simulates host Resumable.getTick getTick.
Proof. intros w. reflexivity. Qed.

Lemma simulates_emit (e : Event) : simulates host (Resumable.emit e) (emit e).
Proof. intros w. reflexivity. Qed.

Lemma simulates_update (f : ExtensionState -> ExtensionState) :
  simulates host (Resumable.update f) (update f).
Proof. intros w. reflexivity. Qed.

Lemma simulates_await {A} (call : nat -> Res A) :
  simulates host (Resumable.await call) (await host call).
Proof.
  intros w. unfold Resumable.await. cbn [Resumable.run].
  unfold mbind, M_bind, try, await. destruct (call (tick w)); reflexivity.
Qed.

Lemma simulates_wait (ms : N) : simulates host (Resumable.wait ms) (wait host ms).
Proof.
  unfold Resumable.wait, wait.
  apply simulates_bind; [ apply simulates_emit | intros _; apply simulates_await ].
Qed.

(** One step of a proof that a function of [Resumable] is the function of
    the same name of [Worker]: both are the same text. *)
Ltac simulate :=
  repeat match goal with
         | H : simulates _ ?p ?m |- simulates _ ?p ?m => exact H
         | |- simulates _ (mret _) _ => apply simulates_mret
         | |- simulates _ (Resumable.throw _) _ => apply simulates_throw
         | |- simulates _ Resumable.getState _ => apply simulates_getState
         | |- simulates _ Resumable.getTick _ => apply simulates_getTick
         | |- simulates _ (Resumable.emit _) _ => apply simulates_emit
         | |- simulates _ (Resumable.update _) _ => apply simulates_update
         | |- simulates _ (Resumable.await _) _ => apply simulates_await
         | |- simulates _ (Resumable.wait _) _ => apply simulates_wait
         | |- simulates _ (Resumable.try _) _ => apply simulates_try
         | |- simulates _ (mbind _ _) _ => apply simulates_bind; [ | intros ? ]
         | |- simulates _ (if ?c then _ else _) _ => destruct c
         | |- simulates _ (match ?x with _ => _ end) _ => destruct x
         end.

(** *** The functions of the worker *)

Lemma simulates_checkTabStatus (remaining : nat) (tabId : TabId) :
  simulates host (Resumable.checkTabStatus host remaining tabId)
    (checkTabStatus host remaining tabId).
Proof.
  induction remaining as [ | remaining IH]; cbn [Resumable.checkTabStatus checkTabStatus].
  - simulate.
  - apply simulates_bind; [ simulate | intros now ].
    apply simulates_bind; [ simulate | intros answer ].
    destruct (timeoutFirst host now); [ simulate | ].
    destruct answer as [[ | ] | lastError]; [ simulate | | simulate ].
    destruct remaining; [ simulate | ].
    apply simulates_bind; [ simulate | intros _; exact IH ].
Qed.

Lemma simulates_waitForTabComplete (tabId : TabId) (timeout : N) :
  simulates host (Resumable.waitForTabComplete host tabId timeout)
    (waitForTabComplete host tabId timeout).
Proof.
  unfold Resumable.waitForTabComplete, waitForTabComplete. apply simulates_checkTabStatus.
Qed.

Lemma simulates_closeTab (tabId : TabId) :
  simulates host (Resumable.closeTab host tabId) (closeTab host tabId).
Proof. unfold Resumable.closeTab, closeTab. simulate. Qed.

Lemma simulates_extractProfileFromTab (tabId : TabId) :
  simulates host (Resumable.extractProfileFromTab host tabId)
    (extractProfileFromTab host tabId).
Proof. unfold Resumable.extractProfileFromTab, extractProfileFromTab. simulate. Qed.

Lemma simulates_saveProfileToBackend (profileData : PostedProfile) :
  simulates host (Resumable.saveProfileToBackend host profileData)
    (saveProfileToBackend host profileData).
Proof. unfold Resumable.saveProfileToBackend, saveProfileToBackend. simulate. Qed.

Lemma simulates_submitProfile (url : jsstring) (tab : TabId)
    (profileData : Extractor.Extraction) :
  simulates host (Resumable.submitProfile host url tab profileData)
    (submitProfile host url tab profileData).
Proof.
  unfold Resumable.submitProfile, submitProfile.
  pose proof simulates_saveProfileToBackend. pose proof simulates_closeTab.
  destruct (negb _); [ simulate | ].
  apply simulates_bind; [ auto | intros [id | error] ];
    (apply simulates_bind; [ auto | intros _; simulate ]).
Qed.

Lemma simulates_scrapeTab (url : jsstring) (tab : TabId) :
  simulates host (Resumable.scrapeTab host url tab) (scrapeTab host url tab).
Proof.
  unfold Resumable.scrapeTab, scrapeTab.
  apply simulates_bind; [ simulate | intros _ ].
  apply simulates_bind; [ apply simulates_waitForTabComplete | intros _ ].
  apply simulates_bind; [ simulate | intros _ ].
  apply simulates_bind; [ apply simulates_extractProfileFromTab | intros profileData ].
  apply simulates_submitProfile.
Qed.

Lemma simulates_attemptFailed (url : jsstring) (tab : option TabId) (remaining : nat)
    (message : jsstring) :
  simulates host (Resumable.attemptFailed host url tab remaining message)
    (attemptFailed host url tab remaining message).
Proof.
  unfold Resumable.attemptFailed, attemptFailed.
  apply simulates_bind; [ simulate | intros _ ].
  apply simulates_bind; [ simulate | intros st ].
  apply simulates_bind.
  - destruct tab as [id | ]; [ | simulate ].
    destruct (bool_decide _); [ apply simulates_closeTab | simulate ].
  - intros _. destruct remaining; simulate.
Qed.

Lemma simulates_tryBlock (url : jsstring) (tab : option TabId) :
  simulates host (Resumable.tryBlock host url tab) (tryBlock host url tab).
Proof.
  unfold Resumable.tryBlock, tryBlock.
  apply simulates_bind; [ simulate | intros _ ].
  apply simulates_bind; [ simulate | intros [id | error] ]; [ | simulate ].
  apply simulates_bind; [ | intros outcome; simulate ].
  apply simulates_try, simulates_scrapeTab.
Qed.

Lemma simulates_attempts (remaining : nat) (url : jsstring) (tab : option TabId) :
  simulates host (Resumable.attempts host remaining url tab)
    (attempts host remaining url tab).
Proof.
  revert tab. induction remaining as [ | remaining IH]; intros tab;
    cbn [Resumable.attempts attempts]; [ simulate | ].
  apply simulates_bind; [ apply simulates_tryBlock | intros [tab' [result | error]] ];
    cbn [fst snd]; [ simulate | ].
  apply simulates_bind; [ apply simulates_attemptFailed | intros _; apply IH ].
Qed.

Lemma simulates_processSingleUrl (url : jsstring) :
  simulates host (Resumable.processSingleUrl host url) (processSingleUrl host url).
Proof. unfold Resumable.processSingleUrl, processSingleUrl. apply simulates_attempts. Qed.

Lemma simulates_processUrl (i total : nat) (url : jsstring) (results : BatchResults) :
  simulates host (Resumable.processUrl host i total url results)
    (processUrl host i total url results).
Proof.
  unfold Resumable.processUrl, processUrl.
  apply simulates_bind.
  - apply simulates_try. apply simulates_bind; [ | intros _; apply simulates_processSingleUrl ].
    unfold Resumable.announce, announce. simulate.
  - intros [[profile id | [ | ] error] | error]; simulate.
Qed.

Lemma simulates_batchLoop (i total : nat) (urls : list jsstring) (results : BatchResults) :
  simulates host (Resumable.batchLoop host i total urls results)
    (batchLoop host i total urls results).
Proof.
  revert i results. induction urls as [ | url rest IH]; intros i results;
    cbn [Resumable.batchLoop batchLoop]; [ simulate | ].
  apply simulates_bind; [ apply simulates_processUrl | intros after ].
  apply simulates_bind; [ destruct (i <? total - 1)%nat; simulate | intros _ ].
  apply simulates_bind; [ simulate | intros st ].
  destruct (negb _); [ simulate | apply IH ].
Qed.

Lemma simulates_processBatchUrls (urls : list jsstring) :
  simulates host (Resumable.processBatchUrls host urls) (processBatchUrls host urls).
Proof.
  unfold Resumable.processBatchUrls, processBatchUrls.
  apply simulates_bind; [ simulate | intros now ].
  apply simulates_bind; [ apply simulates_batchLoop | intros results ].
  simulate.
Qed.

Lemma simulates_handleStartBatchProcessing (urls : option (list jsstring)) :
  simulates host (Resumable.handleStartBatchProcessing host urls)
    (handleStartBatchProcessing host urls).
Proof.
  unfold Resumable.handleStartBatchProcessing, handleStartBatchProcessing.
  apply simulates_bind; [ simulate | intros st ].
  destruct (isProcessing st); [ simulate | ].
  destruct urls as [[ | url urls] | ]; [ simulate | | simulate ].
  apply simulates_bind; [ | intros [response | error]; simulate ].
  apply simulates_try.
  apply simulates_bind; [ simulate | intros now ].
  apply simulates_bind; [ simulate | intros _ ].
  apply simulates_bind; [ apply simulates_processBatchUrls | intros results ].
  apply simulates_bind; [ unfold Resumable.updateStatistics, updateStatistics; simulate | intros _ ].
  simulate.
Qed.

(** *** The worker with one activity *)

Section Alone.

Variable starts : nat -> list (option (list jsstring)).
Variable turn : nat -> nat.

(** One suspension point of the worker whose only activity waits for
    [call], when no start message arrives: it is the [await] of the
    sequential model. *)
Lemma step_alone {C} (call : nat -> Res C)
    (k : Res C -> Resumable.Prog StartResponse) (w : World) :
  starts (tick w) = [] ->
  Resumable.step host starts turn (alone (Resumable.Await C call k) w)
  = alone (k (call (tick w))) (try (await host call) w).2.
Proof.
  intros Silent. unfold Resumable.step, alone.
  cbn [Resumable.advance Resumable.shared Resumable.activities fst snd].
  rewrite Silent. cbn [fold_left Resumable.shared Resumable.activities length].
  rewrite Nat.mod_1_r. cbn [lookup list_lookup].
  cbn [insert list_insert]. reflexivity.
Qed.

(** The worker whose only activity is [p ≫= f], when no start message
    arrives, comes to the point where [p] has ended as it does in the
    sequential model, and [f] goes on from there. *)
Lemma alone_bind {A} (p : Resumable.Prog A) (f : A -> Resumable.Prog StartResponse)
    (w : World) :
  noStartFrom starts (tick w) ->
  exists n,
    Resumable.steps host starts turn n (alone (p ≫= f) w)
    = match Resumable.run host p w with
      | (Ok a, w') => alone (f a) w'
      | (Throw error, w') => alone (Resumable.Raise error) w'
      end.
Proof.
  revert w. induction p as [a | message | k IH | k IH | e k IH | g k IH | C call k IH];
    intros w Silent.
  - exists 0%nat. reflexivity.
  - exists 0%nat. reflexivity.
  - exact (IH (ext w) w Silent).
  - exact (IH (tick w) w Silent).
  - exact (IH (emit e w).2 Silent).
  - exact (IH (update g w).2 Silent).
  - destruct (IH (call (tick w)) (try (await host call) w).2) as [n Run].
    { intros t Later. apply Silent. revert Later. unfold try, await. cbn [snd tick].
      rewrite deliver_all_tick. lia. }
    exists (S n). cbn [Resumable.steps].
    change (alone (Resumable.Await C call k ≫= f) w)
      with (alone (Resumable.Await C call (fun answer => k answer ≫= f)) w).
    rewrite step_alone by (apply Silent; lia). exact Run.
Qed.

(** The worker whose only activity is [p], when no start message arrives,
    comes to the end of [p], with the outcome and the world of the
    sequential model. *)
Lemma alone_run (p : Resumable.Prog StartResponse) (w : World) :
  noStartFrom starts (tick w) ->
  exists n,
    Resumable.steps host starts turn n (alone p w)
    = {| Resumable.shared := (Resumable.run host p w).2;
         Resumable.activities := [ended (Resumable.run host p w).1] |}.
Proof.
  revert w. induction p as [a | message | k IH | k IH | e k IH | g k IH | C call k IH];
    intros w Silent.
  - exists 0%nat. reflexivity.
  - exists 0%nat. reflexivity.
  - exact (IH (ext w) w Silent).
  - exact (IH (tick w) w Silent).
  - exact (IH (emit e w).2 Silent).
  - exact (IH (update g w).2 Silent).
  - destruct (IH (call (tick w)) (try (await host call) w).2) as [n Run].
    { intros t Later. apply Silent. revert Later. unfold try, await. cbn [snd tick].
      rewrite deliver_all_tick. lia. }
    exists (S n). cbn [Resumable.steps].
    rewrite step_alone by (apply Silent; lia). exact Run.
Qed.

End Alone.

(** *** One batch and no second start *)

(** X24: a start request that is accepted while no other activity of the
    worker is pending, and that is followed neither by a stop request nor
    by another start message, is answered with results in which every
    URL of the batch has exactly one outcome: the URLs of the three lists
    together are the URLs of the batch, and the three counters sum to its
    size. *)
Theorem unstopped_batch_visits_every_url (starts : nat -> list (option (list jsstring)))
    (turn : nat -> nat) (url : jsstring) (urls : list jsstring) (w : World) :
  quiet host ->
  noStartFrom starts (tick w) ->
  isProcessing (ext w) = false ->
  exists n results time,
    Resumable.activities
      (Resumable.steps host starts turn n
         (Resumable.receive host (Resumable.idle w) (Some (url :: urls))))
    = [Resumable.Return (StartCompleted results time)]
    /\ outcomeUrls results ≡ₚ url :: urls
    /\ counted results
    /\ (successes (summary results) + errors (summary results)
        + duplicates (summary results) = length (url :: urls))%nat.
Proof.
  intros Quiet Silent Off.
  destruct (lone_batch_visits_every_url host url urls w Quiet Off)
    as (results & time & Answer & Visited).
  destruct (alone_run starts turn
              (Resumable.handleStartBatchProcessing host (Some (url :: urls))) w Silent)
    as [n Run].
  exists n, results, time. split; [ | exact Visited ].
  change (Resumable.receive host (Resumable.idle w) (Some (url :: urls)))
    with (alone (Resumable.handleStartBatchProcessing host (Some (url :: urls))) w).
  rewrite Run. cbn [Resumable.activities].
  rewrite simulates_handleStartBatchProcessing, Answer. reflexivity.
Qed.

(** X25: when the batch loop is the only activity of the worker and no
    start message arrives, a stop request that arrives while the worker
    waits for the tab of a URL does not interrupt that URL: it is
    processed to its outcome, retries included, and recorded. The loop
    then ends and hands its results to what follows it, [k]: no later URL
    of the batch gets a tab, a POST or an outcome. *)
Theorem stop_ends_batch_after_current_url (starts : nat -> list (option (list jsstring)))
    (turn : nat -> nat) (i total : nat) (url : jsstring) (rest : list jsstring)
    (results : BatchResults) (k : BatchResults -> Resumable.Prog StartResponse)
    (w : World) :
  StopRequested ∈ interrupts host (tick w) ->
  noStartFrom starts (tick w) ->
  exists n after w' new,
    Resumable.steps host starts turn n
      (alone (Resumable.batchLoop host i total (url :: rest) results ≫= k) w)
    = alone (k after) w'
    /\ recorded url results after
    /\ events w' = events w ++ new
    /\ Forall (batchRequest [url]) (requests new)
    /\ isProcessing (ext w') = false.
Proof.
  intros Stop Silent.
  destruct (batchLoop_stopped host i total url rest results w Stop)
    as (after & w' & new & Run & Facts).
  destruct (alone_bind starts turn
              (Resumable.batchLoop host i total (url :: rest) results) k w Silent)
    as [n Steps].
  rewrite simulates_batchLoop, Run in Steps.
  exists n, after, w', new. split; [ exact Steps | exact Facts ].
Qed.

(** *** The tracked set while one batch runs *)

Lemma advance_grows {A} (p : Resumable.Prog A) (w : World) :
  tick (Resumable.advance p w).2 = tick w
  /\ exists new, events (Resumable.advance p w).2 = events w ++ new.
Proof.
  revert w. induction p as [a | message | k IH | k IH | e k IH | g k IH | C call k IH];
    intros w; cbn [Resumable.advance snd];
    try (split; [ reflexivity | exists []; rewrite app_nil_r; reflexivity ]).
  - apply IH.
  - apply IH.
  - destruct (IH (emit e w).2) as (Tick & new & Events).
    split; [ exact Tick | ]. exists (e :: new). rewrite Events. cbn [emit snd events].
    rewrite <- app_assoc. reflexivity.
  - destruct (IH (update g w).2) as (Tick & new & Events).
    split; [ exact Tick | ]. eexists (_ :: new). rewrite Events. cbn [update snd events].
    rewrite <- app_assoc. reflexivity.
Qed.

Lemma receive_all_grows (messages : list (option (list jsstring))) (pool : Resumable.Pool) :
  tick (Resumable.shared (fold_left (Resumable.receive host) messages pool))
  = tick (Resumable.shared pool)
  /\ exists new,
       events (Resumable.shared (fold_left (Resumable.receive host) messages pool))
       = events (Resumable.shared pool) ++ new.
Proof.
  revert pool. induction messages as [ | data messages IH]; intros pool; cbn [fold_left].
  - split; [ reflexivity | exists []; rewrite app_nil_r; reflexivity ].
  - destruct (IH (Resumable.receive host pool data)) as (Tick & new & Events).
    destruct (advance_grows (Resumable.handleStartBatchProcessing host data)
                (Resumable.shared pool)) as (Tick1 & new1 & Events1).
    change (Resumable.shared (Resumable.receive host pool data))
      with (Resumable.advance (Resumable.handleStartBatchProcessing host data)
              (Resumable.shared pool)).2 in Tick, Events.
    split; [ rewrite Tick; exact Tick1 | ].
    exists (new1 ++ new). rewrite Events, Events1, app_assoc. reflexivity.
Qed.

(** A suspension point passes, and events are only added. *)
Lemma step_grows (starts : nat -> list (option (list jsstring))) (turn : nat -> nat)
    (pool : Resumable.Pool) :
  tick (Resumable.shared (Resumable.step host starts turn pool))
  = S (tick (Resumable.shared pool))
  /\ exists new,
       events (Resumable.shared (Resumable.step host starts turn pool))
       = events (Resumable.shared pool) ++ new.
Proof.
  unfold Resumable.step.
  set (delivered := fold_left deliver _ (Resumable.shared pool)).
  set (received := fold_left (Resumable.receive host) _ _).
  destruct (receive_all_grows (starts (tick (Resumable.shared pool)))
              {| Resumable.shared := delivered;
                 Resumable.activities := Resumable.activities pool |})
    as (Tick & new2 & Events). fold received in Tick, Events.
  cbn [Resumable.shared] in Tick, Events.
  destruct (deliver_all_grows (interrupts host (tick (Resumable.shared pool)))
              (Resumable.shared pool)) as [new1 Events1]. fold delivered in Events1.
  assert (Tick1 : tick delivered = tick (Resumable.shared pool))
    by apply deliver_all_tick.
  assert (Base : tick (Resumable.shared received) = tick (Resumable.shared pool)
                 /\ events (Resumable.shared received)
                    = events (Resumable.shared pool) ++ new1 ++ new2).
  { split; [ congruence | ]. rewrite Events, Events1, app_assoc. reflexivity. }
  clearbody received delivered. destruct Base as [Tick0 Events0].
  destruct (Resumable.activities received !! _) as [[a | message | k | k | e k | g k | C call k] | ];
    cbn [Resumable.shared tick events];
    try (split; [ rewrite Tick0; reflexivity | ];
         exists (new1 ++ new2); exact Events0).
  match goal with
  | |- context [Resumable.advance ?p ?w] =>
      destruct (advance_grows p w) as (Tick3 & new3 & Events3)
  end.
  split; [ rewrite Tick3; cbn [tick]; rewrite Tick0; reflexivity | ].
  exists ((new1 ++ new2) ++ new3). rewrite Events3. cbn [events].
  rewrite Events0, !app_assoc. reflexivity.
Qed.

Lemma steps_grows (starts : nat -> list (option (list jsstring))) (turn : nat -> nat)
    (n : nat) (pool : Resumable.Pool) :
  tick (Resumable.shared (Resumable.steps host starts turn n pool))
  = (n + tick (Resumable.shared pool))%nat
  /\ exists new,
       events (Resumable.shared (Resumable.steps host starts turn n pool))
       = events (Resumable.shared pool) ++ new.
Proof.
  revert pool. induction n as [ | n IH]; intros pool; cbn [Resumable.steps].
  - split; [ reflexivity | exists []; rewrite app_nil_r; reflexivity ].
  - destruct (IH (Resumable.step host starts turn pool)) as (Tick & new & Events).
    destruct (step_grows starts turn pool) as (Tick1 & new1 & Events1).
    split; [ rewrite Tick, Tick1; lia | ].
    exists (new1 ++ new). rewrite Events, Events1, app_assoc. reflexivity.
Qed.

Lemma steps_add (starts : nat -> list (option (list jsstring))) (turn : nat -> nat)
    (a b : nat) (pool : Resumable.Pool) :
  Resumable.steps host starts turn (a + b) pool
  = Resumable.steps host starts turn b (Resumable.steps host starts turn a pool).
Proof.
  revert pool. induction a as [ | a IH]; intros pool; [ reflexivity | ].
  cbn [Nat.add Resumable.steps]. apply IH.
Qed.

(** Once its only activity has ended the worker only delivers events. *)
Lemma steps_after_the_end (starts : nat -> list (option (list jsstring)))
    (turn : nat -> nat) (n : nat) (r : Res StartResponse) (w : World) :
  noStartFrom starts (tick w) ->
  activeTabs (ext w) = ∅ ->
  grows w (Resumable.shared
             (Resumable.steps host starts turn n
                {| Resumable.shared := w; Resumable.activities := [ended r] |})).
Proof.
  revert w. induction n as [ | n IH]; intros w Silent Idle; cbn [Resumable.steps].
  - apply grows_refl.
  - assert (Step : Resumable.step host starts turn
                     {| Resumable.shared := w; Resumable.activities := [ended r] |}
                   = {| Resumable.shared := (try (await host (fun _ => Ok tt)) w).2;
                        Resumable.activities := [ended r] |}).
    { unfold Resumable.step. cbn [Resumable.shared Resumable.activities].
      rewrite (Silent (tick w)) by lia.
      cbn [fold_left Resumable.shared Resumable.activities length].
      rewrite Nat.mod_1_r. destruct r; reflexivity. }
    rewrite Step.
    destruct (deliver_all_keeps idle (interrupts host (tick w)) w stable_idle Idle)
      as [Grown Idle'].
    refine (grows_trans _ (try (await host (fun _ => Ok tt)) w).2 _ _ _).
    + destruct Grown as (new & Events & Bounded & Last).
      exists new. repeat split; assumption.
    + apply IH; [ | exact Idle' ].
      intros t Later. apply Silent. revert Later. unfold try, await. cbn [snd tick].
      rewrite deliver_all_tick. lia.
Qed.

(** X28: while the worker has one batch and no further start message
    arrives, the tracked set never holds more than one tab. At every
    suspension point after a start message received with nothing pending
    and no tab tracked, the events so far only extend those before the
    message, and every value the tracked set has taken since has at most
    one element. The run includes the retries, the tabs the user closes
    meanwhile and stop requests. *)
Theorem lone_batch_tracks_one_tab (starts : nat -> list (option (list jsstring)))
    (turn : nat -> nat) (data : option (list jsstring)) (w : World) (n : nat) :
  activeTabs (ext w) = ∅ ->
  noStartFrom starts (tick w) ->
  exists new,
    events (Resumable.shared
              (Resumable.steps host starts turn n
                 (Resumable.receive host (Resumable.idle w) data)))
    = events w ++ new
    /\ bounded new.
Proof.
  intros Idle Silent.
  change (Resumable.receive host (Resumable.idle w) data)
    with (alone (Resumable.handleStartBatchProcessing host data) w).
  set (p := Resumable.handleStartBatchProcessing host data).
  destruct (alone_run starts turn p w Silent) as [total Run].
  destruct (handleStartBatchProcessing_spec host data w Idle)
    as [(all & Events & Bounded & _) [_ Idle']].
  assert (Same : Resumable.run host p w = handleStartBatchProcessing host data w)
    by apply simulates_handleStartBatchProcessing.
  rewrite Same in Run.
  destruct (advance_grows p w) as (Tick0 & new0 & Events0).
  destruct (le_lt_dec n total) as [Before | After].
  - destruct (steps_grows starts turn n (alone p w)) as (_ & new1 & Events1).
    destruct (steps_grows starts turn (total - n)
                (Resumable.steps host starts turn n (alone p w))) as (_ & new2 & Events2).
    rewrite <- steps_add in Events2. replace (n + (total - n))%nat with total in Events2 by lia.
    rewrite Run in Events2. cbn [Resumable.shared] in Events2.
    cbn [alone Resumable.shared] in Events1. rewrite Events0 in Events1.
    rewrite Events1, Events, <- !app_assoc in Events2.
    apply app_inv_head in Events2. subst all.
    exists (new0 ++ new1). split; [ rewrite Events1, app_assoc; reflexivity | ].
    intros s In. apply Bounded. rewrite app_assoc. apply elem_of_app. left. exact In.
  - replace n with (total + (n - total))%nat by lia.
    rewrite steps_add, Run.
    pose proof (steps_after_the_end starts turn (n - total)
                  (handleStartBatchProcessing host data w).1
                  (handleStartBatchProcessing host data w).2) as Later.
    destruct Later as (more & Events2 & Bounded2 & _).
    + destruct (steps_grows starts turn total (alone p w)) as (Tick & _).
      rewrite Run in Tick. cbn [Resumable.shared alone] in Tick.
      intros t Later. apply Silent. rewrite Tick, Tick0 in Later. lia.
    + exact Idle'.
    + exists (all ++ more). rewrite Events2, Events, app_assoc.
      split; [ reflexivity | apply bounded_app; assumption ].
Qed.

End ResumableFacts.

(** *** Runs of the examples *)

Lemma unstopped_batch_visits_every_url_witness :
  exists n results time,
    Background.Resumable.activities
      (Background.Resumable.steps sampleHost (fun _ => []) (fun _ => 0%nat) n
         (Background.Resumable.receive sampleHost
            (Background.Resumable.idle initialWorld)
            (Some [profileUrl "a"; profileUrl "b"])))
    = [Background.Resumable.Return (Background.StartCompleted results time)]
    /\ outcomeUrls results ≡ₚ [profileUrl "a"; profileUrl "b"]
    /\ counted results
    /\ (Background.successes (Background.summary results)
        + Background.errors (Background.summary results)
        + Background.duplicates (Background.summary results) = 2)%nat.
Proof.
  exact (unstopped_batch_visits_every_url sampleHost (fun _ => []) (fun _ => 0%nat)
           (profileUrl "a") [profileUrl "b"] initialWorld sampleHost_quiet
           (fun _ _ => eq_refl) eq_refl).
Defined.

Lemma stop_ends_batch_after_current_url_witness :
  exists n after w' new,
    Background.Resumable.steps stoppingHost (fun _ => []) (fun _ => 0%nat) n
      (alone
         (Background.Resumable.batchLoop stoppingHost 0 2 [profileUrl "a"; profileUrl "b"]
            (Background.emptyResults [profileUrl "a"; profileUrl "b"] 0)
          ≫= fun results =>
               Background.Resumable.Return (Background.StartCompleted results 0))
         initialWorld)
    = alone (Background.Resumable.Return (Background.StartCompleted after 0)) w'
    /\ recorded (profileUrl "a")
         (Background.emptyResults [profileUrl "a"; profileUrl "b"] 0) after
    /\ Background.events w' = Background.events initialWorld ++ new
    /\ Forall (batchRequest [profileUrl "a"]) (requests new)
    /\ Background.isProcessing (Background.ext w') = false.
Proof.
  apply (stop_ends_batch_after_current_url stoppingHost (fun _ => []) (fun _ => 0%nat)
           0 2 (profileUrl "a") [profileUrl "b"]
           (Background.emptyResults [profileUrl "a"; profileUrl "b"] 0)
           (fun results =>
              Background.Resumable.Return (Background.StartCompleted results 0))
           initialWorld).
  - cbn. apply list_elem_of_here.
  - intros t Later. reflexivity.
Defined.

Lemma lone_batch_tracks_one_tab_witness :
  exists new,
    Background.events
      (Background.Resumable.shared
         (Background.Resumable.steps sampleHost (fun _ => []) (fun _ => 0%nat) 7
            (Background.Resumable.receive sampleHost
               (Background.Resumable.idle initialWorld)
               (Some [profileUrl "a"; profileUrl "b"; profileUrl "c"]))))
    = Background.events initialWorld ++ new
    /\ bounded new.
Proof.
  apply (lone_batch_tracks_one_tab sampleHost (fun _ => []) (fun _ => 0%nat)
           (Some [profileUrl "a"; profileUrl "b"; profileUrl "c"]) initialWorld 7).
  - reflexivity.
  - intros t Later. reflexivity.
Defined.

(** The batch that is stopped and started again is carried through to its
    last URL twice, by the loop that was stopped and by the new one: each
    of the three URLs is opened and posted by both. *)
Example stopped_loop_runs_on :
  exists stopped time started time',
    Background.Resumable.responses (restarted 61)
    = [ Ok (Background.StartCompleted stopped time);
        Ok (Background.StartCompleted started time') ]
    /\ map (fun entry => entry.1.1) (Background.successful stopped)
       = [profileUrl "a"; profileUrl "b"; profileUrl "c"]
    /\ map (fun entry => entry.1.1) (Background.successful started)
       = [profileUrl "a"; profileUrl "b"; profileUrl "c"]
    /\ sent (requests (Background.events (Background.Resumable.shared (restarted 61))))
       = 6%nat.
Proof.
  eexists _, _, _, _. split; [ vm_compute; reflexivity | ]. vm_compute. repeat split.
Qed.
